(** * CopyGum: clipboard capture, classification and retention

    A shallow embedding of the capture-and-classification pipeline of the
    clipboard manager:

    - [electron/contentAnalyzer.ts]: [analyzeContentType],
      [detectSourcePlatform], [enhancedDetection];
    - [electron/main.ts]: the clipboard poller of [startClipboardMonitoring]
      and the [set-clipboard-text] handler;
    - the [DatabaseService] class (duplicate lookup, ingestion, eviction).

    JavaScript strings are sequences of UTF-16 code units, modelled as
    [list N].  Regular expressions are embedded as syntax trees and run by a
    backtracking matcher; [JSON.parse] is embedded as a recogniser of the
    JSON grammar. *)

From Stdlib Require Import ZArith NArith Lia Bool.
From Stdlib Require Import Strings.String Strings.Ascii Strings.Byte.
From stdpp Require Import base list gmap sorting.

Local Open Scope Z_scope.

(** ** JavaScript strings *)

Module JS.

(** A string literal of the source, as code units (ASCII literals only). *)
Fixpoint lit (s : string) : list N :=
  match s with
  | EmptyString => []
  | String a s' => N_of_ascii a :: lit s'
  end.

Definition eqb (a b : list N) : bool := bool_decide (a = b).

(** WhiteSpace and LineTerminator code points: what [String.prototype.trim]
    strips and what the class escape [\s] matches. *)
Definition is_space (c : N) : bool :=
  ((9 <=? c) && (c <=? 13) || (c =? 32) || (c =? 160) || (c =? 5760)
   || (8192 <=? c) && (c <=? 8202) || (c =? 8232) || (c =? 8233)
   || (c =? 8239) || (c =? 8287) || (c =? 12288) || (c =? 65279))%N.

Fixpoint trimStart (s : list N) : list N :=
  match s with
  | [] => []
  | c :: s' => if is_space c then trimStart s' else s
  end.

Fixpoint trimEnd (s : list N) : list N :=
  match s with
  | [] => []
  | c :: s' =>
      match trimEnd s' with
      | [] => if is_space c then [] else [c]
      | t => c :: t
      end
  end.

Definition trim (s : list N) : list N := trimEnd (trimStart s).

Fixpoint startsWith (s p : list N) {struct p} : bool :=
  match p, s with
  | [], _ => true
  | _ :: _, [] => false
  | a :: p', c :: s' => (a =? c)%N && startsWith s' p'
  end.

Definition endsWith (s p : list N) : bool := startsWith (rev s) (rev p).

Fixpoint includes (s p : list N) : bool :=
  startsWith s p || match s with [] => false | _ :: s' => includes s' p end.

(** [s.length] *)
Definition length (s : list N) : Z := Z.of_nat (List.length s).

(** [s.substring(a, b)]: both ends are clamped to [0, length] and swapped
    when out of order. *)
Definition substring (s : list N) (a b : Z) : list N :=
  let clamp x := Z.min (Z.max x 0) (length s) in
  let lo := Z.min (clamp a) (clamp b) in
  let hi := Z.max (clamp a) (clamp b) in
  take (Z.to_nat (hi - lo)) (drop (Z.to_nat lo) s).

(** [s.substring(a)] *)
Definition substringFrom (s : list N) (a : Z) : list N :=
  substring s a (length s).

(** [s.split('\n')[0]] *)
Fixpoint firstLine (s : list N) : list N :=
  match s with
  | [] => []
  | c :: s' => if (c =? 10)%N then [] else c :: firstLine s'
  end.

(** Number-to-string conversion of a non-negative integer. *)
Fixpoint digits (fuel : nat) (n : N) (acc : list N) : list N :=
  match fuel with
  | O => acc
  | S f =>
      let acc' := (48 + n mod 10)%N :: acc in
      if (n <? 10)%N then acc' else digits f (n / 10)%N acc'
  end.

Definition ofN (n : N) : list N := digits (S (N.to_nat (N.log2 n))) n [].

Definition ofZ (z : Z) : list N :=
  if z <? 0 then 45%N :: ofN (Z.to_N (- z)) else ofN (Z.to_N z).

(** Order of strings as IndexedDB keys: by code units, a prefix first. *)
Fixpoint leb (a b : list N) : bool :=
  match a, b with
  | [], _ => true
  | _ :: _, [] => false
  | x :: a', y :: b' => (x <? y)%N || ((x =? y)%N && leb a' b')
  end.

(** [a || b] on strings: the empty string is falsy. *)
Definition or (a b : list N) : list N :=
  match a with [] => b | _ => a end.

(** Iteration of a string by code points ([for (const ch of str)]): a high
    surrogate followed by a low surrogate is one element. *)
Fixpoint codePoints (s : list N) : list (list N) :=
  match s with
  | [] => []
  | c :: s' =>
      match s' with
      | d :: s'' =>
          if ((55296 <=? c) && (c <=? 56319) && (56320 <=? d) && (d <=? 57343))%N
          then [c; d] :: codePoints s''
          else [c] :: codePoints s'
      | [] => [[c]]
      end
  end.

End JS.

(** ** Regular expressions

    The patterns of the source carry no [g], [m], [s], [u] or [y] flag and no
    capture is read back, so [RegExp.prototype.test] only asks whether some
    match exists.  [^] and [$] are the ends of the input, [\b] is a word
    boundary. *)

Module Regex.

Inductive regex : Type :=
  | Eps
  | Class (p : N → bool)
  | Seq (r1 r2 : regex)
  | Alt (r1 r2 : regex)
  | Star (r : regex)
  | Bol
  | Eol
  | WordBoundary.

(** Character classes. *)
Definition chr (a : ascii) : N → bool := N.eqb (N_of_ascii a).
Definition range (a b : ascii) : N → bool :=
  fun c => (N_of_ascii a <=? c)%N && (c <=? N_of_ascii b)%N.
Definition union (p q : N → bool) : N → bool := fun c => p c || q c.
Definition compl (p : N → bool) : N → bool := fun c => negb (p c).
Fixpoint oneOf (s : string) : N → bool :=
  match s with
  | EmptyString => fun _ => false
  | String a s' => union (chr a) (oneOf s')
  end.

Definition digit : N → bool := range "0" "9".
Definition lower : N → bool := range "a" "z".
Definition upper : N → bool := range "A" "Z".
Definition alnum : N → bool := union lower (union upper digit).
(** [\w], [\s], [\d], [.] and [[\s\S]] *)
Definition word : N → bool := union alnum (chr "_").
Definition space : N → bool := JS.is_space.
Definition dot : N → bool :=
  fun c => negb ((c =? 10) || (c =? 13) || (c =? 8232) || (c =? 8233))%N.
Definition any : N → bool := fun _ => true.

(** Derived forms. *)
Fixpoint str (s : string) : regex :=
  match s with
  | EmptyString => Eps
  | String a s' => Seq (Class (chr a)) (str s')
  end.
Definition Plus (r : regex) : regex := Seq r (Star r).
Definition Opt (r : regex) : regex := Alt r Eps.
(** [r{n}], [r{n,}] and [r{0,n}] *)
Fixpoint Rep (n : nat) (r : regex) : regex :=
  match n with O => Eps | S n' => Seq r (Rep n' r) end.
Definition RepMin (n : nat) (r : regex) : regex := Seq (Rep n r) (Star r).
Fixpoint RepMax (n : nat) (r : regex) : regex :=
  match n with O => Eps | S n' => Opt (Seq r (RepMax n' r)) end.
Fixpoint alts (rs : list regex) : regex :=
  match rs with
  | [] => Class (fun _ => false)
  | [r] => r
  | r :: rs' => Alt r (alts rs')
  end.
(** [(w1|w2|...)], written as the source writes it. *)
Fixpoint split_bar (s : string) (cur : string) : list string :=
  match s with
  | EmptyString => [cur]
  | String a s' =>
      if Ascii.eqb a "|" then cur :: split_bar s' EmptyString
      else split_bar s' (String.append cur (String a EmptyString))
  end.
Definition words (ws : string) : regex := alts (map str (split_bar ws EmptyString)).
Fixpoint seqs (rs : list regex) : regex :=
  match rs with
  | [] => Eps
  | [r] => r
  | r :: rs' => Seq r (seqs rs')
  end.

Definition is_word_char (c : option N) : bool :=
  match c with Some c => word c | None => false end.

(** [rmatch r prev s k]: some match of [r] at the current position, where
    [prev] is the code unit before it ([None] at the start of the input) and
    [s] the rest of the input, can be continued by [k].  A [Star] iterates
    greedily and an iteration has to consume input. *)
Fixpoint rmatch (r : regex) (prev : option N) (s : list N)
    (k : option N → list N → bool) {struct r} : bool :=
  match r with
  | Eps => k prev s
  | Class p =>
      match s with
      | c :: s' => p c && k (Some c) s'
      | [] => false
      end
  | Seq r1 r2 => rmatch r1 prev s (fun prev' s' => rmatch r2 prev' s' k)
  | Alt r1 r2 => rmatch r1 prev s k || rmatch r2 prev s k
  | Star r1 =>
      (fix iter (fuel : nat) (prev : option N) (s : list N) {struct fuel} : bool :=
         match fuel with
         | O => k prev s
         | S fuel' =>
             rmatch r1 prev s
               (fun prev' s' =>
                  (List.length s' <? List.length s)%nat && iter fuel' prev' s')
             || k prev s
         end) (List.length s) prev s
  | Bol => match prev with None => k prev s | Some _ => false end
  | Eol => match s with [] => k prev s | _ :: _ => false end
  | WordBoundary =>
      xorb (is_word_char prev) (is_word_char (head s)) && k prev s
  end.

(** A match starting at the current position or at a later one. *)
Fixpoint search (r : regex) (prev : option N) (s : list N) : bool :=
  rmatch r prev s (fun _ _ => true)
  || match s with
     | [] => false
     | c :: s' => search r (Some c) s'
     end.

(** [r.test(s)] *)
Definition test (r : regex) (s : list N) : bool := search r None s.

End Regex.

(** ** JSON texts

    [JSON.parse] throws unless its argument is a JSON text; only this is
    observed by the caller.  [value] returns the input left after one JSON
    value. *)

Module Json.

Definition is_ws (c : N) : bool :=
  ((c =? 9) || (c =? 10) || (c =? 13) || (c =? 32))%N.

Fixpoint skip_ws (s : list N) : list N :=
  match s with
  | c :: s' => if is_ws c then skip_ws s' else s
  | [] => []
  end.

Definition is_hex (c : N) : bool :=
  Regex.union Regex.digit (Regex.union (Regex.range "a" "f") (Regex.range "A" "F")) c.

(** The characters of a string after its opening quote. *)
Fixpoint string_rest (s : list N) : option (list N) :=
  match s with
  | [] => None
  | c :: s' =>
      if (c =? 34)%N then Some s'
      else if (c =? 92)%N then
        match s' with
        | e :: s'' =>
            if (e =? 34)%N || Regex.oneOf "\/bfnrt" e then string_rest s''
            else if (e =? 117)%N then
              match s'' with
              | h1 :: h2 :: h3 :: h4 :: s''' =>
                  if is_hex h1 && is_hex h2 && is_hex h3 && is_hex h4
                  then string_rest s''' else None
              | _ => None
              end
            else None
        | [] => None
        end
      else if (c <? 32)%N then None
      else string_rest s'
  end.

Fixpoint skip_digits (s : list N) : list N :=
  match s with
  | c :: s' => if Regex.digit c then skip_digits s' else s
  | [] => []
  end.

(** One or more digits. *)
Definition digits1 (s : list N) : option (list N) :=
  match s with
  | c :: s' => if Regex.digit c then Some (skip_digits s') else None
  | [] => None
  end.

Definition number (s : list N) : option (list N) :=
  let s1 := match s with c :: s' => if (c =? 45)%N then s' else s | [] => s end in
  let int :=
    match s1 with
    | c :: s' =>
        if (c =? 48)%N then Some s'
        else if Regex.range "1" "9" c then Some (skip_digits s')
        else None
    | [] => None
    end in
  match int with
  | None => None
  | Some s2 =>
      let frac :=
        match s2 with
        | c :: s' => if (c =? 46)%N then digits1 s' else Some s2
        | [] => Some s2
        end in
      match frac with
      | None => None
      | Some s3 =>
          match s3 with
          | c :: s' =>
              if Regex.oneOf "eE" c then
                match s' with
                | d :: s'' => if Regex.oneOf "+-" d then digits1 s'' else digits1 s'
                | [] => None
                end
              else Some s3
          | [] => Some s3
          end
      end
  end.

Definition keyword (w : string) (s : list N) : option (list N) :=
  if JS.startsWith s (JS.lit w)
  then Some (drop (String.length w) s) else None.

Fixpoint value (fuel : nat) (s : list N) {struct fuel} : option (list N) :=
  match fuel with
  | O => None
  | S f =>
      match s with
      | [] => None
      | c :: s1 =>
          if (c =? 123)%N then
            match skip_ws s1 with
            | d :: s2 => if (d =? 125)%N then Some s2 else members f (d :: s2)
            | [] => None
            end
          else if (c =? 91)%N then
            match skip_ws s1 with
            | d :: s2 => if (d =? 93)%N then Some s2 else elements f (d :: s2)
            | [] => None
            end
          else if (c =? 34)%N then string_rest s1
          else if (c =? 116)%N then keyword "true" s
          else if (c =? 102)%N then keyword "false" s
          else if (c =? 110)%N then keyword "null" s
          else number s
      end
  end
with elements (fuel : nat) (s : list N) {struct fuel} : option (list N) :=
  match fuel with
  | O => None
  | S f =>
      match value f s with
      | None => None
      | Some r =>
          match skip_ws r with
          | c :: r' =>
              if (c =? 44)%N then elements f (skip_ws r')
              else if (c =? 93)%N then Some r'
              else None
          | [] => None
          end
      end
  end
with members (fuel : nat) (s : list N) {struct fuel} : option (list N) :=
  match fuel with
  | O => None
  | S f =>
      match s with
      | c :: s1 =>
          if (c =? 34)%N then
            match string_rest s1 with
            | None => None
            | Some r0 =>
                match skip_ws r0 with
                | d :: r1 =>
                    if (d =? 58)%N then
                      match value f (skip_ws r1) with
                      | None => None
                      | Some r =>
                          match skip_ws r with
                          | e :: r' =>
                              if (e =? 44)%N then members f (skip_ws r')
                              else if (e =? 125)%N then Some r'
                              else None
                          | [] => None
                          end
                      end
                    else None
                | [] => None
                end
            end
          else None
      | [] => None
      end
  end.

(** [true] when [JSON.parse(s)] returns, [false] when it throws. *)
Definition parses (s : list N) : bool :=
  match value (2 * List.length s + 2) (skip_ws s) with
  | Some r => match skip_ws r with [] => true | _ :: _ => false end
  | None => false
  end.

End Json.

(** ** electron/contentAnalyzer.ts *)

Module ContentTypeResult.
Record t : Type := mk { type : list N; confidence : Z; patterns : list (list N) }.
End ContentTypeResult.

Module SourcePlatformResult.
Record t : Type := mk { platform : list N; confidence : Z; indicators : list (list N) }.
End SourcePlatformResult.

Module DetectionResult.
Record t : Type :=
  mk { contentType : list N; sourceApp : list N; confidence : Z;
       reasoning : list (list N) }.
End DetectionResult.

Module Analyzer.
Import Regex.

(** *** [calculateEntropy]

    The source computes the Shannon entropy [- Σ p log2 p], [p = count/len],
    in floating point and compares it with [3.5].  [frequencies] is the
    table [freq].  The outcome of the floating-point comparison is a
    parameter of the classifier ([entropyHigh] below): the double differs
    from the real value of the sum by rounding, and the two comparisons
    disagree when the real entropy is 3.5 or within rounding distance of it.
    [entropyAbove3_5] is the comparison on the real value, which serves as
    an instance on inputs whose entropy is far from 3.5: with counts [c_i],
    [C = Σ c_i] and [n = len],
    [- Σ (c_i/n) log2 (c_i/n) > 7/2] iff [n^(2C) > 2^(7n) * Π c_i^(2 c_i)]. *)
Fixpoint bump (ch : list N) (freq : list (list N * Z)) : list (list N * Z) :=
  match freq with
  | [] => [(ch, 1)]
  | (c, n) :: f => if JS.eqb c ch then (c, n + 1) :: f else (c, n) :: bump ch f
  end.

Definition frequencies (s : list N) : list (list N * Z) :=
  foldl (fun freq ch => bump ch freq) [] (JS.codePoints s).

Definition entropyAbove3_5 (s : list N) : bool :=
  let n := JS.length s in
  let counts := map snd (frequencies s) in
  let C := foldr Z.add 0 counts in
  let P := foldr (fun c acc => c ^ (2 * c) * acc) 1 counts in
  2 ^ (7 * n) * P <? n ^ (2 * C).

(** *** The patterns of [analyzeContentType] *)

(** [/^sk-[a-zA-Z0-9-]{40,}$/] *)
Definition re_openai : regex :=
  seqs [Bol; str "sk-"; RepMin 40 (Class (union alnum (chr "-"))); Eol].
(** [/^pk_test_[a-zA-Z0-9]{24}$/] and [/^sk_test_[a-zA-Z0-9]{24}$/] *)
Definition re_stripe_pk : regex := seqs [Bol; str "pk_test_"; Rep 24 (Class alnum); Eol].
Definition re_stripe_sk : regex := seqs [Bol; str "sk_test_"; Rep 24 (Class alnum); Eol].
(** [/^ghp_[a-zA-Z0-9]{36}$/] *)
Definition re_github : regex := seqs [Bol; str "ghp_"; Rep 36 (Class alnum); Eol].
(** [/^[A-Za-z0-9+/]{40,}={0,2}$/] *)
Definition re_base64 : regex :=
  seqs [Bol; RepMin 40 (Class (union alnum (oneOf "+/")));
        RepMax 2 (Class (chr "=")); Eol].

(** [/\b(function|const|let|var|class|import|export|if|else|for|while|return)\b/] *)
Definition re_js_keywords : regex :=
  seqs [WordBoundary;
        words "function|const|let|var|class|import|export|if|else|for|while|return";
        WordBoundary].
(** [/\b(def|class|import|from|if|elif|else|for|while|return|try|except)\b/] *)
Definition re_py_keywords : regex :=
  seqs [WordBoundary;
        words "def|class|import|from|if|elif|else|for|while|return|try|except";
        WordBoundary].
(** [/^\s*[\w.]+\s*[=:]\s*/] *)
Definition re_assignment : regex :=
  seqs [Bol; Star (Class space); Plus (Class (union word (chr ".")));
        Star (Class space); Class (oneOf "=:"); Star (Class space)].
(** [/{\s*[\s\S]*\s*}/] *)
Definition re_braces : regex :=
  seqs [Class (chr "{"); Star (Class space); Star (Class any);
        Star (Class space); Class (chr "}")].
(** [/^\s*\/\/.*|^\s*\/\*.*\*\/|^\s*#.*/] *)
Definition re_comments : regex :=
  alts [seqs [Bol; Star (Class space); str "//"; Star (Class dot)];
        seqs [Bol; Star (Class space); str "/*"; Star (Class dot); str "*/"];
        seqs [Bol; Star (Class space); Class (chr "#"); Star (Class dot)]].
(** [/;\s*$/] *)
Definition re_terminator : regex := seqs [Class (chr ";"); Star (Class space); Eol].
(** [/^\s*(public|private|protected|static)\s+/] *)
Definition re_access : regex :=
  seqs [Bol; Star (Class space); words "public|private|protected|static";
        Plus (Class space)].
(** [/\.(js|ts|py|java|cpp|cs|php|rb|go|rs)[:.]/] *)
Definition re_file_ext : regex :=
  seqs [Class (chr "."); words "js|ts|py|java|cpp|cs|php|rb|go|rs";
        Class (oneOf ":.")].

Definition codeIndicators : list (regex * list N) :=
  [ (re_js_keywords, JS.lit "JavaScript keywords");
    (re_py_keywords, JS.lit "Python keywords");
    (re_assignment, JS.lit "Assignment pattern");
    (re_braces, JS.lit "Code block braces");
    (re_comments, JS.lit "Code comments");
    (re_terminator, JS.lit "Statement terminator");
    (re_access, JS.lit "Access modifiers");
    (re_file_ext, JS.lit "File extension in content") ].

(** [/^https?:\/\/[^\s/$.?#].[^\s]*$/] *)
Definition re_url : regex :=
  seqs [Bol; str "http"; Opt (Class (chr "s")); str "://";
        Class (compl (union space (oneOf "/$.?#"))); Class dot;
        Star (Class (compl space)); Eol].
(** [/^[a-zA-Z0-9._%+-]+@[a-zA-Z0-9.-]+\.[a-zA-Z]{2,}$/] *)
Definition re_email : regex :=
  seqs [Bol; Plus (Class (union alnum (oneOf "._%+-"))); Class (chr "@");
        Plus (Class (union alnum (oneOf ".-"))); Class (chr ".");
        RepMin 2 (Class (union lower upper)); Eol].
(** [/^data:image\/(png|jpeg|jpg|gif|webp|svg\+xml);base64,/] *)
Definition re_data_uri : regex :=
  seqs [Bol; str "data:image/"; words "png|jpeg|jpg|gif|webp|svg+xml";
        str ";base64,"].
(** [/^iVBORw0KGgoAAAANSUhEUgAA/], [/^\/9j\//] and [/^R0lGODlh/] *)
Definition re_png : regex := seqs [Bol; str "iVBORw0KGgoAAAANSUhEUgAA"].
Definition re_jpeg : regex := seqs [Bol; str "/9j/"].
Definition re_gif : regex := seqs [Bol; str "R0lGODlh"].
(** [/^#([A-Fa-f0-9]{6}|[A-Fa-f0-9]{3})$/] *)
Definition hexdigit : N → bool := union (range "A" "F") (union (range "a" "f") digit).
Definition re_color : regex :=
  seqs [Bol; Class (chr "#"); Alt (Rep 6 (Class hexdigit)) (Rep 3 (Class hexdigit)); Eol].
(** [/[A-Z]/], [/[a-z]/], [/\d/] and the symbol class
    [! @ # $ % ^ & * ( ) , . ? : { } | < >] with the double quote (34). *)
Definition re_upper : regex := Class upper.
Definition re_lower : regex := Class lower.
Definition re_digit : regex := Class digit.
Definition re_symbol : regex :=
  Class (union (N.eqb 34) (oneOf "!@#$%^&*(),.?:{}|<>")).

(** The [forEach] over [codeIndicators]: the score and the descriptions
    pushed onto [patterns]. *)
Definition scan (trimmed : list N) (st : Z * list (list N))
    (indicator : regex * list N) : Z * list (list N) :=
  if test indicator.1 trimmed then (st.1 + 15, st.2 ++ [indicator.2]) else st.

Definition codeScan (trimmed : list N) (patterns : list (list N)) : Z * list (list N) :=
  foldl (scan trimmed) (0, patterns) codeIndicators.

Definition codeScore (trimmed : list N) : Z := (codeScan trimmed []).1.

Definition bracketBounded (trimmed : list N) : bool :=
  (JS.startsWith trimmed (JS.lit "{") && JS.endsWith trimmed (JS.lit "}"))
  || (JS.startsWith trimmed (JS.lit "[") && JS.endsWith trimmed (JS.lit "]")).

Definition passwordShape (trimmed : list N) : bool :=
  test re_upper trimmed && test re_lower trimmed && test re_digit trimmed
  && test re_symbol trimmed.

(** The fixed enumeration of content types. *)
Definition contentTypes : list (list N) :=
  map JS.lit ["api-key"; "code"; "json"; "url"; "email"; "image"; "color";
              "password"; "text"]%string.

Section WithEntropy.

(** The outcome of the floating-point comparison [calculateEntropy(s) > 3.5]. *)
Variable entropyHigh : list N → bool.

(** The rules after the JSON attempt. *)
Definition afterJson (trimmed : list N) : ContentTypeResult.t :=
  if test re_url trimmed then
    ContentTypeResult.mk (JS.lit "url") 95 [JS.lit "HTTP/HTTPS URL format"]
  else if test re_email trimmed then
    ContentTypeResult.mk (JS.lit "email") 95 [JS.lit "Email format"]
  else if test re_data_uri trimmed then
    ContentTypeResult.mk (JS.lit "image") 95 [JS.lit "Data URI image format"]
  else if test re_png trimmed || test re_jpeg trimmed || test re_gif trimmed then
    ContentTypeResult.mk (JS.lit "image") 90
      [JS.lit "Base64 image signature (PNG/JPEG/GIF)"]
  else if test re_color trimmed then
    ContentTypeResult.mk (JS.lit "color") 95 [JS.lit "Hex color code"]
  else if entropyHigh trimmed && (8 <=? JS.length trimmed)
          && (JS.length trimmed <=? 128) && passwordShape trimmed then
    ContentTypeResult.mk (JS.lit "password") 70
      [JS.lit "High entropy with mixed character types"]
  else
    ContentTypeResult.mk (JS.lit "text") 60 [JS.lit "No specific patterns detected"].

Definition analyzeContentType (content : list N) : ContentTypeResult.t :=
  let trimmed := JS.trim content in
  if test re_openai trimmed then
    ContentTypeResult.mk (JS.lit "api-key") 95 [JS.lit "OpenAI API key format"]
  else if test re_stripe_pk trimmed || test re_stripe_sk trimmed then
    ContentTypeResult.mk (JS.lit "api-key") 95 [JS.lit "Stripe API key format"]
  else if test re_github trimmed then
    ContentTypeResult.mk (JS.lit "api-key") 95 [JS.lit "GitHub personal access token"]
  else
    let patterns :=
      if test re_base64 trimmed && (40 <? JS.length trimmed)
      then [JS.lit "Base64 pattern (possible token)"] else [] in
    let '(score, patterns) := codeScan trimmed patterns in
    if 30 <=? score then
      ContentTypeResult.mk (JS.lit "code") (Z.min 95 score) patterns
    else if bracketBounded trimmed && Json.parses trimmed then
      ContentTypeResult.mk (JS.lit "json") 90 [JS.lit "Valid JSON structure"]
    else afterJson trimmed.

End WithEntropy.


(** *** The patterns of [detectSourcePlatform] *)

(** [/\.(ts|js|py|java|cpp|cs|php|rb|go|rs|tsx|jsx)/] *)
Definition re_source_ext : regex :=
  seqs [Class (chr "."); words "ts|js|py|java|cpp|cs|php|rb|go|rs|tsx|jsx"].
(** [/^\s*⏺\s*Write\(.*\.(ts|js|py|java)/], the bullet being U+23FA *)
Definition re_file_operation : regex :=
  seqs [Bol; Star (Class space); Class (N.eqb 9210); Star (Class space);
        str "Write("; Star (Class dot); Class (chr "."); words "ts|js|py|java"].
(** [/^\s*\/\/.*TODO|^\s*\/\/.*FIXME|^\s*#.*TODO/] *)
Definition re_todo : regex :=
  alts [seqs [Bol; Star (Class space); str "//"; Star (Class dot); str "TODO"];
        seqs [Bol; Star (Class space); str "//"; Star (Class dot); str "FIXME"];
        seqs [Bol; Star (Class space); Class (chr "#"); Star (Class dot); str "TODO"]].
(** [/^\$ /] and [/^> /] *)
Definition re_prompt_dollar : regex := seqs [Bol; str "$ "].
Definition re_prompt_angle : regex := seqs [Bol; str "> "].
(** [/\x1b\[[0-9;]*m/] *)
Definition re_ansi : regex :=
  seqs [Class (N.eqb 27); Class (chr "["); Star (Class (union digit (chr ";")));
        Class (chr "m")].
(** [/<[a-z][\s\S]*>/i]: with the [i] flag the class also matches [A-Z]. *)
Definition re_html : regex :=
  seqs [Class (chr "<"); Class (union lower upper); Star (Class any); Class (chr ">")].
(** [/^.{1,280}$/] *)
Definition re_short : regex := seqs [Bol; Class dot; RepMax 279 (Class dot); Eol].
(** [/^\/[a-zA-Z0-9_\-/.]+$/] *)
Definition re_unix_path : regex :=
  seqs [Bol; Class (chr "/"); Plus (Class (union alnum (oneOf "_-/."))); Eol].
(** [/^[A-Z]:\\[a-zA-Z0-9_\-\\]+$/] *)
Definition re_windows_path : regex :=
  seqs [Bol; Class upper; str ":\"; Plus (Class (union alnum (oneOf "_-\"))); Eol].

(** [trimmed.includes(w)] *)
Definition has (trimmed : list N) (w : string) : bool := JS.includes trimmed (JS.lit w).

(** [if (cond) indicators.push(desc)] *)
Definition pushIf (cond : bool) (desc : string) (indicators : list (list N)) :
    list (list N) :=
  if cond then indicators ++ [JS.lit desc] else indicators.

Definition detectSourcePlatform (content : list N) : SourcePlatformResult.t :=
  let trimmed := JS.trim content in
  let indicators : list (list N) := [] in
  if has trimmed "Write(" && test re_source_ext trimmed then
    SourcePlatformResult.mk (JS.lit "VS Code") 85 [JS.lit "VS Code Write command pattern"]
  else if test re_file_operation trimmed then
    SourcePlatformResult.mk (JS.lit "VS Code") 90 [JS.lit "VS Code file operation"]
  else
  let indicators :=
    pushIf (has trimmed "src/" || has trimmed "lib/" || has trimmed "components/")
      "Project structure paths" indicators in
  let indicators :=
    pushIf (test re_todo trimmed) "Code comments with TODO/FIXME" indicators in
  if test re_prompt_dollar trimmed || test re_prompt_angle trimmed then
    SourcePlatformResult.mk (JS.lit "Terminal") 80 [JS.lit "Command prompt prefix"]
  else if test re_ansi trimmed then
    SourcePlatformResult.mk (JS.lit "Terminal") 85 [JS.lit "ANSI color codes"]
  else
  let indicators := pushIf (has trimmed "Error:" && has trimmed "at ") "Stack trace format" indicators in
  let indicators := pushIf (has trimmed "http://" || has trimmed "https://") "Contains URLs" indicators in
  if test re_html trimmed then
    SourcePlatformResult.mk (JS.lit "Browser") 75 [JS.lit "HTML tags"]
  else
  let indicators :=
    pushIf (has trimmed "window." || has trimmed "document.") "Browser DOM references" indicators in
  let indicators :=
    pushIf (has trimmed "@" && (JS.length trimmed <? 280) && negb (has trimmed ".com"))
      "Mention pattern (possible social media)" indicators in
  let indicators :=
    pushIf (test re_short trimmed && has trimmed "#") "Short text with hashtags" indicators in
  if test re_unix_path (JS.firstLine trimmed) then
    SourcePlatformResult.mk (JS.lit "File Explorer") 70 [JS.lit "Unix file path"]
  else if test re_windows_path (JS.firstLine trimmed) then
    SourcePlatformResult.mk (JS.lit "File Explorer") 70 [JS.lit "Windows file path"]
  else
  let indicators := pushIf (has trimmed "# " || has trimmed "## ") "Markdown headers" indicators in
  if has trimmed "- [ ]" || has trimmed "- [x]" then
    SourcePlatformResult.mk (JS.lit "Notes App") 75 [JS.lit "Markdown checkboxes"]
  else if (0 <? Z.of_nat (List.length indicators))
          && existsb (fun i => JS.includes i (JS.lit "Code")
                               || JS.includes i (JS.lit "Project")) indicators then
    SourcePlatformResult.mk (JS.lit "VS Code") 70 indicators
  else
    SourcePlatformResult.mk (JS.lit "Unknown") 20 indicators.

(** *** [enhancedDetection] *)

(** The process labels of the clipboard manager itself (main.ts: the
    tracker and the poller skip [Electron] and [ClipFlow]). *)
Definition ownProcessLabels : list (list N) := [JS.lit "Electron"; JS.lit "ClipFlow"].

Section WithEntropy.

Variable entropyHigh : list N → bool.

Definition enhancedDetection (content detectedApp : list N) : DetectionResult.t :=
  let contentAnalysis := analyzeContentType entropyHigh content in
  let platformAnalysis := detectSourcePlatform content in
  let percent (c : Z) := JS.ofZ c ++ JS.lit "% confidence)" in
  let '(finalApp, confidence, reasoning) :=
    if 70 <? SourcePlatformResult.confidence platformAnalysis then
      (SourcePlatformResult.platform platformAnalysis,
       SourcePlatformResult.confidence platformAnalysis,
       [JS.lit "Content analysis suggests "
          ++ SourcePlatformResult.platform platformAnalysis ++ JS.lit " ("
          ++ percent (SourcePlatformResult.confidence platformAnalysis)]
         ++ SourcePlatformResult.indicators platformAnalysis)
    else if negb (JS.eqb detectedApp []) && negb (JS.eqb detectedApp (JS.lit "System"))
            && negb (JS.eqb detectedApp (JS.lit "Finder")) then
      (detectedApp, 60, [JS.lit "Using detected app: " ++ detectedApp])
    else
      (SourcePlatformResult.platform platformAnalysis,
       Z.max 30 (SourcePlatformResult.confidence platformAnalysis),
       [JS.lit "Fallback to content analysis: "
          ++ SourcePlatformResult.platform platformAnalysis]) in
  let reasoning :=
    reasoning
      ++ [JS.lit "Content type: " ++ ContentTypeResult.type contentAnalysis
            ++ JS.lit " (" ++ percent (ContentTypeResult.confidence contentAnalysis)]
      ++ ContentTypeResult.patterns contentAnalysis in
  DetectionResult.mk (ContentTypeResult.type contentAnalysis) finalApp confidence
    reasoning.

End WithEntropy.

End Analyzer.


(** ** electron/main.ts: the clipboard poller *)

Module ClipboardData.
Record t : Type :=
  mk { content : list N; timestamp : Z; type : list N; source : list N;
       confidence : Z; reasoning : list (list N) }.
End ClipboardData.

Module Poller.

(** The module-level variables read and written by the poller. *)
Record State : Type :=
  mkState { lastClipboardContent : list N; lastClipboardHash : list N;
            lastProcessedTime : Z; isInternalCopy : bool;
            lastActiveApp : list N }.

Definition initial : State := mkState [] [] 0 false (JS.lit "System").

(** A run of the callback is taken as one step: what other callbacks do
    while it awaits [getActiveApplication()] is not modelled.

    What one run of the interval callback reads from its environment:
    [clipboard.readText()], the data URL of [clipboard.readImage()] ([None]
    for an empty image), the two readings of [Date.now()], the outcome of
    [getActiveApplication()] ([None] when it rejects) and whether the
    overlay window exists and is not destroyed. *)
Record Tick : Type :=
  mkTick { readText : list N; readImage : option (list N); now : Z;
           activeApplication : option (list N); overlayOpen : bool;
           sendTime : Z }.

(** [currentContent] after the image fallback; [None] is the early return. *)
Definition currentContent (i : Tick) : option (list N) :=
  match readText i with
  | [] => readImage i
  | _ :: _ => Some (readText i)
  end.

(** [content.length + content.substring(0, 50)
     + content.substring(content.length - 50)] *)
Definition contentHash (c : list N) : list N :=
  JS.ofZ (JS.length c) ++ JS.substring c 0 50
    ++ JS.substringFrom c (JS.length c - 50).

(** The condition guarding the processing of a changed content. *)
Definition passesGuard (st : State) (i : Tick) (c : list N) : bool :=
  negb (JS.eqb (contentHash c) (lastClipboardHash st))
  && negb (JS.eqb (JS.trim c) (JS.trim (lastClipboardContent st)))
  && (500 <? now i - lastProcessedTime st).

Definition isOwnProcess (app : list N) : bool :=
  JS.eqb app (JS.lit "Electron") || JS.eqb app (JS.lit "ClipFlow").

Definition detectedApp (st : State) (i : Tick) : list N :=
  match activeApplication i with
  | Some realTimeApp =>
      if negb (JS.eqb realTimeApp []) && negb (isOwnProcess realTimeApp)
      then realTimeApp
      else JS.or (lastActiveApp st) (JS.lit "System")
  | None => JS.or (lastActiveApp st) (JS.lit "System")
  end.

Section WithEntropy.

Variable entropyHigh : list N → bool.

(** One run of the interval callback of [startClipboardMonitoring]: the new
    state and the [clipboard-changed] message sent to the overlay, if any. *)
Definition tick (st : State) (i : Tick) : State * option ClipboardData.t :=
  match currentContent i with
  | None => (st, None)
  | Some c =>
      if JS.eqb c (lastClipboardContent st) then (st, None)
      else if passesGuard st i c then
        if isInternalCopy st then
          (mkState c (lastClipboardHash st) (lastProcessedTime st)
             (isInternalCopy st) (lastActiveApp st), None)
        else
          let analysis := Analyzer.enhancedDetection entropyHigh c (detectedApp st i) in
          (mkState c (contentHash c) (now i) (isInternalCopy st) (lastActiveApp st),
           if overlayOpen i then
             Some (ClipboardData.mk c (sendTime i)
                     (DetectionResult.contentType analysis)
                     (DetectionResult.sourceApp analysis)
                     (DetectionResult.confidence analysis)
                     (DetectionResult.reasoning analysis))
           else None)
      else (st, None)
  end.

End WithEntropy.

(** The [set-clipboard-text] handler arms the flag; its one-second timer
    clears it. *)
Definition setClipboardText (st : State) : State :=
  mkState (lastClipboardContent st) (lastClipboardHash st) (lastProcessedTime st)
    true (lastActiveApp st).

Definition internalCopyTimeout (st : State) : State :=
  mkState (lastClipboardContent st) (lastClipboardHash st) (lastProcessedTime st)
    false (lastActiveApp st).

End Poller.


(** ** The [DatabaseService] class *)

Module Database.

Record Metadata : Type :=
  mkMetadata { appName : option (list N); windowTitle : option (list N);
               url : option (list N) }.

(** [interface ClipboardItem]; an optional field is an [option]. *)
Record ClipboardItem : Type :=
  mkItem { id : list N; content : list N; type : list N; timestamp : Z;
           source : option (list N); category : option (list N);
           categories : option (list (list N)); isPinned : option bool;
           metadata : option Metadata }.

(** [interface Settings], the two fields read by the retention code. *)
Record Settings : Type := mkSettings { maxItems : Z; autoDeleteDays : Z }.

Definition defaultSettings : Settings := mkSettings 500 30.

(** The open IndexedDB database: the object store [clipboardItems], keyed
    by the key path [id], and the record [main] of the store [settings]. *)
Record Idb : Type :=
  mkIdb { clipboardItems : gmap (list N) ClipboardItem;
          settings : option Settings }.

(** The service: [this.db] ([None] after a failed [init]) and the
    localStorage entry [clipflow-clipboardItems] of the fallback, whose
    reads and writes are taken to succeed. *)
Record DatabaseService : Type :=
  mkService { db : option Idb; localItems : list ClipboardItem }.

(** A method call returns normally or throws; either way it leaves a state. *)
Inductive Result (A : Type) : Type :=
  | Ok (a : A)
  | Throw (msg : string).
Arguments Ok {A} a.
Arguments Throw {A} msg.

Definition M (A : Type) : Type := DatabaseService → Result A * DatabaseService.

Definition ret {A : Type} (a : A) : M A := fun s => (Ok a, s).
Definition throw {A : Type} (msg : string) : M A := fun s => (Throw msg, s).
Definition bind {A B : Type} (m : M A) (f : A → M B) : M B :=
  fun s =>
    match m s with
    | (Ok a, s') => f a s'
    | (Throw msg, s') => (Throw msg, s')
    end.

Notation "'let*' x ':=' m 'in' k" := (bind m (fun x => k))
  (at level 10, x name, m at level 100, k at level 200).
Notation "m ';;' k" := (bind m (fun _ => k))
  (at level 100, k at level 200, right associativity).

(** [for (const x of xs) await f(x)] *)
Fixpoint forEach {A : Type} (xs : list A) (f : A → M ()) : M () :=
  match xs with
  | [] => ret ()
  | x :: xs' => f x ;; forEach xs' f
  end.

Definition getDb : M (option Idb) := fun s => (Ok (db s), s).
Definition getFromLocalStorage : M (list ClipboardItem) :=
  fun s => (Ok (localItems s), s).
Definition saveToLocalStorage (items : list ClipboardItem) : M () :=
  fun s => (Ok (), mkService (db s) items).
Definition setDb (d : Idb) : M () :=
  fun s => (Ok (), mkService (Some d) (localItems s)).

(** Order of the list returned by [getClipboardItems]: the index
    [by-timestamp] lists the records by ascending timestamp, then ascending
    key; the stable [sort((a, b) => b.timestamp - a.timestamp)] turns this
    into descending timestamp, records of equal timestamp by ascending key. *)
Definition newerFirstb (a b : ClipboardItem) : bool :=
  (timestamp b <? timestamp a)
  || ((timestamp a =? timestamp b) && JS.leb (id a) (id b)).

Definition newerFirst (a b : ClipboardItem) : Prop := newerFirstb a b = true.

#[global] Instance newerFirst_dec a b : Decision (newerFirst a b).
Proof. unfold newerFirst. apply _. Defined.

Definition byRecency (m : gmap (list N) ClipboardItem) : list ClipboardItem :=
  merge_sort newerFirst (map_to_list m).*2.

Definition getClipboardItems (limit : nat) : M (list ClipboardItem) :=
  let* d := getDb in
  match d with
  | None =>
      let* items := getFromLocalStorage in
      ret (take limit items)
  | Some d => ret (take limit (byRecency (clipboardItems d)))
  end.

Definition hasContent (c : list N) (item : ClipboardItem) : bool :=
  JS.eqb (content item) c.

Definition findClipboardItemByContent (c : list N) : M (option ClipboardItem) :=
  let* d := getDb in
  match d with
  | None =>
      let* items := getFromLocalStorage in
      ret (List.find (hasContent c) items)
  | Some _ =>
      let* items := getClipboardItems 1000 in
      ret (List.find (hasContent c) items)
  end.

(** [items.findIndex(i => i.id === x)] *)
Fixpoint findIndex (x : list N) (items : list ClipboardItem) : option nat :=
  match items with
  | [] => None
  | i :: items' => if JS.eqb (id i) x then Some O else S <$> findIndex x items'
  end.

Definition updateClipboardItem (item : ClipboardItem) : M () :=
  let* d := getDb in
  match d with
  | None =>
      let* items := getFromLocalStorage in
      match findIndex (id item) items with
      | Some index => saveToLocalStorage (<[index := item]> items)
      | None => ret ()
      end
  | Some d =>
      setDb (mkIdb (<[id item := item]> (clipboardItems d)) (settings d))
  end.

Definition deleteClipboardItem (x : list N) : M () :=
  let* d := getDb in
  match d with
  | None =>
      let* items := getFromLocalStorage in
      saveToLocalStorage (filter (fun i => id i ≠ x) items)
  | Some d => setDb (mkIdb (delete x (clipboardItems d)) (settings d))
  end.

(** [this.db.add('clipboardItems', item)]: fails on a key in use. *)
Definition dbAdd (d : Idb) (item : ClipboardItem) : M () :=
  match clipboardItems d !! id item with
  | Some _ => throw "ConstraintError"
  | None => setDb (mkIdb (<[id item := item]> (clipboardItems d)) (settings d))
  end.

Definition getSettings : M Settings :=
  let* d := getDb in
  match d with
  | None => throw "Database not initialized"
  | Some d =>
      match settings d with
      | None =>
          setDb (mkIdb (clipboardItems d) (Some defaultSettings)) ;;
          ret defaultSettings
      | Some st => ret st
      end
  end.

Definition isProtectedItem (item : ClipboardItem) : bool :=
  match isPinned item with Some b => b | None => false end
  || match categories item with
     | Some cs => 0 <? Z.of_nat (List.length cs)
     | None => false
     end.

(** [xs.slice(start)] *)
Definition sliceFrom {A : Type} (start : Z) (xs : list A) : list A :=
  if start <? 0 then drop (Z.to_nat (Z.max (Z.of_nat (List.length xs) + start) 0)) xs
  else drop (Z.to_nat start) xs.

(** [now] is the reading of [Date.now()]. *)
Definition cleanupOldItems (now : Z) : M () :=
  let* d := getDb in
  match d with
  | None => throw "Database not initialized"
  | Some _ =>
      let* st := getSettings in
      let* items := getClipboardItems 1000 in
      (if maxItems st <? Z.of_nat (List.length items) then
         let deletableItems := List.filter (fun item => negb (isProtectedItem item)) items in
         let itemsToDelete := sliceFrom (maxItems st) deletableItems in
         forEach itemsToDelete (fun item => deleteClipboardItem (id item))
       else ret ()) ;;
      let cutoffDate := now - autoDeleteDays st * 24 * 60 * 60 * 1000 in
      let oldItems :=
        List.filter (fun item => (timestamp item <? cutoffDate)
                                 && negb (isProtectedItem item)) items in
      forEach oldItems (fun item => deleteClipboardItem (id item))
  end.

(** [a || b] on an optional string: [undefined] and the empty string are falsy. *)
Definition orElse (a b : option (list N)) : option (list N) :=
  match a with
  | Some (_ :: _) => a
  | _ => b
  end.

(** [{ ...existingItem, timestamp, source, type }] *)
Definition merged (existingItem item : ClipboardItem) : ClipboardItem :=
  mkItem (id existingItem) (content existingItem)
    (JS.or (type item) (type existingItem)) (timestamp item)
    (orElse (source item) (source existingItem))
    (category existingItem) (categories existingItem) (isPinned existingItem)
    (metadata existingItem).

Definition addClipboardItem (now : Z) (item : ClipboardItem) : M () :=
  let* existingItem := findClipboardItemByContent (content item) in
  match existingItem with
  | Some existingItem =>
      let updatedItem := merged existingItem item in
      let* d := getDb in
      match d with
      | None =>
          let* items := getFromLocalStorage in
          match findIndex (id existingItem) items with
          | Some index =>
              saveToLocalStorage (updatedItem :: delete index (<[index := updatedItem]> items))
          | None => ret ()
          end
      | Some _ => updateClipboardItem updatedItem
      end
  | None =>
      let* d := getDb in
      match d with
      | None =>
          let* items := getFromLocalStorage in
          saveToLocalStorage (take 100 (item :: items))
      | Some d =>
          dbAdd d item ;;
          cleanupOldItems now
      end
  end.

(** The store after a call, whether it returned or threw (the caller only
    logs the error). *)
Definition ingest (s : DatabaseService) (call : Z * ClipboardItem) : DatabaseService :=
  (addClipboardItem call.1 call.2 s).2.

Definition ingestAll (s : DatabaseService) (calls : list (Z * ClipboardItem)) :
    DatabaseService :=
  foldl ingest s calls.

Definition emptyDb : DatabaseService := mkService (Some (mkIdb ∅ None)) [].
Definition emptyFallback : DatabaseService := mkService None [].

(** The persisted clipboard items. *)
Definition stored (s : DatabaseService) : list ClipboardItem :=
  match db s with
  | Some d => (map_to_list (clipboardItems d)).*2
  | None => localItems s
  end.

(** *** Notions used in the statements *)

(** Every record of the object store sits under its own [id], the key path
    of the store. *)
Definition keyed (m : gmap (list N) ClipboardItem) : Prop :=
  ∀ k item, m !! k = Some item → id item = k.

Definition keyedStore (s : DatabaseService) : Prop :=
  match db s with
  | Some d => keyed (clipboardItems d)
  | None => True
  end.

(** The duplicate lookup sees the whole store: the object store holds no
    more records than the lookup loads. *)
Definition withinLookup (s : DatabaseService) : Prop :=
  match db s with
  | Some d => (size (clipboardItems d) ≤ 1000)%nat
  | None => True
  end.

(** The invariant of the fallback list: no identifier occurs twice. *)
Definition distinctIds (s : DatabaseService) : Prop :=
  match db s with
  | Some _ => True
  | None => NoDup (id <$> localItems s)
  end.

(** No two records of the object store have the same content. *)
Definition uniqueContent (m : gmap (list N) ClipboardItem) : Prop :=
  ∀ k1 k2 a b, m !! k1 = Some a → m !! k2 = Some b → content a = content b → k1 = k2.

(** The records loaded by [cleanupOldItems] and those its two passes delete. *)
Definition loaded (m : gmap (list N) ClipboardItem) : list ClipboardItem :=
  take 1000 (byRecency m).

Definition countPass (st : Settings) (items : list ClipboardItem) : list ClipboardItem :=
  if maxItems st <? Z.of_nat (List.length items)
  then sliceFrom (maxItems st) (List.filter (fun item => negb (isProtectedItem item)) items)
  else [].

Definition agePass (now : Z) (st : Settings) (items : list ClipboardItem) :
    list ClipboardItem :=
  List.filter (fun item => (timestamp item <? now - autoDeleteDays st * 24 * 60 * 60 * 1000)
                           && negb (isProtectedItem item)) items.

Definition deleteAll (xs : list ClipboardItem) (m : gmap (list N) ClipboardItem) :
    gmap (list N) ClipboardItem :=
  foldl (fun m x => delete (id x) m) m xs.

End Database.

(** ** Sample data for the scenarios *)

Module Scenario.
Import Database.

(** Item number [n]: its identifier is the one-character string of code
    [n], its content the letter [c] followed by that character, and it was
    captured at time [n]. *)
Definition item (pinned : option bool) (n : nat) : ClipboardItem :=
  mkItem [N.of_nat n] [99%N; N.of_nat n] (JS.lit "text")
    (Z.of_nat n) None None None pinned None.

Definition items (pinned : option bool) (k : nat) : list ClipboardItem :=
  item pinned <$> seq 1 k.

(** The ingestion of the items 1 to [k], each call reading the clock [now]. *)
Definition ingestions (pinned : option bool) (k : nat) (now : Z) :
    list (Z * ClipboardItem) :=
  (fun x => (now, x)) <$> items pinned k.

(** A later copy of the content of item 1. *)
Definition recopy : ClipboardItem :=
  mkItem (JS.lit "again") [99%N; 1%N] (JS.lit "text") 2000 None None None None None.

(** The object store after the insertion of the given records. *)
Definition storeOf (xs : list ClipboardItem) : gmap (list N) ClipboardItem :=
  foldl (fun m x => <[id x := x]> m) ∅ xs.

End Scenario.


(** ** electron/main.ts: the callbacks of the main process *)

Module Main.
Import Poller.

(** The variables of the poller, [appHistory], and the number of one-second
    timers started by [set-clipboard-text] that have not fired yet. *)
Record State : Type :=
  mkMain { monitor : Poller.State; appHistory : list (list N * Z);
           internalCopyTimers : nat }.

Definition initial : State := mkMain Poller.initial [] 0.

(** [lastActiveApp = app] *)
Definition setLastActiveApp (app : list N) (st : Poller.State) : Poller.State :=
  mkState (lastClipboardContent st) (lastClipboardHash st) (lastProcessedTime st)
    (isInternalCopy st) app.

(** The callbacks, each with what it reads from its environment: the
    outcome of [getActiveApplication()] ([None] when it rejects), the clock,
    and whether the overlay window is visible. *)
Inductive Event : Type :=
  | ClipboardInterval (i : Tick)
  | TrackingInterval (currentApp : option (list N)) (now : Z)
  | GlobalShortcut (overlayVisible : bool) (preOverlayApp : option (list N))
  | SetClipboardText
  | InternalCopyTimeout.

(** The interval callback of [startActiveAppTracking]. *)
Definition trackActiveApp (st : State) (currentApp : option (list N)) (now : Z) : State :=
  match currentApp with
  | None => st
  | Some currentApp =>
      if negb (isOwnProcess currentApp) then
        let history := appHistory st ++ [(currentApp, now)] in
        let history :=
          if (10 <? List.length history)%nat then drop 1 history else history in
        let monitor' :=
          if negb (JS.eqb currentApp (lastActiveApp (monitor st)))
          then setLastActiveApp currentApp (monitor st) else monitor st in
        mkMain monitor' history (internalCopyTimers st)
      else st
  end.

(** The handler of the global shortcut registered first. *)
Definition globalShortcut (st : State) (overlayVisible : bool)
    (preOverlayApp : option (list N)) : State :=
  if overlayVisible then st
  else
    match preOverlayApp with
    | Some app =>
        if negb (JS.eqb app []) && negb (isOwnProcess app)
        then mkMain (setLastActiveApp app (monitor st)) (appHistory st)
               (internalCopyTimers st)
        else st
    | None => st
    end.

(** The [set-clipboard-text] handler and the timer it starts. *)
Definition setClipboardText (st : State) : State :=
  mkMain (Poller.setClipboardText (monitor st)) (appHistory st)
    (S (internalCopyTimers st)).

Definition internalCopyTimeout (st : State) : State :=
  match internalCopyTimers st with
  | O => st
  | S n => mkMain (Poller.internalCopyTimeout (monitor st)) (appHistory st) n
  end.

Section WithEntropy.

Variable entropyHigh : list N → bool.

(** One callback: the new state and the message sent to the overlay, with
    the run of the poller that sent it.  A run of the poller is one step
    here: these are the executions in which the query of a run returns
    before the next callback; [Interleaved] below has the others. *)
Definition step (st : State) (e : Event) : State * option (Tick * ClipboardData.t) :=
  match e with
  | ClipboardInterval i =>
      let r := tick entropyHigh (monitor st) i in
      (mkMain r.1 (appHistory st) (internalCopyTimers st),
       (fun d => (i, d)) <$> r.2)
  | TrackingInterval currentApp now => (trackActiveApp st currentApp now, None)
  | GlobalShortcut overlayVisible preOverlayApp =>
      (globalShortcut st overlayVisible preOverlayApp, None)
  | SetClipboardText => (setClipboardText st, None)
  | InternalCopyTimeout => (internalCopyTimeout st, None)
  end.

(** A sequence of callbacks: the final state and the messages sent, oldest
    first. *)
Fixpoint run (st : State) (es : list Event) : State * list (Tick * ClipboardData.t) :=
  match es with
  | [] => (st, [])
  | e :: es' =>
      let r := step st e in
      let r' := run r.1 es' in
      (r'.1, match r.2 with Some d => d :: r'.2 | None => r'.2 end)
  end.

End WithEntropy.

End Main.


(** ** electron/main.ts: runs of the poller that overlap

    The interval callback of [startClipboardMonitoring] is asynchronous.
    It reads the clipboard and the clock, tests the guard on the variables
    as they are then and, unless the copy is an internal one, awaits
    [getActiveApplication()]; the interval is one second and the query may
    take longer, so that the next run can begin before this one goes on.
    When the query returns the run reads [lastActiveApp], writes the three
    variables of the guard and sends its message.  [Main.step] takes a run
    as one step; here it is two, and other callbacks come in between. *)

Module Interleaved.
Import Poller.

(** The process, and the runs that await their query, oldest first: the
    readings of each run and its [currentContent]. *)
Record State : Type :=
  mk { process : Main.State; awaiting : list (Tick * list N) }.

Definition initial : State := mk Main.initial [].

Inductive Event : Type :=
  | Begin (i : Tick)
  | Resume (k : nat)
  | TrackingInterval (currentApp : option (list N)) (now : Z)
  | GlobalShortcut (overlayVisible : bool) (preOverlayApp : option (list N))
  | SetClipboardText
  | InternalCopyTimeout.

(** [lastClipboardContent = currentContent] of the suppression branch. *)
Definition setLastClipboardContent (c : list N) (p : Main.State) : Main.State :=
  let m := Main.monitor p in
  Main.mkMain
    (mkState c (lastClipboardHash m) (lastProcessedTime m) (isInternalCopy m)
       (lastActiveApp m))
    (Main.appHistory p) (Main.internalCopyTimers p).

(** The callback up to its [await]; of the readings [i] it uses the
    clipboard and the first reading of the clock. *)
Definition begin (st : State) (i : Tick) : State :=
  let m := Main.monitor (process st) in
  match currentContent i with
  | None => st
  | Some c =>
      if JS.eqb c (lastClipboardContent m) then st
      else if passesGuard m i c then
        if isInternalCopy m
        then mk (setLastClipboardContent c (process st)) (awaiting st)
        else mk (process st) (awaiting st ++ [(i, c)])
      else st
  end.

Section WithEntropy.

Variable entropyHigh : list N → bool.

(** The rest of the callback, for the run at position [k] of [awaiting]. *)
Definition resume (st : State) (k : nat) : State * option (Tick * ClipboardData.t) :=
  match awaiting st !! k with
  | None => (st, None)
  | Some (i, c) =>
      let m := Main.monitor (process st) in
      let analysis := Analyzer.enhancedDetection entropyHigh c (detectedApp m i) in
      (mk (Main.mkMain
             (mkState c (contentHash c) (now i) (isInternalCopy m) (lastActiveApp m))
             (Main.appHistory (process st)) (Main.internalCopyTimers (process st)))
          (delete k (awaiting st)),
       if overlayOpen i then
         Some (i, ClipboardData.mk c (sendTime i)
                    (DetectionResult.contentType analysis)
                    (DetectionResult.sourceApp analysis)
                    (DetectionResult.confidence analysis)
                    (DetectionResult.reasoning analysis))
       else None)
  end.

Definition step (st : State) (e : Event) : State * option (Tick * ClipboardData.t) :=
  match e with
  | Begin i => (begin st i, None)
  | Resume k => resume st k
  | TrackingInterval currentApp now =>
      (mk (Main.trackActiveApp (process st) currentApp now) (awaiting st), None)
  | GlobalShortcut overlayVisible preOverlayApp =>
      (mk (Main.globalShortcut (process st) overlayVisible preOverlayApp)
         (awaiting st), None)
  | SetClipboardText => (mk (Main.setClipboardText (process st)) (awaiting st), None)
  | InternalCopyTimeout =>
      (mk (Main.internalCopyTimeout (process st)) (awaiting st), None)
  end.

Fixpoint run (st : State) (es : list Event) : State * list (Tick * ClipboardData.t) :=
  match es with
  | [] => (st, [])
  | e :: es' =>
      let r := step st e in
      let r' := run r.1 es' in
      (r'.1, match r.2 with Some d => d :: r'.2 | None => r'.2 end)
  end.

(** No run begins while another awaits its query. *)
Fixpoint serial (st : State) (es : list Event) : Prop :=
  match es with
  | [] => True
  | e :: es' =>
      match e with Begin _ => awaiting st = [] | _ => True end
      ∧ serial (step st e).1 es'
  end.

End WithEntropy.

End Interleaved.


(** ** The accuracy of [calculateEntropy] *)

Module Entropy.
Import Analyzer.

(** The real value of the sum of [calculateEntropy] exceeds [a/b]: with
    counts [c_i], [C = Σ c_i] and [n = len], for positive [a] and [b],
    [- Σ (c_i/n) log2 (c_i/n) > a/b] iff [n^(b C) > 2^(a n) * Π c_i^(b c_i)]. *)
Definition above (a b : Z) (s : list N) : bool :=
  let n := JS.length s in
  let counts := map snd (frequencies s) in
  let C := foldr Z.add 0 counts in
  let P := foldr (fun c acc => c ^ (b * c) * acc) 1 counts in
  2 ^ (a * n) * P <? n ^ (b * C).

(** A comparison [calculateEntropy(s) > 3.5] whose double is within 1/32
    of the real value, on the strings the password rule admits (at most
    128 code units, hence at most 128 terms in the sum).  The doubles of
    the source are far closer: each term is rounded a few times, to a
    relative error around 2^-52. *)
Definition rounded (entropyHigh : list N → bool) : Prop :=
  ∀ s, JS.length s ≤ 128 →
       (above 113 32 s = true → entropyHigh s = true)
       ∧ (entropyHigh s = true → above 111 32 s = true).

End Entropy.


(** ** Arrays *)

Module JSArray.

(** [Array.prototype.sort] is stable: under a comparator
    [(a, b) => key(a) - key(b)] the elements come out by ascending key and
    elements of equal key keep their order.  [le a b] is [key(a) <= key(b)]. *)
Fixpoint insertBy {A : Type} (le : A → A → bool) (x : A) (l : list A) : list A :=
  match l with
  | [] => [x]
  | y :: l' => if le x y then x :: l else y :: insertBy le x l'
  end.

Definition sort {A : Type} (le : A → A → bool) (l : list A) : list A :=
  foldr (insertBy le) [] l.

End JSArray.


(** ** The overlay panel: [handleSmartCleanup] and [handlePinItem] *)

Module OverlayPanel.
Import Database.

(** [!item.isPinned && (!item.categories || item.categories.length === 0)] *)
Definition deletable (item : ClipboardItem) : bool :=
  negb (match isPinned item with Some b => b | None => false end)
  && match categories item with
     | Some cs => Z.of_nat (List.length cs) =? 0
     | None => true
     end.

(** [Math.max(settings.maxItems - 20, settings.maxItems * 0.8)], times five.
    For an integer [maxItems] of magnitude below 2^50 the double
    [maxItems * 0.8] is the integer [4 maxItems / 5] when [maxItems] is a
    multiple of five and otherwise differs from the rational by less than
    the distance to the next integer, so the truncation below is the one of
    the exact value. *)
Definition targetCount5 (maxItems : Z) : Z :=
  Z.max (5 * (maxItems - 20)) (4 * maxItems).

(** [sortedDeletable.slice(0, Math.max(0, items.length - targetCount))] *)
Definition itemsToDelete (items : list ClipboardItem) (maxItems : Z) :
    list ClipboardItem :=
  let deletableItems := List.filter deletable items in
  let sortedDeletable :=
    JSArray.sort (fun a b => timestamp a <=? timestamp b) deletableItems in
  let count5 := Z.max 0 (5 * Z.of_nat (List.length items) - targetCount5 maxItems) in
  take (Z.to_nat (count5 / 5)) sortedDeletable.

(** [items] is the list shown by the panel, [maxItems] the limit of the
    settings dialog; the result is the list loaded by [refreshItems]. *)
Definition handleSmartCleanup (items : list ClipboardItem) (maxItems : Z) :
    M (list ClipboardItem) :=
  forEach (itemsToDelete items maxItems) (fun item => deleteClipboardItem (id item)) ;;
  getClipboardItems 1000.

(** [{ ...item, isPinned: !item.isPinned }] *)
Definition togglePinned (item : ClipboardItem) : ClipboardItem :=
  mkItem (id item) (content item) (type item) (timestamp item) (source item)
    (category item) (categories item)
    (Some (negb (match isPinned item with Some b => b | None => false end)))
    (metadata item).

Definition handlePinItem (item : ClipboardItem) : M (list ClipboardItem) :=
  updateClipboardItem (togglePinned item) ;;
  getClipboardItems 1000.

End OverlayPanel.


(** ** hooks/useClipboardStore.ts *)

Module ClipboardStore.
Import Database.

(** The item built by [handleClipboardChanged]: [now] is the reading of the
    clock in the identifier, [random] the digits of
    [Math.random().toString(36).substring(2, 11)]. *)
Definition newItem (now : Z) (random : list N) (data : ClipboardData.t) : ClipboardItem :=
  mkItem (JS.lit "clipboard-" ++ JS.ofZ now ++ JS.lit "-" ++ random)
    (ClipboardData.content data) (ClipboardData.type data)
    (ClipboardData.timestamp data)
    (Some (JS.or (ClipboardData.source data) (JS.lit "System")))
    None None None None.

(** The listener of [clipboard-changed]; [later] is the clock read by the
    eviction.  The result is the list loaded by the silent refresh. *)
Definition handleClipboardChanged (now : Z) (random : list N) (later : Z)
    (data : ClipboardData.t) : M (list ClipboardItem) :=
  addClipboardItem later (newItem now random data) ;;
  getClipboardItems 1000.

End ClipboardStore.


(** ** The clipboard card: [formatTimestamp] *)

Module ClipboardCard.

(** [Date.now()] and the [timestamp] of an item are time values: integers
    between 0 and 8.64e15, below 2^53.  On these the subtraction of the
    source is exact, and the floor of each double quotient is the quotient
    of the integers: the quotients by 60000 and by 3600000 are taken of
    differences below 3600000 and 86400000, and the quotient by 86400000
    is below 2^27, where the division is rounded by at most 2^-27, less
    than the distance [1/86400000] that a quotient which is not an integer
    keeps from the next integer.  A number below 1e21 is printed by its
    decimal digits.  Outside this range the model says nothing about the
    source. *)
Definition maxTime : Z := 8640000000000000.

Definition formatTimestamp (now timestamp : Z) : list N :=
  let diff := now - timestamp in
  if diff <? 60000 then JS.lit "Just now"
  else if diff <? 3600000 then JS.ofZ (diff / 60000) ++ JS.lit "m ago"
  else if diff <? 86400000 then JS.ofZ (diff / 3600000) ++ JS.lit "h ago"
  else JS.ofZ (diff / 86400000) ++ JS.lit "d ago".

End ClipboardCard.


(** ** The [LicensingService] class *)

Module Licensing.

(** A date of the licence file: [None] when the field is absent or the
    empty string, otherwise the time value of [new Date(field)], which is
    [None] for an invalid date. *)
Definition DateField : Type := option (option Z).

(** [new Date(field).getTime()], where [None] is NaN. *)
Definition getTime (field : DateField) : option Z :=
  match field with Some t => t | None => None end.

(** The object stored in the licence file; the fields are strings or absent. *)
Record Config : Type :=
  mkConfig { deviceId : option (list N); firstLaunchDate : DateField;
             version : option (list N); trialUsed : option bool;
             licenseKey : option (list N); licenseActivatedDate : DateField;
             lastValidation : DateField; expiryDate : option (list N) }.

(** [{}] *)
Definition emptyConfig : Config := mkConfig None None None None None None None None.

(** [interface LicenseInfo]; [trialDaysRemaining] is [None] for NaN, a date
    is [None] for [null] or [undefined]. *)
Record LicenseInfo : Type :=
  mkInfo { isValid : bool; isTrialActive : bool; trialDaysRemaining : option Z;
           infoLicenseKey : option (list N); infoDeviceId : list N;
           infoFirstLaunchDate : option (option Z);
           infoLicenseActivatedDate : option (option Z) }.

(** The answer of the licence server as read by the service:
    [validation.valid] and [validation.expiryDate]. *)
Record Validation : Type :=
  mkValidation { valid : bool; validationExpiryDate : option (list N) }.

(** What [loadConfig] reads back for a string that [saveConfig] wrote.
    [saveConfig] reverses the JSON text by code units, encodes it as UTF-8
    and then as base64; [loadConfig] undoes the three steps and parses the
    text.  [JSON.stringify] writes a lone surrogate as an escape of six
    ASCII characters and a surrogate pair as it is; in the reversed text
    the low half of a pair comes first, so that of a run of adjacent pairs
    the first and the last code unit stand alone and are encoded as U+FFFD,
    while each low half inside the run, followed by the high half of the
    next pair, forms a pair again and survives.  Every other code unit is
    read back as written. *)
Definition replacement : N := 65533.

Definition isPair (cp : list N) : bool :=
  match cp with [_; _] => true | _ => false end.

Fixpoint readBackFrom (afterPair : bool) (cps : list (list N)) : list N :=
  match cps with
  | [] => []
  | [c; d] :: rest =>
      (if afterPair then c else replacement)
      :: (if match rest with cp :: _ => isPair cp | [] => false end
          then d else replacement)
      :: readBackFrom true rest
  | cp :: rest => cp ++ readBackFrom false rest
  end.

Definition readBack (s : list N) : list N :=
  readBackFrom false (JS.codePoints s).

(** The file after [saveConfig(config)], as [loadConfig] reads it.  A date
    is kept by its time value. *)
Definition saved (config : Config) : Config :=
  mkConfig (readBack <$> deviceId config) (firstLaunchDate config)
    (readBack <$> version config) (trialUsed config)
    (readBack <$> licenseKey config) (licenseActivatedDate config)
    (lastValidation config) (readBack <$> expiryDate config).

(** A string is truthy when it is present and not empty. *)
Definition truthy (s : option (list N)) : bool :=
  match s with Some (_ :: _) => true | _ => false end.

Definition day : Z := 1000 * 60 * 60 * 24.

Section Service.

(** [this.deviceId], [app.getVersion()] and [TRIAL_DAYS]. *)
Variable thisDeviceId : list N.
Variable appVersion : list N.
Definition TRIAL_DAYS : Z := 7.

(** The state is the content of the licence file as [loadConfig] reads it:
    [None] when the file is missing or unreadable.  Writing the file is
    taken to succeed.  The strings the service makes itself (the device
    identifier, a hexadecimal digest; the version of the application; the
    ISO dates) hold no surrogate and are read back as written; a string
    that comes from the user, the server or an earlier file is read back
    through [readBack]. *)
Definition initializeTrial (now : Z) : option Config :=
  Some (mkConfig (Some thisDeviceId) (Some (Some now)) (Some appVersion) (Some true)
          None None None None).

(** [activateLicense]; [validation] is the answer of [validateLicenseOnline]
    and [now] the clock. *)
Definition activateLicense (key : list N) (validation : Validation) (now : Z)
    (file : option Config) : bool * option Config :=
  if valid validation then
    let config := default emptyConfig file in
    let expiry :=
      if truthy (validationExpiryDate validation)
      then validationExpiryDate validation else expiryDate config in
    (true,
     Some (mkConfig (Some thisDeviceId) (firstLaunchDate config)
             (readBack <$> version config) (trialUsed config) (Some (readBack key))
             (Some (Some now)) (lastValidation config) (readBack <$> expiry)))
  else (false, file).

(** [getLicenseInfo]: [now] is the clock at the start of the call, [later]
    the clock when the file is written or the answer built, [validation]
    the answer of the server should the service ask. *)
Definition getLicenseInfo (now later : Z) (validation : Validation)
    (file : option Config) : LicenseInfo * option Config :=
  match file with
  | None =>
      (mkInfo true true (Some TRIAL_DAYS) None thisDeviceId (Some (Some later)) None,
       initializeTrial now)
  | Some config =>
      if truthy (licenseKey config) then
        let shouldRevalidate :=
          match lastValidation config with
          | None => true
          | Some None => false
          | Some (Some t) => 7 * 24 * 60 * 60 * 1000 <? now - t
          end in
        let first := firstLaunchDate config in
        let licensed (file' : option Config) :=
          (mkInfo true false (Some 0) (licenseKey config) thisDeviceId first
             (licenseActivatedDate config),
           file') in
        if shouldRevalidate then
          if valid validation then
            licensed
              (Some (saved (mkConfig (deviceId config) (firstLaunchDate config)
                              (version config) (trialUsed config)
                              (licenseKey config) (licenseActivatedDate config)
                              (Some (Some later)) (expiryDate config))))
          else
            (mkInfo false false (Some 0) None thisDeviceId first None, file)
        else licensed file
      else
        let firstLaunch := getTime (firstLaunchDate config) in
        let daysSinceLaunch := (fun t => (now - t) / day) <$> firstLaunch in
        let trialDaysRemaining :=
          (fun d => Z.max 0 (TRIAL_DAYS - d)) <$> daysSinceLaunch in
        if negb (bool_decide (deviceId config = Some thisDeviceId)) then
          (mkInfo false false (Some 0) None thisDeviceId (Some firstLaunch) None, file)
        else
          let positive :=
            match trialDaysRemaining with Some r => 0 <? r | None => false end in
          (mkInfo positive positive trialDaysRemaining None thisDeviceId
             (Some firstLaunch) None, file)
  end.

(** [shouldAllowUsage] *)
Definition shouldAllowUsage (now later : Z) (validation : Validation)
    (file : option Config) : bool * option Config :=
  let r := getLicenseInfo now later validation file in
  (isValid r.1, r.2).

End Service.

End Licensing.


(** ** license-server/index.js *)

Module LicenseServer.

(** An entry of [validLicenses]; [status] is absent from the entries made
    by [/api/generate]. *)
Record License : Type :=
  mkLicense { deviceLimit : Z; status : option (list N); expiryDate : list N;
              features : list (list N) }.

(** [validLicenses] and the map [licenses] of registered devices. *)
Record Server : Type :=
  mkServer { validLicenses : gmap (list N) License;
             licenses : gmap (list N) (list (list N)) }.

Definition initial : Server :=
  mkServer
    (<[JS.lit "CLIP-MONTHLY-DEMO-KEY" :=
         mkLicense 1 (Some (JS.lit "active")) (JS.lit "2025-01-22")
           [JS.lit "unlimited_storage"; JS.lit "smart_categorization"]]>
     (<[JS.lit "CLIP-YEARLY-DEMO-KEY1" :=
          mkLicense 1 (Some (JS.lit "active")) (JS.lit "2025-10-22")
            [JS.lit "unlimited_storage"; JS.lit "smart_categorization";
             JS.lit "priority_support"]]>
      (<[JS.lit "CLIP-TRIAL-EXPIRED-01" :=
           mkLicense 1 (Some (JS.lit "expired")) (JS.lit "2024-10-15")
             [JS.lit "basic"]]> ∅)))
    ∅.

(** The members every object inherits from [Object.prototype]: reading one
    of them from [validLicenses] gives a value that is truthy and has no
    [status]. *)
Definition inherited : list (list N) :=
  map JS.lit ["constructor"; "hasOwnProperty"; "isPrototypeOf";
              "propertyIsEnumerable"; "toLocaleString"; "toString"; "valueOf";
              "__proto__"; "__defineGetter__"; "__defineSetter__";
              "__lookupGetter__"; "__lookupSetter__"]%string.

(** [validLicenses[licenseKey]]: [None] for [undefined], [Some None] for an
    inherited member. *)
Definition licenseData (s : Server) (licenseKey : list N) : option (option License) :=
  match validLicenses s !! licenseKey with
  | Some l => Some (Some l)
  | None => if bool_decide (licenseKey ∈ inherited) then Some None else None
  end.

(** Two upper-case hexadecimal digits. *)
Definition hexDigit (n : N) : N := (if n <? 10 then 48 + n else 55 + n)%N.
Definition hexByte (b : byte) : list N :=
  [hexDigit (Byte.to_N b / 16); hexDigit (Byte.to_N b mod 16)].

(** [generateLicenseKey]; a segment is given by the two bytes of
    [crypto.randomBytes(2)]. *)
Definition segment (bytes : byte * byte) : list N :=
  hexByte bytes.1 ++ hexByte bytes.2.

Definition generateLicenseKey (s1 s2 s3 s4 : byte * byte) : list N :=
  JS.lit "CLIP-" ++ segment s1 ++ JS.lit "-" ++ segment s2 ++ JS.lit "-"
    ++ segment s3 ++ JS.lit "-" ++ segment s4.

Inductive Request : Type :=
  | Validate (licenseKey deviceId : list N) (now : Z)
  | Generate (adminKey : list N) (deviceLimit : Z) (s1 s2 s3 s4 : byte * byte)
      (expiry : list N)
  | Health.

Inductive Response : Type :=
  | Valid (deviceId : list N) (expiryDate : list N) (features : list (list N))
  | BadRequest (error : list N)
  | Unauthorized
  | Generated (licenseKey : list N) (expiryDate : list N)
  | HealthOk.

Section WithDates.

(** The time value of [new Date(s)], [None] for an invalid date. *)
Variable dateValue : list N → option Z.

(** [POST /api/validate]; the key and the device identifier are strings. *)
Definition validate (s : Server) (licenseKey deviceId : list N) (now : Z) :
    Response * Server :=
  match licenseData s licenseKey with
  | None => (BadRequest (JS.lit "Invalid license key"), s)
  | Some None => (BadRequest (JS.lit "Subscription is undefined"), s)
  | Some (Some l) =>
      if negb (bool_decide (status l = Some (JS.lit "active"))) then
        (BadRequest (JS.lit "Subscription is "
                       ++ default (JS.lit "undefined") (status l)), s)
      else if match dateValue (expiryDate l) with
              | Some t => t <? now
              | None => false
              end
      then (BadRequest (JS.lit "Subscription expired"), s)
      else
        let deviceKey := licenseKey ++ JS.lit ":devices" in
        let registeredDevices := default [] (licenses s !! deviceKey) in
        if bool_decide (deviceId ∈ registeredDevices) then
          (Valid deviceId (expiryDate l) (features l), s)
        else if deviceLimit l <=? Z.of_nat (List.length registeredDevices) then
          (BadRequest (JS.lit "Device limit reached"), s)
        else
          (Valid deviceId (expiryDate l) (features l),
           mkServer (validLicenses s)
             (<[deviceKey := registeredDevices ++ [deviceId]]> (licenses s)))
  end.

(** [POST /api/generate]; [expiry] is the date string computed from the
    clock and [expiryDays]. *)
Definition generate (s : Server) (adminKey : list N) (limit : Z)
    (s1 s2 s3 s4 : byte * byte) (expiry : list N) : Response * Server :=
  if negb (JS.eqb adminKey (JS.lit "your-secret-admin-key")) then (Unauthorized, s)
  else
    let licenseKey := generateLicenseKey s1 s2 s3 s4 in
    (Generated licenseKey expiry,
     mkServer
       (<[licenseKey := mkLicense limit None expiry [JS.lit "unlimited_storage"]]>
          (validLicenses s))
       (licenses s)).

Definition handle (s : Server) (r : Request) : Response * Server :=
  match r with
  | Validate licenseKey deviceId now => validate s licenseKey deviceId now
  | Generate adminKey limit s1 s2 s3 s4 expiry =>
      generate s adminKey limit s1 s2 s3 s4 expiry
  | Health => (HealthOk, s)
  end.

(** The server after a sequence of requests. *)
Definition serve (s : Server) (rs : list Request) : Server :=
  foldl (fun s r => (handle s r).2) s rs.

End WithDates.

End LicenseServer.


(** * Properties *)

(** ** Trimming *)

Lemma trimEnd_idemp (s : list N) : JS.trimEnd (JS.trimEnd s) = JS.trimEnd s.
Proof.
  induction s as [|c s IH]; [done|].
  simpl. destruct (JS.trimEnd s) as [|d t] eqn:E.
  - destruct (JS.is_space c) eqn:Ec; simpl; [done|]. by rewrite Ec.
  - change (JS.trimEnd (c :: d :: t)) with
      (match JS.trimEnd (d :: t) with
       | [] => if JS.is_space c then [] else [c]
       | t' => c :: t'
       end).
    by rewrite IH.
Qed.

Lemma trimStart_trimEnd (c : N) (s : list N) :
  JS.is_space c = false →
  JS.trimStart (JS.trimEnd (c :: s)) = JS.trimEnd (c :: s).
Proof.
  intros Hc. simpl. destruct (JS.trimEnd s); rewrite ?Hc; simpl; by rewrite Hc.
Qed.

Lemma trimStart_head (s : list N) :
  JS.trimStart s = [] ∨ ∃ c t, JS.trimStart s = c :: t ∧ JS.is_space c = false.
Proof.
  induction s as [|c s IH]; [by left|].
  simpl. destruct (JS.is_space c) eqn:Ec; [done|]. right. by exists c, s.
Qed.

Lemma trim_idemp (s : list N) : JS.trim (JS.trim s) = JS.trim s.
Proof.
  unfold JS.trim.
  destruct (trimStart_head s) as [->|(c & t & -> & Hc)]; [done|].
  by rewrite trimStart_trimEnd, trimEnd_idemp.
Qed.

Lemma trimStart_spaces_app (ws s : list N) :
  Forall (λ c, JS.is_space c = true) ws → JS.trimStart (ws ++ s) = JS.trimStart s.
Proof. induction 1 as [|c ws Hc _ IH]; [done|]. simpl. by rewrite Hc. Qed.

Lemma trimEnd_app_spaces (s ws : list N) :
  Forall (λ c, JS.is_space c = true) ws → JS.trimEnd (s ++ ws) = JS.trimEnd s.
Proof.
  intros Hws. induction s as [|c s IH]; simpl.
  - induction Hws as [|d ws Hd _ IH]; [done|]. simpl. by rewrite IH, Hd.
  - by rewrite IH.
Qed.

Lemma trim_surrounded (pre s post : list N) :
  Forall (λ c, JS.is_space c = true) pre →
  Forall (λ c, JS.is_space c = true) post →
  JS.trim (pre ++ s ++ post) = JS.trim s.
Proof.
  intros Hpre Hpost. unfold JS.trim. rewrite trimStart_spaces_app by done.
  induction s as [|c s IH]; simpl.
  - destruct (trimStart_head post) as [->|(d & t & E & Hd)]; [done|].
    exfalso. clear -Hpost E Hd.
    induction Hpost as [|x l Hx _ IH]; [done|]. simpl in E. rewrite Hx in E. auto.
  - destruct (JS.is_space c) eqn:Ec; [done|].
    by apply (trimEnd_app_spaces (c :: s)).
Qed.

(** ** Anchored patterns *)

Lemma search_Bol_inside (r : Regex.regex) (c : N) (s : list N) :
  Regex.search (Regex.Seq Regex.Bol r) (Some c) s = false.
Proof. revert c. induction s as [|d s IH]; intros c; simpl; [done|]. apply IH. Qed.

Lemma test_anchored (r : Regex.regex) (s : list N) :
  Regex.test (Regex.Seq Regex.Bol r) s = Regex.rmatch r None s (λ _ _, true).
Proof.
  unfold Regex.test. destruct s as [|c s]; simpl.
  - by rewrite orb_false_r.
  - by rewrite search_Bol_inside, orb_false_r.
Qed.

Lemma startsWith_char (s : list N) (c : N) :
  JS.startsWith s [c] = true → ∃ s', s = c :: s'.
Proof.
  destruct s as [|d s]; simpl; [done|].
  rewrite andb_true_r. intros ->%N.eqb_eq. by exists s.
Qed.

(** An anchored pattern whose first character cannot be an opening brace or
    bracket fails on bracket-bounded input. *)
Ltac anchored_fails :=
  intros [-> | ->]; cbv delta [Analyzer.re_openai Analyzer.re_stripe_pk
    Analyzer.re_stripe_sk Analyzer.re_github Analyzer.re_base64 Analyzer.re_url
    Analyzer.re_email Analyzer.re_data_uri Analyzer.re_png Analyzer.re_jpeg
    Analyzer.re_gif Analyzer.re_color];
  cbn [Regex.seqs]; rewrite test_anchored; vm_compute; reflexivity.

Section BracketBounded.
Import Regex Analyzer.
Variables (c : N) (s : list N).
Hypothesis Hc : (c = 123 ∨ c = 91)%N.

Lemma openai_bracket : test re_openai (c :: s) = false.
Proof. revert Hc. anchored_fails. Qed.
Lemma stripe_pk_bracket : test re_stripe_pk (c :: s) = false.
Proof. revert Hc. anchored_fails. Qed.
Lemma stripe_sk_bracket : test re_stripe_sk (c :: s) = false.
Proof. revert Hc. anchored_fails. Qed.
Lemma github_bracket : test re_github (c :: s) = false.
Proof. revert Hc. anchored_fails. Qed.
Lemma url_bracket : test re_url (c :: s) = false.
Proof. revert Hc. anchored_fails. Qed.
Lemma email_bracket : test re_email (c :: s) = false.
Proof. revert Hc. anchored_fails. Qed.
Lemma data_uri_bracket : test re_data_uri (c :: s) = false.
Proof. revert Hc. anchored_fails. Qed.
Lemma png_bracket : test re_png (c :: s) = false.
Proof. revert Hc. anchored_fails. Qed.
Lemma jpeg_bracket : test re_jpeg (c :: s) = false.
Proof. revert Hc. anchored_fails. Qed.
Lemma gif_bracket : test re_gif (c :: s) = false.
Proof. revert Hc. anchored_fails. Qed.
Lemma color_bracket : test re_color (c :: s) = false.
Proof. revert Hc. anchored_fails. Qed.

End BracketBounded.

Lemma bracketBounded_head (t : list N) :
  Analyzer.bracketBounded t = true → ∃ c s, t = c :: s ∧ (c = 123 ∨ c = 91)%N.
Proof.
  unfold Analyzer.bracketBounded.
  intros [[H _]%andb_true_iff | [H _]%andb_true_iff]%orb_true_iff.
  - apply (startsWith_char t 123) in H as [s ->]. exists 123%N, s. auto.
  - apply (startsWith_char t 91) in H as [s ->]. exists 91%N, s. auto.
Qed.

Lemma scan_score (t : list N) (inds : list (Regex.regex * list N))
    (sc : Z) (p1 p2 : list (list N)) :
  (foldl (Analyzer.scan t) (sc, p1) inds).1 = (foldl (Analyzer.scan t) (sc, p2) inds).1.
Proof.
  revert sc p1 p2. induction inds as [|i inds IH]; intros sc p1 p2; [done|].
  simpl. unfold Analyzer.scan at 2 4. simpl.
  destruct (Regex.test i.1 t); apply IH.
Qed.

Lemma codeScan_score (t : list N) (p : list (list N)) :
  (Analyzer.codeScan t p).1 = Analyzer.codeScore t.
Proof. apply scan_score. Qed.

Lemma scan_bounds (t : list N) (inds : list (Regex.regex * list N))
    (st : Z * list (list N)) :
  st.1 ≤ (foldl (Analyzer.scan t) st inds).1 ≤ st.1 + 15 * Z.of_nat (List.length inds).
Proof.
  revert st. induction inds as [|i inds IH]; intros st; simpl; [lia|].
  specialize (IH (Analyzer.scan t st i)).
  assert (st.1 ≤ (Analyzer.scan t st i).1 ≤ st.1 + 15).
  { unfold Analyzer.scan. destruct (Regex.test i.1 t); simpl; lia. }
  lia.
Qed.

Lemma codeScore_range (t : list N) : 0 ≤ Analyzer.codeScore t ≤ 120.
Proof. apply (scan_bounds t Analyzer.codeIndicators (0, [])). Qed.

(** ** The classifier *)

Section AnalyzerFacts.
Import Regex Analyzer.
Variable entropyHigh : list N → bool.

(** C10. Classification depends on the trimmed content only: classifying a
    content and classifying the content with its leading and trailing
    whitespace removed give the same type, confidence and patterns. *)
Theorem analyzeContentType_trim (content : list N) :
  analyzeContentType entropyHigh (JS.trim content)
  = analyzeContentType entropyHigh content.
Proof. unfold analyzeContentType. by rewrite trim_idemp. Qed.

Lemma analyzeContentType_surrounded (pre content post : list N) :
  Forall (λ c, JS.is_space c = true) pre →
  Forall (λ c, JS.is_space c = true) post →
  analyzeContentType entropyHigh (pre ++ content ++ post)
  = analyzeContentType entropyHigh content.
Proof.
  intros. unfold analyzeContentType. by rewrite trim_surrounded.
Qed.

Lemma afterJson_range (t : list N) :
  ContentTypeResult.type (afterJson entropyHigh t) ∈ contentTypes
  ∧ 0 ≤ ContentTypeResult.confidence (afterJson entropyHigh t) ≤ 100.
Proof.
  unfold afterJson.
  repeat match goal with
         | |- context [if ?b then _ else _] => destruct b
         end; (split; [apply list_elem_of_In; cbv; tauto | simpl; lia]).
Qed.

Lemma afterJson_bracket (t : list N) :
  bracketBounded t = true →
  afterJson entropyHigh t
  = if entropyHigh t && (8 <=? JS.length t) && (JS.length t <=? 128)
       && passwordShape t
    then ContentTypeResult.mk (JS.lit "password") 70
           [JS.lit "High entropy with mixed character types"]
    else ContentTypeResult.mk (JS.lit "text") 60
           [JS.lit "No specific patterns detected"].
Proof.
  intros (c & s & -> & Hc)%bracketBounded_head. unfold afterJson.
  by rewrite url_bracket, email_bracket, data_uri_bracket, png_bracket,
    jpeg_bracket, gif_bracket, color_bracket.
Qed.

(** C4. The classifier is a total function; its type is one of the nine
    of the enumeration and its confidence an integer of [0, 100].  When the
    trimmed content is bounded by braces or brackets, the code scan stays
    under 30 and [JSON.parse] throws, nothing escapes: classification goes
    on with the later rules, none of which but the entropy rule can match,
    and returns [password] with confidence 70 when that rule applies and
    [text] with confidence 60 otherwise. *)
Theorem analyzeContentType_total_range (content : list N) :
  let r := analyzeContentType entropyHigh content in
  let t := JS.trim content in
  ContentTypeResult.type r ∈ contentTypes
  ∧ 0 ≤ ContentTypeResult.confidence r ≤ 100
  ∧ (bracketBounded t = true → codeScore t < 30 → Json.parses t = false →
     r = if entropyHigh t && (8 <=? JS.length t) && (JS.length t <=? 128)
            && passwordShape t
         then ContentTypeResult.mk (JS.lit "password") 70
                [JS.lit "High entropy with mixed character types"]
         else ContentTypeResult.mk (JS.lit "text") 60
                [JS.lit "No specific patterns detected"]).
Proof.
  intros r t. subst r. fold t. unfold analyzeContentType. fold t.
  split; [|split].
  - destruct (test re_openai t); [apply list_elem_of_In; cbv; tauto|].
    destruct (_ || _); [apply list_elem_of_In; cbv; tauto|].
    destruct (test re_github t); [apply list_elem_of_In; cbv; tauto|].
    destruct (codeScan t _) as [score patterns].
    destruct (30 <=? score); [apply list_elem_of_In; cbv; tauto|].
    destruct (_ && _); [apply list_elem_of_In; cbv; tauto|].
    apply afterJson_range.
  - destruct (test re_openai t); [simpl; lia|].
    destruct (_ || _); [simpl; lia|].
    destruct (test re_github t); [simpl; lia|].
    destruct (codeScan t _) as [score patterns].
    destruct (30 <=? score) eqn:Hs; [simpl; lia|].
    destruct (_ && _); [simpl; lia|].
    apply afterJson_range.
  - intros Hb Hscore Hjson.
    destruct (bracketBounded_head t Hb) as (c & s & E & Hc).
    rewrite E, (openai_bracket c s Hc), (stripe_pk_bracket c s Hc),
      (stripe_sk_bracket c s Hc), (github_bracket c s Hc), <- E.
    cbn [orb].
    pose proof (codeScan_score t
      (if test re_base64 t && (40 <? JS.length t)
       then [JS.lit "Base64 pattern (possible token)"] else [])) as Hsc.
    destruct (codeScan t _) as [score patterns]. simpl in Hsc. subst score.
    destruct (30 <=? codeScore t) eqn:Hs; [lia|].
    rewrite Hb, Hjson. cbn [andb]. by apply afterJson_bracket.
Qed.

(** C9. The three classification scenarios: the URL, the hex colour and the
    JSON object are classified [url] 95, [color] 95 and [json] 90; each
    collects 15 points in the code scan, under the 30 that make [code]. *)
Theorem classification_scenarios :
  let url := JS.lit "https://example.com/path" in
  let color := JS.lit "#FF5733" in
  let json := JS.lit "{" ++ [34%N] ++ JS.lit "a" ++ [34%N] ++ JS.lit ":1}" in
  (ContentTypeResult.type (analyzeContentType entropyHigh url) = JS.lit "url"
   ∧ ContentTypeResult.confidence (analyzeContentType entropyHigh url) = 95
   ∧ codeScore (JS.trim url) < 30)
  ∧ (ContentTypeResult.type (analyzeContentType entropyHigh color) = JS.lit "color"
     ∧ ContentTypeResult.confidence (analyzeContentType entropyHigh color) = 95
     ∧ codeScore (JS.trim color) < 30)
  ∧ (ContentTypeResult.type (analyzeContentType entropyHigh json) = JS.lit "json"
     ∧ ContentTypeResult.confidence (analyzeContentType entropyHigh json) = 90
     ∧ codeScore (JS.trim json) < 30).
Proof. vm_compute. by repeat split. Qed.

(** C5. The decision policy of [enhancedDetection]: the heuristic's label
    and confidence when its confidence exceeds 70; otherwise the detected
    application with confidence 60 when it is non-empty and neither
    [System] nor [Finder]; otherwise the heuristic's label with confidence
    [max 30] of the heuristic's; the content type is the classifier's in
    every case. *)
Theorem enhancedDetection_policy (content detectedApp : list N) :
  let p := detectSourcePlatform content in
  let r := enhancedDetection entropyHigh content detectedApp in
  DetectionResult.contentType r
  = ContentTypeResult.type (analyzeContentType entropyHigh content)
  ∧ (70 < SourcePlatformResult.confidence p →
     DetectionResult.sourceApp r = SourcePlatformResult.platform p
     ∧ DetectionResult.confidence r = SourcePlatformResult.confidence p)
  ∧ (SourcePlatformResult.confidence p ≤ 70 →
     detectedApp ≠ [] → detectedApp ≠ JS.lit "System" →
     detectedApp ≠ JS.lit "Finder" →
     DetectionResult.sourceApp r = detectedApp
     ∧ DetectionResult.confidence r = 60)
  ∧ (SourcePlatformResult.confidence p ≤ 70 →
     detectedApp = [] ∨ detectedApp = JS.lit "System"
     ∨ detectedApp = JS.lit "Finder" →
     DetectionResult.sourceApp r = SourcePlatformResult.platform p
     ∧ DetectionResult.confidence r
       = Z.max 30 (SourcePlatformResult.confidence p)).
Proof.
  intros p r. subst r. unfold enhancedDetection. fold p.
  unfold JS.eqb.
  destruct (Z.ltb_spec 70 (SourcePlatformResult.confidence p)) as [Hp|Hp].
  { repeat split; simpl; intros; lia. }
  repeat case_bool_decide; simpl; repeat split; intros; try done; try lia;
    intuition congruence.
Qed.

End AnalyzerFacts.

(** The input of C4's scenario whose JSON parse fails: it is bounded by
    braces and scores 15 in the code scan, [JSON.parse] throws, and with 18
    distinct characters (entropy [log2 18], about 4.17) it is classified
    [password] with confidence 70, not [text] with confidence 60. *)
Lemma analyzeContentType_json_failure_password :
  let content := JS.lit "{Abcdefgh1jklmnop}" in
  Analyzer.bracketBounded (JS.trim content) = true
  ∧ Analyzer.codeScore (JS.trim content) = 15
  ∧ Json.parses (JS.trim content) = false
  ∧ Analyzer.analyzeContentType Analyzer.entropyAbove3_5 content
    = ContentTypeResult.mk (JS.lit "password") 70
        [JS.lit "High entropy with mixed character types"].
Proof. vm_compute. by repeat split. Qed.

Lemma analyzeContentType_total_range_witness :
  Analyzer.analyzeContentType Analyzer.entropyAbove3_5 (JS.lit " {a} ")
  = ContentTypeResult.mk (JS.lit "text") 60 [JS.lit "No specific patterns detected"].
Proof.
  destruct (analyzeContentType_total_range Analyzer.entropyAbove3_5 (JS.lit " {a} "))
    as (_ & _ & H).
  rewrite H; reflexivity.
Defined.

(** The labels that C5 names are not the ones the code compares with:
    [System], the default of a failed query, is neither a label of the
    manager's own process nor [Finder], yet it is not adopted; [Electron],
    the manager's own process, is adopted with confidence 60. *)
Lemma enhancedDetection_own_label_counterexample :
  let content := JS.lit "hello" in
  let p := Analyzer.detectSourcePlatform content in
  let r1 := Analyzer.enhancedDetection Analyzer.entropyAbove3_5 content (JS.lit "System") in
  let r2 := Analyzer.enhancedDetection Analyzer.entropyAbove3_5 content (JS.lit "Electron") in
  SourcePlatformResult.confidence p = 20
  ∧ (JS.lit "System" ∉ Analyzer.ownProcessLabels)
  ∧ (DetectionResult.sourceApp r1 = JS.lit "Unknown"
     ∧ DetectionResult.confidence r1 = 30)
  ∧ JS.lit "Electron" ∈ Analyzer.ownProcessLabels
  ∧ (DetectionResult.sourceApp r2 = JS.lit "Electron"
     ∧ DetectionResult.confidence r2 = 60).
Proof.
  repeat split; try (vm_compute; reflexivity).
  - intros H. apply list_elem_of_In in H. vm_compute in H.
    destruct H as [H|[H|[]]]; discriminate H.
  - apply list_elem_of_In. vm_compute. tauto.
Qed.

Lemma enhancedDetection_policy_witness :
  let r := Analyzer.enhancedDetection Analyzer.entropyAbove3_5
             (JS.lit "$ ls") (JS.lit "Chrome") in
  let r' := Analyzer.enhancedDetection Analyzer.entropyAbove3_5
              (JS.lit "hello") (JS.lit "Chrome") in
  let r'' := Analyzer.enhancedDetection Analyzer.entropyAbove3_5
               (JS.lit "hello") (JS.lit "Finder") in
  (DetectionResult.sourceApp r = JS.lit "Terminal" ∧ DetectionResult.confidence r = 80)
  ∧ (DetectionResult.sourceApp r' = JS.lit "Chrome" ∧ DetectionResult.confidence r' = 60)
  ∧ (DetectionResult.sourceApp r'' = JS.lit "Unknown" ∧ DetectionResult.confidence r'' = 30).
Proof.
  split; [|split].
  - destruct (enhancedDetection_policy Analyzer.entropyAbove3_5
                (JS.lit "$ ls") (JS.lit "Chrome")) as (_ & H & _).
    apply H. reflexivity.
  - destruct (enhancedDetection_policy Analyzer.entropyAbove3_5
                (JS.lit "hello") (JS.lit "Chrome")) as (_ & _ & H & _).
    apply H; [vm_compute; discriminate | discriminate..].
  - destruct (enhancedDetection_policy Analyzer.entropyAbove3_5
                (JS.lit "hello") (JS.lit "Finder")) as (_ & _ & _ & H).
    apply H; [vm_compute; discriminate | auto].
Defined.

(** ** Sample runs of the matcher and of the JSON recogniser *)

Example keyword_needs_boundaries :
  Regex.test Analyzer.re_js_keywords (JS.lit "if (x) y") = true
  ∧ Regex.test Analyzer.re_js_keywords (JS.lit "xif elsewhere") = false.
Proof. by vm_compute. Qed.

Example assignment_is_anchored :
  Regex.test Analyzer.re_assignment (JS.lit "  a.b : 1") = true
  ∧ Regex.test Analyzer.re_assignment (JS.lit "const x = 1") = false.
Proof. by vm_compute. Qed.

Example url_rejects_spaces :
  Regex.test Analyzer.re_url (JS.lit "http://a.b/c d") = false
  ∧ Regex.test Analyzer.re_url (JS.lit "http://ab") = true.
Proof. by vm_compute. Qed.

Example json_texts :
  Json.parses (JS.lit "[1, -2.5e+3, true, null, {}]") = true
  ∧ Json.parses (JS.lit "[1,]") = false
  ∧ Json.parses (JS.lit "{a:1}") = false
  ∧ Json.parses (JS.lit "[01]") = false
  ∧ Json.parses (JS.lit "[[[[]]]]") = true.
Proof. by vm_compute. Qed.

(** Sixteen code units with probabilities 1/8 and 1/16, entropy 3.5, and
    sixteen different ones, entropy 4: every term of the sum is a dyadic
    number, so the doubles of the source are the real values. *)
Example entropy_threshold :
  Analyzer.entropyAbove3_5 (JS.lit "aabbccddefghijkl") = false
  ∧ Analyzer.entropyAbove3_5 (JS.lit "abcdefghijklmnop") = true.
Proof. by vm_compute. Qed.


(** ** The poller *)

Section PollerFacts.
Import Poller.
Variable entropyHigh : list N → bool.

Lemma passesGuard_true (st : State) (i : Tick) (c : list N) :
  passesGuard st i c = true ↔
  contentHash c ≠ lastClipboardHash st
  ∧ JS.trim c ≠ JS.trim (lastClipboardContent st)
  ∧ 500 < now i - lastProcessedTime st.
Proof.
  unfold passesGuard, JS.eqb.
  rewrite !andb_true_iff, !negb_true_iff, !bool_decide_eq_false, Z.ltb_lt.
  tauto.
Qed.

Lemma passesGuard_false (st : State) (i : Tick) (c : list N) :
  passesGuard st i c = false ↔
  contentHash c = lastClipboardHash st
  ∨ JS.trim c = JS.trim (lastClipboardContent st)
  ∨ now i - lastProcessedTime st ≤ 500.
Proof.
  unfold passesGuard, JS.eqb.
  rewrite !andb_false_iff, !negb_false_iff, !bool_decide_eq_true, Z.ltb_ge.
  tauto.
Qed.

Lemma tick_changed (st : State) (i : Tick) (c : list N) :
  currentContent i = Some c → c ≠ lastClipboardContent st →
  tick entropyHigh st i =
  if passesGuard st i c then
    if isInternalCopy st then
      (mkState c (lastClipboardHash st) (lastProcessedTime st) (isInternalCopy st)
         (lastActiveApp st), None)
    else
      let analysis := Analyzer.enhancedDetection entropyHigh c (detectedApp st i) in
      (mkState c (contentHash c) (now i) (isInternalCopy st) (lastActiveApp st),
       if overlayOpen i then
         Some (ClipboardData.mk c (sendTime i)
                 (DetectionResult.contentType analysis)
                 (DetectionResult.sourceApp analysis)
                 (DetectionResult.confidence analysis)
                 (DetectionResult.reasoning analysis))
       else None)
  else (st, None).
Proof.
  intros Hc Hne. unfold tick. rewrite Hc. unfold JS.eqb at 1.
  by rewrite bool_decide_eq_false_2.
Qed.

(** C6. On a tick whose content differs from the last-seen content, the
    change is skipped, with no state change and no event, as soon as one of
    three holds: the fingerprint equals the last processed fingerprint, the
    trimmed content equals the trimmed last-seen content, or no more than
    500 ms have passed since the last processed change.  It goes on to the
    suppression check only when all three fail; then, absent suppression,
    the state records the content, its fingerprint and the time, and an
    event carrying the content is sent when the overlay is open. *)
Theorem tick_debounce (st : State) (i : Tick) (c : list N) :
  currentContent i = Some c → c ≠ lastClipboardContent st →
  (contentHash c = lastClipboardHash st
   ∨ JS.trim c = JS.trim (lastClipboardContent st)
   ∨ now i - lastProcessedTime st ≤ 500 →
   tick entropyHigh st i = (st, None))
  ∧ (contentHash c ≠ lastClipboardHash st →
     JS.trim c ≠ JS.trim (lastClipboardContent st) →
     500 < now i - lastProcessedTime st →
     isInternalCopy st = false →
     (tick entropyHigh st i).1
     = mkState c (contentHash c) (now i) false (lastActiveApp st)
     ∧ (overlayOpen i = true →
        ∃ e, (tick entropyHigh st i).2 = Some e
             ∧ ClipboardData.content e = c
             ∧ ClipboardData.timestamp e = sendTime i)).
Proof.
  intros Hc Hne. rewrite (tick_changed st i c Hc Hne). split.
  - intros H. apply passesGuard_false in H. by rewrite H.
  - intros H1 H2 H3 Hint.
    rewrite (proj2 (passesGuard_true st i c)) by done. rewrite Hint. simpl.
    split; [done|]. intros ->. eauto.
Qed.


End PollerFacts.

(** The state after the capture of [a] at time 1000. *)
Lemma tick_debounce_counterexample :
  let st := (Poller.tick Analyzer.entropyAbove3_5 Poller.initial
               (Poller.mkTick (JS.lit "a") None 1000 (Some (JS.lit "Chrome")) true 1000)).1 in
  let spaced := Poller.mkTick (JS.lit "a ") None 10000 (Some (JS.lit "Chrome")) true 10000 in
  let early := Poller.mkTick (JS.lit "b") None 1400 (Some (JS.lit "Chrome")) true 1400 in
  Poller.isInternalCopy st = false
  ∧ (JS.lit "a " ≠ Poller.lastClipboardContent st
     ∧ Poller.contentHash (JS.lit "a ") ≠ Poller.lastClipboardHash st
     ∧ ¬ (Poller.now spaced - Poller.lastProcessedTime st < 500)
     ∧ Poller.tick Analyzer.entropyAbove3_5 st spaced = (st, None))
  ∧ (JS.lit "b" ≠ Poller.lastClipboardContent st
     ∧ Poller.contentHash (JS.lit "b") ≠ Poller.lastClipboardHash st
     ∧ JS.trim (JS.lit "b") ≠ JS.trim (Poller.lastClipboardContent st)
     ∧ Poller.tick Analyzer.entropyAbove3_5 st early = (st, None)).
Proof. vm_compute. repeat split; (discriminate || done). Qed.

Lemma tick_debounce_witness :
  let st := Poller.mkState (JS.lit "a") (Poller.contentHash (JS.lit "a")) 1000 false
              (JS.lit "System") in
  let i := Poller.mkTick (JS.lit "b") None 2000 (Some (JS.lit "Chrome")) true 2001 in
  ∃ e, (Poller.tick Analyzer.entropyAbove3_5 st i).2 = Some e
       ∧ ClipboardData.content e = JS.lit "b"
       ∧ ClipboardData.timestamp e = 2001.
Proof.
  intros st i.
  destruct (tick_debounce Analyzer.entropyAbove3_5 st i (JS.lit "b")) as [_ H];
    [reflexivity | discriminate |].
  destruct H as [_ H]; [discriminate | discriminate | reflexivity | reflexivity |].
  apply H. reflexivity.
Defined.




(** ** The store *)

Section DatabaseFacts.
Import Database.
Implicit Types (m : gmap (list N) ClipboardItem) (s : DatabaseService).
Implicit Types (x y item : ClipboardItem) (xs items : list ClipboardItem).

(** *** The order of [getClipboardItems] *)

Lemma leb_total (a b : list N) : JS.leb a b = true ∨ JS.leb b a = true.
Proof.
  revert b. induction a as [|x a IH]; intros [|y b]; simpl; auto.
  destruct (N.ltb_spec x y), (N.ltb_spec y x), (N.eqb_spec x y), (N.eqb_spec y x);
    simpl; auto; lia.
Qed.

Lemma leb_trans (a b c : list N) :
  JS.leb a b = true → JS.leb b c = true → JS.leb a c = true.
Proof.
  revert b c. induction a as [|x a IH]; intros [|y b] [|z c]; simpl; auto; try done.
  destruct (N.ltb_spec x y), (N.ltb_spec y z), (N.ltb_spec x z),
    (N.eqb_spec x y), (N.eqb_spec y z), (N.eqb_spec x z);
    simpl; auto; try lia; try done. apply IH.
Qed.

#[local] Instance newerFirst_total : Total newerFirst.
Proof.
  intros a b. unfold newerFirst, newerFirstb.
  destruct (Z.ltb_spec (timestamp b) (timestamp a)), (Z.ltb_spec (timestamp a) (timestamp b)),
    (Z.eqb_spec (timestamp a) (timestamp b)), (Z.eqb_spec (timestamp b) (timestamp a));
    simpl; auto; try lia. apply leb_total.
Qed.

#[local] Instance newerFirst_trans : Transitive newerFirst.
Proof.
  intros a b c. unfold newerFirst, newerFirstb.
  destruct (Z.ltb_spec (timestamp b) (timestamp a)), (Z.ltb_spec (timestamp c) (timestamp b)),
    (Z.ltb_spec (timestamp c) (timestamp a)),
    (Z.eqb_spec (timestamp a) (timestamp b)), (Z.eqb_spec (timestamp b) (timestamp c)),
    (Z.eqb_spec (timestamp a) (timestamp c));
    simpl; auto; try lia; try done. apply leb_trans.
Qed.

Lemma newerFirst_timestamp x y : newerFirst x y → timestamp y ≤ timestamp x.
Proof.
  unfold newerFirst, newerFirstb.
  intros [?%Z.ltb_lt | [?%Z.eqb_eq _]%andb_true_iff]%orb_true_iff; lia.
Qed.

Lemma byRecency_perm m : byRecency m ≡ₚ (map_to_list m).*2.
Proof. apply merge_sort_Permutation. Qed.

Lemma elem_of_values m x : x ∈ (map_to_list m).*2 ↔ ∃ k, m !! k = Some x.
Proof.
  rewrite list_elem_of_fmap. split.
  - intros ([k y] & -> & H%elem_of_map_to_list). eauto.
  - intros [k H]. exists (k, x). by rewrite elem_of_map_to_list.
Qed.

Lemma elem_of_byRecency m x : x ∈ byRecency m ↔ ∃ k, m !! k = Some x.
Proof. by rewrite byRecency_perm, elem_of_values. Qed.

Lemma length_byRecency m : List.length (byRecency m) = size m.
Proof. by rewrite byRecency_perm, length_fmap, length_map_to_list. Qed.

Lemma byRecency_sorted m : StronglySorted newerFirst (byRecency m).
Proof. apply StronglySorted_merge_sort; apply _. Qed.

Lemma elem_of_loaded m x : x ∈ loaded m → ∃ k, m !! k = Some x.
Proof.
  intros H. apply elem_of_byRecency. unfold loaded in H.
  by eapply elem_of_take_1 || (apply elem_of_take in H as (i & H & _);
    by eapply list_elem_of_lookup_2).
Qed.

Lemma loaded_all m : (size m ≤ 1000)%nat → loaded m = byRecency m.
Proof. intros H. unfold loaded. apply take_ge. rewrite length_byRecency. lia. Qed.

Lemma keyed_lookup m x : keyed m → (∃ k, m !! k = Some x) → m !! id x = Some x.
Proof. intros Hk [k H]. by rewrite (Hk k x H). Qed.

(** *** Evaluation of the methods on an open database *)

Lemma getClipboardItems_db (limit : nat) (d : Idb) (l : list ClipboardItem) :
  getClipboardItems limit (mkService (Some d) l)
  = (Ok (take limit (byRecency (clipboardItems d))), mkService (Some d) l).
Proof. reflexivity. Qed.

Lemma findClipboardItemByContent_db (c : list N) (d : Idb) (l : list ClipboardItem) :
  findClipboardItemByContent c (mkService (Some d) l)
  = (Ok (List.find (hasContent c) (loaded (clipboardItems d))), mkService (Some d) l).
Proof. reflexivity. Qed.

Lemma forEach_delete_db xs m (st : option Settings) (l : list ClipboardItem) :
  forEach xs (λ item, deleteClipboardItem (id item)) (mkService (Some (mkIdb m st)) l)
  = (Ok (), mkService (Some (mkIdb (deleteAll xs m) st)) l).
Proof.
  revert m. induction xs as [|x xs IH]; intros m; [done|].
  simpl. unfold bind at 1. simpl. apply IH.
Qed.

Lemma cleanupOldItems_db (now : Z) m (st : option Settings) (l : list ClipboardItem) :
  let st' := default defaultSettings st in
  cleanupOldItems now (mkService (Some (mkIdb m st)) l)
  = (Ok (),
     mkService
       (Some (mkIdb (deleteAll (agePass now st' (loaded m))
                       (deleteAll (countPass st' (loaded m)) m))
                (Some st'))) l).
Proof.
  intros st'. unfold cleanupOldItems, bind, getDb, getSettings, setDb, ret. simpl.
  destruct st as [st|]; simpl; subst st'; simpl; fold (loaded m); unfold countPass;
    destruct (_ <? _); rewrite ?forEach_delete_db; cbv beta iota;
    by rewrite ?forEach_delete_db.
Qed.

Lemma lookup_deleteAll xs m k :
  deleteAll xs m !! k = if decide (k ∈ id <$> xs) then None else m !! k.
Proof.
  revert m. induction xs as [|x xs IH]; intros m; [done|].
  change (deleteAll (x :: xs) m) with (deleteAll xs (delete (id x) m)).
  rewrite IH, fmap_cons.
  destruct (decide (k ∈ id <$> xs)) as [Hin|Hin].
  { rewrite decide_True; [done|]. by apply list_elem_of_further. }
  destruct (decide (k = id x)) as [->|Hne].
  - rewrite lookup_delete_eq, decide_True; [done|]. apply list_elem_of_here.
  - rewrite lookup_delete_ne by done. rewrite decide_False; [done|].
    by intros [?|?]%elem_of_cons.
Qed.

Lemma lookup_deleteAll_Some xs m k x :
  deleteAll xs m !! k = Some x ↔ m !! k = Some x ∧ (k ∉ id <$> xs).
Proof.
  rewrite lookup_deleteAll. case_decide as H; split; try done.
  - by intros [_ ?].
  - by intros [? _].
Qed.

Lemma keyed_deleteAll xs m : keyed m → keyed (deleteAll xs m).
Proof. intros Hk k x [H _]%lookup_deleteAll_Some. by apply Hk. Qed.

Lemma elem_of_sliceFrom {A : Type} (start : Z) (l : list A) (a : A) :
  a ∈ sliceFrom start l → a ∈ l.
Proof.
  unfold sliceFrom. destruct (start <? 0); intros H;
    eapply elem_of_sublist; eauto using sublist_drop.
Qed.

Lemma elem_of_List_filter {A : Type} (f : A → bool) (l : list A) (a : A) :
  a ∈ List.filter f l ↔ a ∈ l ∧ f a = true.
Proof. by rewrite !list_elem_of_In, filter_In. Qed.

Lemma List_filter_all {A : Type} (f : A → bool) (l : list A) :
  (∀ a, a ∈ l → f a = true) → List.filter f l = l.
Proof.
  induction l as [|a l IH]; intros H; simpl; [done|].
  rewrite H by apply list_elem_of_here. f_equal. apply IH.
  intros b Hb. apply H. by apply list_elem_of_further.
Qed.

Lemma List_filter_none {A : Type} (f : A → bool) (l : list A) :
  (∀ a, a ∈ l → f a = false) → List.filter f l = [].
Proof.
  induction l as [|a l IH]; intros H; simpl; [done|].
  rewrite H by apply list_elem_of_here. apply IH.
  intros b Hb. apply H. by apply list_elem_of_further.
Qed.

Lemma elem_of_countPass (st : Settings) items x :
  x ∈ countPass st items → x ∈ items ∧ isProtectedItem x = false.
Proof.
  unfold countPass. destruct (_ <? _); [|by intros ?%elem_of_nil].
  intros H%elem_of_sliceFrom%elem_of_List_filter. by rewrite <- negb_true_iff.
Qed.

Lemma elem_of_agePass (now : Z) (st : Settings) items x :
  x ∈ agePass now st items ↔
  x ∈ items ∧ timestamp x < now - autoDeleteDays st * 24 * 60 * 60 * 1000
  ∧ isProtectedItem x = false.
Proof.
  unfold agePass.
  by rewrite elem_of_List_filter, andb_true_iff, Z.ltb_lt, negb_true_iff.
Qed.

(** The identifier of a loaded record determines it. *)
Lemma loaded_id m xs x :
  keyed m → (∀ z, z ∈ xs → z ∈ loaded m) →
  m !! id x = Some x → id x ∈ id <$> xs → x ∈ xs.
Proof.
  intros Hk Hxs Hx (z & Hid & Hz)%list_elem_of_fmap.
  destruct (elem_of_loaded m z (Hxs z Hz)) as [k Hzm].
  pose proof (Hk k z Hzm) as <-. rewrite <- Hid, Hx in Hzm. by simplify_eq.
Qed.

(** C2. An item that is in the store when [cleanupOldItems] starts and
    is pinned or has a category is still in the store when it ends:
    neither the count pass nor the age pass deletes it. *)
Theorem cleanupOldItems_keeps_protected (now : Z) s item :
  keyedStore s → item ∈ stored s → isProtectedItem item = true →
  item ∈ stored (cleanupOldItems now s).2.
Proof.
  destruct s as [[[m st]|] l]; [|done].
  unfold keyedStore, stored. simpl. intros Hk Hin Hprot.
  rewrite cleanupOldItems_db. simpl.
  apply elem_of_values in Hin. pose proof (keyed_lookup m item Hk Hin) as Hitem.
  apply elem_of_values. exists (id item).
  apply lookup_deleteAll_Some; split; [apply lookup_deleteAll_Some; split; [done|]|].
  - intros H.
    assert (item ∈ countPass (default defaultSettings st) (loaded m)) as Hc.
    { eapply loaded_id; eauto. intros z Hz. by apply elem_of_countPass in Hz as [? _]. }
    apply elem_of_countPass in Hc as [_ Hc]. congruence.
  - intros H.
    assert (item ∈ agePass now (default defaultSettings st) (loaded m)) as Hc.
    { eapply loaded_id; eauto. intros z Hz. by apply elem_of_agePass in Hz as [? _]. }
    apply elem_of_agePass in Hc as (_ & _ & Hc). congruence.
Qed.

Lemma ids_values m : keyed m → id <$> (map_to_list m).*2 = (map_to_list m).*1.
Proof.
  intros Hk. rewrite <- list_fmap_compose. apply list_fmap_ext.
  intros i [k x] H%list_elem_of_lookup_2%elem_of_map_to_list. simpl. eauto.
Qed.

Lemma NoDup_ids_values m : keyed m → NoDup (id <$> (map_to_list m).*2).
Proof. intros Hk. rewrite ids_values by done. apply NoDup_fst_map_to_list. Qed.

Lemma NoDup_values m : keyed m → NoDup (map_to_list m).*2.
Proof. intros Hk. eapply NoDup_fmap_1, NoDup_ids_values, Hk. Qed.

Lemma NoDup_ids_byRecency m : keyed m → NoDup (id <$> byRecency m).
Proof. intros Hk. rewrite byRecency_perm. by apply NoDup_ids_values. Qed.

Lemma length_values m : List.length (map_to_list m).*2 = size m.
Proof. by rewrite length_fmap, length_map_to_list. Qed.

Lemma size_deleteAll xs m :
  NoDup (id <$> xs) → (∀ x, x ∈ xs → is_Some (m !! id x)) →
  size (deleteAll xs m) = (size m - List.length xs)%nat.
Proof.
  revert m. induction xs as [|x xs IH]; intros m Hnd Hin; simpl; [lia|].
  change (deleteAll (x :: xs) m) with (deleteAll xs (delete (id x) m)).
  rewrite fmap_cons in Hnd. apply NoDup_cons in Hnd as [Hx Hnd].
  rewrite IH; [|done|].
  - rewrite map_size_delete_Some by (apply Hin, list_elem_of_here). lia.
  - intros y Hy. rewrite lookup_delete_ne; [by apply Hin, list_elem_of_further|].
    intros E. apply Hx. rewrite E. by apply list_elem_of_fmap_2.
Qed.

(** Without protected records the count pass deletes what lies beyond the
    maximum in the order of recency. *)
Lemma countPass_unprotected m (st : Settings) :
  0 ≤ maxItems st → (∀ k x, m !! k = Some x → isProtectedItem x = false) →
  countPass st (byRecency m)
  = if maxItems st <? Z.of_nat (size m)
    then drop (Z.to_nat (maxItems st)) (byRecency m) else [].
Proof.
  intros Hmax Hunprot. unfold countPass. rewrite length_byRecency.
  destruct (_ <? _); [|done]. rewrite List_filter_all.
  - unfold sliceFrom. by rewrite (proj2 (Z.ltb_ge _ _)) by lia.
  - intros a [k Ha]%elem_of_byRecency. by rewrite (Hunprot k a Ha).
Qed.

Lemma cleanup_size_bound (now : Z) m (st : Settings) :
  keyed m → (size m ≤ 1000)%nat → 0 ≤ maxItems st →
  (∀ k x, m !! k = Some x → isProtectedItem x = false) →
  maxItems st < Z.of_nat (size m) →
  Z.of_nat (size (deleteAll (agePass now st (loaded m))
                    (deleteAll (countPass st (loaded m)) m))) ≤ maxItems st.
Proof.
  intros Hk Hsize Hmax Hunprot Hover. rewrite (loaded_all m Hsize).
  rewrite countPass_unprotected, (proj2 (Z.ltb_lt _ _) Hover) by done.
  set (n := Z.to_nat (maxItems st)). set (items := byRecency m).
  set (m' := deleteAll _ _).
  assert ((map_to_list m').*2 ⊆+ take n items) as Hsub.
  { apply NoDup_submseteq.
    - apply NoDup_values. unfold m'. by do 2 apply keyed_deleteAll.
    - intros y [k Hy]%elem_of_values. unfold m' in Hy.
      apply lookup_deleteAll_Some in Hy as [Hy _].
      apply lookup_deleteAll_Some in Hy as [Hy Hnot].
      pose proof (Hk k y Hy) as <-.
      assert (y ∈ items) as Hin by (apply elem_of_byRecency; eauto).
      rewrite <- (take_drop n items) in Hin. apply elem_of_app in Hin as [?|Hin]; [done|].
      destruct Hnot. by apply list_elem_of_fmap_2. }
  apply submseteq_length in Hsub. rewrite length_values, length_take in Hsub. lia.
Qed.

(** The count pass where no record is protected.  For a store without
    protected items that the cleanup loads in
    full: the pass deletes nothing but stored records; it brings a count
    over the configured maximum down to the maximum or under; no deleted
    record is newer than a record that is kept; when no record is older
    than the retention age, exactly the records over the maximum go; and
    with 101 records and a maximum of 100 exactly one record, an oldest
    one, is deleted. *)
Theorem cleanupOldItems_count_pass (now : Z) m (o : option Settings)
    (l : list ClipboardItem) :
  let st := default defaultSettings o in
  let s' := (cleanupOldItems now (mkService (Some (mkIdb m o)) l)).2 in
  let recent (x : ClipboardItem) :=
    now - autoDeleteDays st * 24 * 60 * 60 * 1000 ≤ timestamp x in
  keyed m → (size m ≤ 1000)%nat → 0 ≤ maxItems st →
  (∀ k x, m !! k = Some x → isProtectedItem x = false) →
  ∃ m', s' = mkService (Some (mkIdb m' (Some st))) l
    ∧ m' ⊆ m
    ∧ (maxItems st < Z.of_nat (size m) → Z.of_nat (size m') ≤ maxItems st)
    ∧ (∀ k k' x y, m !! k = Some x → m' !! k = None → m' !! k' = Some y →
                   timestamp x ≤ timestamp y)
    ∧ ((∀ k x, m !! k = Some x → recent x) →
       Z.of_nat (size m') = Z.min (Z.of_nat (size m)) (maxItems st))
    ∧ (size m = 101%nat → maxItems st = 100 →
       (∀ k x, m !! k = Some x → recent x) →
       ∃ k x, m !! k = Some x ∧ m' = delete k m
              ∧ ∀ k' y, m !! k' = Some y → timestamp x ≤ timestamp y).
Proof.
  intros st s' recent Hk Hsize Hmax Hunprot. subst s'.
  rewrite cleanupOldItems_db. fold st. simpl.
  rewrite (loaded_all m Hsize).
  set (items := byRecency m).
  set (n := Z.to_nat (maxItems st)).
  assert (Hitems : ∀ x, x ∈ items ↔ ∃ k, m !! k = Some x) by apply elem_of_byRecency.
  assert (Hcount : countPass st items
                   = if maxItems st <? Z.of_nat (size m) then drop n items else [])
    by (by apply countPass_unprotected).
  set (D1 := countPass st items) in *. set (D2 := agePass now st items).
  assert (HD1 : ∀ x, x ∈ D1 → x ∈ items).
  { intros x Hx. by apply elem_of_countPass in Hx as [? _]. }
  assert (HD2 : ∀ x, x ∈ D2 → x ∈ items).
  { intros x Hx. by apply elem_of_agePass in Hx as [? _]. }
  assert (Hin1 : ∀ x, m !! id x = Some x → id x ∈ id <$> D1 → x ∈ D1).
  { intros x Hx. apply (loaded_id m D1 x Hk); [|done].
    intros z Hz. rewrite (loaded_all m Hsize). auto. }
  assert (Hin2 : ∀ x, m !! id x = Some x → id x ∈ id <$> D2 → x ∈ D2).
  { intros x Hx. apply (loaded_id m D2 x Hk); [|done].
    intros z Hz. rewrite (loaded_all m Hsize). auto. }
  set (m' := deleteAll D2 (deleteAll D1 m)).
  assert (Hm' : ∀ k x, m' !! k = Some x
                       ↔ m !! k = Some x ∧ (k ∉ id <$> D1) ∧ (k ∉ id <$> D2)).
  { intros k x. unfold m'. rewrite !lookup_deleteAll_Some. tauto. }
  assert (Hkept : ∀ k y, m' !! k = Some y
                         → y ∈ items ∧ (y ∉ D1) ∧ (y ∉ D2) ∧ id y = k).
  { intros k y (Hy & H1 & H2)%Hm'. pose proof (Hk k y Hy) as <-.
    repeat split; [apply Hitems; eauto|..].
    - intros ?. apply H1. by apply list_elem_of_fmap_2.
    - intros ?. apply H2. by apply list_elem_of_fmap_2. }
  exists m'. split; [done|]. split; [|split; [|split; [|split]]].
  - apply map_subseteq_spec. intros k x Hx. by apply Hm' in Hx as [? _].
  - intros Hover. unfold m', D1, D2, items. rewrite <- (loaded_all m Hsize).
    by apply cleanup_size_bound.
  - intros k k' x y Hx Hdel Hy.
    destruct (Hkept k' y Hy) as (Hy0 & Hy1 & Hy2 & _).
    pose proof (Hk k x Hx) as <-.
    assert (x ∈ D1 ∨ x ∈ D2) as [Hx1|Hx2].
    { destruct (decide (id x ∈ id <$> D1)) as [?|H1]; [left; auto|].
      destruct (decide (id x ∈ id <$> D2)) as [?|H2]; [right; auto|].
      assert (m' !! id x = Some x) as E by (apply Hm'; auto). congruence. }
    + rewrite Hcount in Hx1, Hy1. destruct (_ <? _); [|by apply elem_of_nil in Hx1].
      rewrite <- (take_drop n items) in Hy0. apply elem_of_app in Hy0 as [Hy0|?]; [|done].
      apply newerFirst_timestamp.
      eapply (StronglySorted_app_1_elem_of _ (take n items) (drop n items)); eauto.
      rewrite take_drop. apply byRecency_sorted.
    + apply elem_of_agePass in Hx2 as (_ & Hold & _).
      destruct (Z.le_gt_cases (now - autoDeleteDays st * 24 * 60 * 60 * 1000) (timestamp y));
        [lia|].
      destruct Hy2. apply elem_of_agePass. repeat split; [done|lia|].
      apply Hitems in Hy0 as [ky Hy0]. eauto.
  - intros Hrecent.
    assert (D2 = []) as HD2nil.
    { apply List_filter_none. intros a [k Ha]%Hitems.
      apply andb_false_iff. left. apply Z.ltb_ge. by apply (Hrecent k). }
    unfold m'. rewrite HD2nil. change (deleteAll [] ?x) with x.
    rewrite size_deleteAll.
    + rewrite Hcount. destruct (Z.ltb_spec (maxItems st) (Z.of_nat (size m))).
      * rewrite length_drop. unfold items. rewrite length_byRecency. lia.
      * simpl. lia.
    + apply (sublist_NoDup (id <$> D1) (id <$> items)); [by apply NoDup_ids_byRecency|].
      apply fmap_sublist. rewrite Hcount. destruct (_ <? _); [apply sublist_drop|].
      apply sublist_nil_l.
    + intros x [k Hx]%HD1%Hitems. rewrite (Hk k x Hx). eauto.
  - intros H101 H100 Hrecent.
    assert (D2 = []) as HD2nil.
    { apply List_filter_none. intros a [k Ha]%Hitems.
      apply andb_false_iff. left. apply Z.ltb_ge. by apply (Hrecent k). }
    assert (List.length items = 101%nat) as Hlen
      by (unfold items; by rewrite length_byRecency).
    assert (n = 100%nat) as Hn by (unfold n; rewrite H100; done).
    rewrite (proj2 (Z.ltb_lt _ _)) in Hcount by lia.
    destruct (drop n items) as [|x [|x' rest]] eqn:Hdrop.
    { apply (f_equal List.length) in Hdrop. rewrite length_drop in Hdrop. simpl in *. lia. }
    2:{ apply (f_equal List.length) in Hdrop. rewrite length_drop in Hdrop. simpl in *. lia. }
    assert (x ∈ items) as Hx.
    { rewrite <- (take_drop n items), Hdrop. apply elem_of_app. right. apply list_elem_of_here. }
    destruct (proj1 (Hitems x) Hx) as [k Hkx]. pose proof (Hk k x Hkx) as Hid.
    exists k, x. split; [done|]. split.
    + unfold m'. rewrite HD2nil, Hcount. simpl. by rewrite Hid.
    + intros k' y Hy.
      assert (y ∈ items) as Hyi by (apply Hitems; eauto).
      rewrite <- (take_drop n items), Hdrop in Hyi.
      apply elem_of_app in Hyi as [Hyi|Hyi];
        [|apply list_elem_of_singleton in Hyi as ->; lia].
      apply newerFirst_timestamp.
      eapply (StronglySorted_app_1_elem_of _ (take n items) [x]); eauto;
        [|apply list_elem_of_here].
      rewrite <- Hdrop, take_drop. apply byRecency_sorted.
Qed.

(** *** Ingestion into an open database *)

Lemma ingest_call s (now : Z) item :
  ingest s (now, item) = (addClipboardItem now item s).2.
Proof. reflexivity. Qed.

Lemma ingestAll_snoc s (calls : list (Z * ClipboardItem)) (call : Z * ClipboardItem) :
  ingestAll s (calls ++ [call]) = ingest (ingestAll s calls) call.
Proof. unfold ingestAll. by rewrite foldl_app. Qed.



Lemma find_hasContent_Some (c : list N) items x :
  List.find (hasContent c) items = Some x → x ∈ items ∧ content x = c.
Proof.
  intros [H1 H2]%find_some. split; [by apply list_elem_of_In|].
  unfold hasContent, JS.eqb in H2. by apply bool_decide_eq_true in H2.
Qed.

Lemma find_hasContent_None (c : list N) items x :
  List.find (hasContent c) items = None → x ∈ items → content x ≠ c.
Proof.
  intros H Hx%list_elem_of_In. pose proof (find_none _ _ H x Hx) as H2.
  unfold hasContent, JS.eqb in H2. by apply bool_decide_eq_false in H2.
Qed.

Lemma addClipboardItem_db (now : Z) item m (o : option Settings)
    (l : list ClipboardItem) :
  addClipboardItem now item (mkService (Some (mkIdb m o)) l)
  = match List.find (hasContent (content item)) (loaded m) with
    | Some existing =>
        (Ok (), mkService (Some (mkIdb (<[id existing := merged existing item]> m) o)) l)
    | None =>
        match m !! id item with
        | Some _ => (Throw "ConstraintError", mkService (Some (mkIdb m o)) l)
        | None =>
            cleanupOldItems now (mkService (Some (mkIdb (<[id item := item]> m) o)) l)
        end
    end.
Proof.
  unfold addClipboardItem. unfold bind at 1.
  rewrite findClipboardItemByContent_db.
  destruct (List.find _ _) as [existing|]; [done|].
  unfold bind, getDb, dbAdd. simpl. by destruct (m !! id item).
Qed.

Lemma keyed_insert m x : keyed m → keyed (<[id x := x]> m).
Proof. intros Hk k y [[<- <-]|[_ ?]]%lookup_insert_Some; [done|by apply Hk]. Qed.

Lemma keyed_empty : keyed ∅.
Proof. intros k x H. by rewrite lookup_empty in H. Qed.

Lemma uniqueContent_subseteq m m' : m' ⊆ m → uniqueContent m → uniqueContent m'.
Proof.
  intros Hsub Hu k1 k2 a b Ha Hb. apply Hu; by eapply lookup_weaken.
Qed.

Lemma deleteAll_subseteq xs m : deleteAll xs m ⊆ m.
Proof. apply map_subseteq_spec. intros k x H. by apply lookup_deleteAll_Some in H as [? _]. Qed.

Lemma uniqueContent_insert_fresh m x :
  keyed m → uniqueContent m → m !! id x = None →
  (∀ k y, m !! k = Some y → content y ≠ content x) →
  uniqueContent (<[id x := x]> m).
Proof.
  intros Hk Hu Hnone Hfresh k1 k2 a b
    [[<- <-]|[? Ha]]%lookup_insert_Some [[<- <-]|[? Hb]]%lookup_insert_Some E;
    try done.
  - by destruct (Hfresh _ _ Hb).
  - by destruct (Hfresh _ _ Ha).
  - by apply (Hu k1 k2 a b).
Qed.

Lemma uniqueContent_update m existing u :
  uniqueContent m → m !! id existing = Some existing →
  content u = content existing →
  uniqueContent (<[id existing := u]> m).
Proof.
  intros Hu He Hc k1 k2 a b
    [[<- <-]|[? Ha]]%lookup_insert_Some [[<- <-]|[? Hb]]%lookup_insert_Some E;
    try done.
  - apply (Hu _ _ existing b); [done..|congruence].
  - apply (Hu _ _ a existing); [done..|congruence].
  - by apply (Hu k1 k2 a b).
Qed.

Lemma uniqueContent_NoDup m : uniqueContent m → NoDup (content <$> (map_to_list m).*2).
Proof.
  intros Hu. rewrite <- list_fmap_compose.
  apply NoDup_fmap_2_strong; [|apply NoDup_map_to_list].
  intros [k1 a] [k2 b] Ha%elem_of_map_to_list Hb%elem_of_map_to_list E. simpl in E.
  pose proof (Hu k1 k2 a b Ha Hb E) as ->. congruence.
Qed.

Lemma NoDup_fmap_eq {A B : Type} (f : A → B) (l : list A) (a b : A) :
  NoDup (f <$> l) → a ∈ l → b ∈ l → f a = f b → a = b.
Proof.
  intros Hnd [i Hi]%list_elem_of_lookup [j Hj]%list_elem_of_lookup E.
  assert (i = j) as ->; [|congruence].
  apply (NoDup_lookup (f <$> l) i j (f a)); [done|..];
    rewrite list_lookup_fmap; [by rewrite Hi|by rewrite Hj, E].
Qed.

Lemma NoDup_uniqueContent m :
  keyed m → NoDup (content <$> (map_to_list m).*2) → uniqueContent m.
Proof.
  intros Hk Hnd k1 k2 a b Ha Hb E.
  assert (a = b) as ->.
  { apply (NoDup_fmap_eq content _ a b Hnd); [apply elem_of_values; eauto..|done]. }
  by rewrite <- (Hk k1 b Ha), <- (Hk k2 b Hb).
Qed.

(** The lookup of a content that is in a fully loaded store finds it. *)
Lemma find_loaded m existing (c : list N) :
  keyed m → uniqueContent m → (size m ≤ 1000)%nat →
  m !! id existing = Some existing → content existing = c →
  List.find (hasContent c) (loaded m) = Some existing.
Proof.
  intros Hk Hu Hsize He Hc.
  destruct (List.find _ _) as [x|] eqn:Hfind.
  - apply find_hasContent_Some in Hfind as [[k Hx]%elem_of_loaded Hxc].
    pose proof (Hu k (id existing) x existing Hx He ltac:(congruence)) as ->.
    congruence.
  - exfalso. apply (find_hasContent_None c (loaded m) existing Hfind); [|done].
    rewrite loaded_all by done. apply elem_of_byRecency. eauto.
Qed.

(** One ingestion keeps the invariant of an open database. *)
Lemma ingest_db (call : Z * ClipboardItem) m (o : option Settings)
    (l : list ClipboardItem) :
  keyed m → uniqueContent m → (size m ≤ 1000)%nat →
  ∃ m' o', ingest (mkService (Some (mkIdb m o)) l) call
           = mkService (Some (mkIdb m' o')) l
           ∧ keyed m' ∧ uniqueContent m'.
Proof.
  intros Hk Hu Hsize. destruct call as [now item]. unfold ingest. simpl.
  rewrite addClipboardItem_db.
  destruct (List.find _ _) as [existing|] eqn:Hfind.
  - apply find_hasContent_Some in Hfind as [Hin Hc].
    apply elem_of_loaded in Hin. pose proof (keyed_lookup m existing Hk Hin) as He.
    eexists _, _. split; [done|]. split.
    + by apply (keyed_insert m (merged existing item)).
    + by apply uniqueContent_update.
  - destruct (m !! id item) eqn:Hid; [by eexists _, _|].
    rewrite cleanupOldItems_db. simpl. eexists _, _. split; [done|].
    split.
    + by do 2 apply keyed_deleteAll; apply keyed_insert.
    + eapply uniqueContent_subseteq;
        [etrans; apply deleteAll_subseteq|].
      apply uniqueContent_insert_fresh; [done..|].
      intros k y Hy. apply (find_hasContent_None _ (loaded m) y Hfind).
      rewrite loaded_all by done. apply elem_of_byRecency. eauto.
Qed.

Lemma ingestAll_db (calls : list (Z * ClipboardItem)) m (o : option Settings)
    (l : list ClipboardItem) :
  keyed m → uniqueContent m →
  (∀ n, withinLookup (ingestAll (mkService (Some (mkIdb m o)) l) (take n calls))) →
  ∃ m' o', ingestAll (mkService (Some (mkIdb m o)) l) calls
           = mkService (Some (mkIdb m' o')) l
           ∧ keyed m' ∧ uniqueContent m'.
Proof.
  revert m o. induction calls as [|call calls IH]; intros m o Hk Hu Hsize.
  { by exists m, o. }
  pose proof (Hsize 0%nat) as H0. simpl in H0.
  destruct (ingest_db call m o l Hk Hu H0) as (m1 & o1 & E & Hk1 & Hu1).
  simpl. rewrite E. apply IH; [done..|].
  intros n. specialize (Hsize (S n)). simpl in Hsize. by rewrite E in Hsize.
Qed.

(** Ingesting unprotected items keeps the store unprotected and, by the
    eviction that follows every insert, at 500 records or under. *)
Lemma ingest_db_unprotected (call : Z * ClipboardItem) m (o : option Settings)
    (l : list ClipboardItem) :
  keyed m → uniqueContent m →
  (∀ k x, m !! k = Some x → isProtectedItem x = false) →
  (size m ≤ 500)%nat → default defaultSettings o = defaultSettings →
  isProtectedItem call.2 = false →
  ∃ m' o', ingest (mkService (Some (mkIdb m o)) l) call
           = mkService (Some (mkIdb m' o')) l
           ∧ keyed m' ∧ uniqueContent m'
           ∧ (∀ k x, m' !! k = Some x → isProtectedItem x = false)
           ∧ (size m' ≤ 500)%nat ∧ default defaultSettings o' = defaultSettings.
Proof.
  intros Hk Hu Hunprot Hsize Ho Hcall.
  destruct (ingest_db call m o l Hk Hu) as (m' & o' & E & Hk' & Hu'); [lia|].
  exists m', o'. split; [done|]. split; [done|]. split; [done|].
  destruct call as [now item]. unfold ingest in E. simpl in E, Hcall.
  rewrite addClipboardItem_db in E.
  destruct (List.find _ _) as [existing|] eqn:Hfind.
  - apply find_hasContent_Some in Hfind as [Hin Hc].
    apply elem_of_loaded in Hin. pose proof (keyed_lookup m existing Hk Hin) as He.
    simpl in E. injection E as <- <-. split; [|split; [|done]].
    + intros k x [[_ <-]|[_ Hx]]%lookup_insert_Some; [|by eapply Hunprot].
      exact (Hunprot _ _ He).
    + rewrite map_size_insert_Some by eauto. lia.
  - destruct (m !! id item) eqn:Hid.
    { injection E as <- <-. by split. }
    rewrite cleanupOldItems_db in E. simpl in E. injection E as <- <-.
    rewrite Ho.
    set (m1 := <[id item := item]> m).
    assert (Hunprot1 : ∀ k x, m1 !! k = Some x → isProtectedItem x = false).
    { intros k x [[_ <-]|[_ Hx]]%lookup_insert_Some; [done|by eapply Hunprot]. }
    assert (size m1 = S (size m)) as Hsize1 by by apply map_size_insert_None.
    split; [|split; [|done]].
    + intros k x Hx. apply (Hunprot1 k).
      apply lookup_deleteAll_Some in Hx as [Hx _].
      by apply lookup_deleteAll_Some in Hx as [Hx _].
    + destruct (decide (size m1 ≤ 500)%nat) as [Hle|Hgt].
      * etrans; [|exact Hle]. apply map_subseteq_size.
        etrans; apply deleteAll_subseteq.
      * pose proof (cleanup_size_bound now m1 defaultSettings) as Hb.
        simpl in Hb. specialize (Hb ltac:(by apply keyed_insert) ltac:(lia)
                                   ltac:(lia) Hunprot1 ltac:(lia)). lia.
Qed.

Lemma ingestAll_db_unprotected (calls : list (Z * ClipboardItem)) m
    (o : option Settings) (l : list ClipboardItem) :
  keyed m → uniqueContent m →
  (∀ k x, m !! k = Some x → isProtectedItem x = false) →
  (size m ≤ 500)%nat → default defaultSettings o = defaultSettings →
  (∀ call, call ∈ calls → isProtectedItem call.2 = false) →
  ∃ m' o', ingestAll (mkService (Some (mkIdb m o)) l) calls
           = mkService (Some (mkIdb m' o')) l
           ∧ keyed m' ∧ uniqueContent m' ∧ (size m' ≤ 500)%nat.
Proof.
  revert m o. induction calls as [|call calls IH]; intros m o Hk Hu Hunprot Hsize Ho Hcalls.
  { by exists m, o. }
  destruct (ingest_db_unprotected call m o l Hk Hu Hunprot Hsize Ho)
    as (m1 & o1 & E & Hk1 & Hu1 & Hunprot1 & Hsize1 & Ho1).
  { apply Hcalls, list_elem_of_here. }
  simpl. rewrite E. apply IH; [done..|].
  intros c Hc. by apply Hcalls, list_elem_of_further.
Qed.

(** *** Ingestion into the fallback list *)

Lemma addClipboardItem_fallback (now : Z) item (l : list ClipboardItem) :
  addClipboardItem now item (mkService None l)
  = match List.find (hasContent (content item)) l with
    | Some existing =>
        match findIndex (id existing) l with
        | Some index =>
            (Ok (), mkService None
                      (merged existing item
                         :: delete index (<[index := merged existing item]> l)))
        | None => (Ok (), mkService None l)
        end
    | None => (Ok (), mkService None (take 100 (item :: l)))
    end.
Proof.
  unfold addClipboardItem, bind, findClipboardItemByContent, bind, getDb,
    getFromLocalStorage, ret. simpl.
  destruct (List.find _ _) as [existing|]; [|done].
  simpl. by destruct (findIndex _ _).
Qed.

Lemma findIndex_Some (k : list N) items (i : nat) :
  findIndex k items = Some i → ∃ y, items !! i = Some y ∧ id y = k.
Proof.
  revert i. induction items as [|x items IH]; intros i; simpl; [done|].
  unfold JS.eqb. case_bool_decide as Hx.
  - intros [= <-]. by exists x.
  - destruct (findIndex k items) as [j|]; [|done]. intros [= <-]. by apply IH.
Qed.

Lemma delete_insert_same {A : Type} (l : list A) (i : nat) (a : A) :
  delete i (<[i := a]> l) = delete i l.
Proof. revert i. induction l as [|b l IH]; intros [|i]; simpl; f_equal; auto. Qed.

Lemma list_elem_of_delete_NoDup {A : Type} (l : list A) (i : nat) (a b : A) :
  NoDup l → l !! i = Some a → b ∈ delete i l ↔ b ∈ l ∧ b ≠ a.
Proof.
  intros Hnd Hi. pose proof (delete_Permutation l i a Hi) as Hp.
  rewrite Hp in Hnd. apply NoDup_cons in Hnd as [Ha _].
  split.
  - intros Hb. split; [by eapply list_elem_of_delete_inv|]. by intros ->.
  - intros [Hb Hne]. rewrite Hp in Hb. by apply elem_of_cons in Hb as [?|?].
Qed.

Lemma ingest_fallback (call : Z * ClipboardItem) (l : list ClipboardItem) :
  NoDup (id <$> l) → NoDup (content <$> l) → id call.2 ∉ id <$> l →
  ∃ l', ingest (mkService None l) call = mkService None l'
        ∧ NoDup (id <$> l') ∧ NoDup (content <$> l')
        ∧ ∀ k, k ∈ id <$> l' → k = id call.2 ∨ k ∈ id <$> l.
Proof.
  intros Hids Hcs Hfresh. destruct call as [now item]. unfold ingest. simpl in *.
  rewrite addClipboardItem_fallback.
  destruct (List.find _ _) as [existing|] eqn:Hfind.
  - apply find_hasContent_Some in Hfind as [Hin Hc].
    destruct (findIndex _ _) as [index|] eqn:Hidx; [|by exists l; auto].
    apply findIndex_Some in Hidx as (y & Hy & Hid).
    assert (y = existing) as ->.
    { apply (NoDup_fmap_eq id l); eauto using list_elem_of_lookup_2. }
    rewrite delete_insert_same. eexists. split; [done|].
    pose proof (delete_Permutation l index existing Hy) as Hp.
    rewrite Hp in Hids, Hcs. rewrite !fmap_cons in *.
    split; [done|]. split; [done|].
    intros k Hk. right. by rewrite Hp, fmap_cons.
  - eexists. split; [done|].
    assert (NoDup (id <$> item :: l)) as Hids'.
    { rewrite fmap_cons. by apply NoDup_cons. }
    assert (NoDup (content <$> item :: l)) as Hcs'.
    { rewrite fmap_cons. apply NoDup_cons. split; [|done].
      intros (y & Hy & Hyl)%list_elem_of_fmap.
      by apply (find_hasContent_None _ l y Hfind). }
    split; [|split].
    + rewrite fmap_take. eapply sublist_NoDup; [exact Hids'|apply sublist_take].
    + rewrite fmap_take. eapply sublist_NoDup; [exact Hcs'|apply sublist_take].
    + intros k Hk. rewrite fmap_take in Hk.
      eapply elem_of_sublist in Hk; [|apply sublist_take].
      rewrite fmap_cons in Hk. by apply elem_of_cons in Hk.
Qed.

Lemma ingestAll_fallback (calls : list (Z * ClipboardItem)) (l : list ClipboardItem) :
  NoDup (id <$> l) → NoDup (content <$> l) →
  NoDup ((λ call, id call.2) <$> calls) →
  (∀ call, call ∈ calls → id call.2 ∉ id <$> l) →
  ∃ l', ingestAll (mkService None l) calls = mkService None l'
        ∧ NoDup (id <$> l') ∧ NoDup (content <$> l').
Proof.
  revert l. induction calls as [|call calls IH]; intros l Hids Hcs Hnd Hfresh.
  { by exists l. }
  rewrite fmap_cons in Hnd. apply NoDup_cons in Hnd as [Hcall Hnd].
  destruct (ingest_fallback call l Hids Hcs) as (l1 & E & Hids1 & Hcs1 & Hsub).
  { apply Hfresh, list_elem_of_here. }
  simpl. rewrite E. apply IH; [done..|].
  intros c Hc Hin. apply Hsub in Hin as [Hin|Hin].
  - apply Hcall. rewrite <- Hin. by apply (list_elem_of_fmap_2 (λ call, id call.2)).
  - by apply (Hfresh c (list_elem_of_further _ _ _ Hc)).
Qed.

(** C1. Starting from an empty store, after any finite sequence of
    ingestions the store holds at most one item per content: on an open
    database as long as the object store never holds more than the 1000
    records that the duplicate lookup loads, which is the case when no
    ingested item is pinned or categorised (the store then stays at 500
    records or under); and on the fallback list when the ingested items
    carry distinct identifiers. *)
Theorem ingest_deduplicates (calls : list (Z * ClipboardItem)) :
  ((∀ n, withinLookup (ingestAll emptyDb (take n calls))) →
   NoDup (content <$> stored (ingestAll emptyDb calls)))
  ∧ ((∀ call, call ∈ calls → isProtectedItem call.2 = false) →
     NoDup (content <$> stored (ingestAll emptyDb calls))
     ∧ (List.length (stored (ingestAll emptyDb calls)) ≤ 500)%nat)
  ∧ (NoDup ((λ call, id call.2) <$> calls) →
     NoDup (content <$> stored (ingestAll emptyFallback calls))).
Proof.
  assert (uniqueContent ∅) as Hempty.
  { intros k1 k2 a b H. by rewrite lookup_empty in H. }
  unfold emptyDb, emptyFallback. split; [|split].
  - intros Hsize.
    destruct (ingestAll_db calls ∅ None [] keyed_empty) as (m & o & -> & _ & Hu);
      [done|done|by apply uniqueContent_NoDup].
  - intros Hcalls.
    destruct (ingestAll_db_unprotected calls ∅ None [] keyed_empty Hempty)
      as (m & o & -> & _ & Hu & Hsize); [| |done|done|].
    + intros k x H. by rewrite lookup_empty in H.
    + rewrite map_size_empty. lia.
    + split; [by apply uniqueContent_NoDup|]. unfold stored. simpl.
      by rewrite length_values.
  - intros Hnd.
    destruct (ingestAll_fallback calls []) as (l & -> & _ & Hcs);
      [constructor|constructor|done| |done].
    intros call _ H. by apply elem_of_nil in H.
Qed.

(** *** The duplicate path *)

Lemma findIndex_None (k : list N) items :
  findIndex k items = None → k ∉ id <$> items.
Proof.
  induction items as [|x items IH]; simpl; [intros _; apply not_elem_of_nil|].
  unfold JS.eqb. case_bool_decide as Hx; [done|].
  destruct (findIndex k items); [done|]. intros _.
  rewrite elem_of_cons. intros [?|?]; [done|]. by apply IH.
Qed.

Lemma find_unique (c : list N) items existing :
  NoDup (content <$> items) → existing ∈ items → content existing = c →
  List.find (hasContent c) items = Some existing.
Proof.
  intros Hnd Hin Hc. destruct (List.find _ _) as [x|] eqn:Hfind.
  - apply find_hasContent_Some in Hfind as [Hx Hxc]. f_equal.
    apply (NoDup_fmap_eq content items); [done..|congruence].
  - by destruct (find_hasContent_None c items existing Hfind).
Qed.

(** C8. Ingesting an item whose content equals that of a stored item,
    into a store with at most one item per content that the duplicate
    lookup loads in full: the call returns; the stored item is replaced by
    the merged one, which keeps the identifier, the pin and the
    categories of the stored item and takes the timestamp of the ingested
    one; every other record stays as it was, no record is added, and the
    store still holds exactly one item with that content.  On an open
    database the change is the one of [updateClipboardItem]. *)
Theorem addClipboardItem_recency_bump (now : Z) s existing item :
  keyedStore s → withinLookup s → distinctIds s →
  NoDup (content <$> stored s) →
  existing ∈ stored s → content item = content existing →
  let r := addClipboardItem now item s in
  let updated := merged existing item in
  r.1 = Ok ()
  ∧ (id updated = id existing ∧ isPinned updated = isPinned existing
     ∧ categories updated = categories existing
     ∧ timestamp updated = timestamp item)
  ∧ (∀ x, x ∈ stored r.2 ↔ x = updated ∨ (x ∈ stored s ∧ x ≠ existing))
  ∧ (∀ x, x ∈ stored r.2 → content x = content item → x = updated)
  ∧ NoDup (content <$> stored r.2)
  ∧ List.length (stored r.2) = List.length (stored s)
  ∧ (is_Some (db s) → r.2 = (updateClipboardItem updated s).2).
Proof.
  intros Hk Hsize Hids Hnd Hin Hc r updated.
  assert (Hchar_unique : ∀ L : list ClipboardItem,
            (∀ x, x ∈ L ↔ x = updated ∨ (x ∈ stored s ∧ x ≠ existing)) →
            ∀ x, x ∈ L → content x = content item → x = updated).
  { intros L Hchar x [?|[Hx Hne]]%Hchar Hxc; [done|]. destruct Hne.
    apply (NoDup_fmap_eq content (stored s)); [done..|congruence]. }
  destruct s as [[[m o]|] l]; unfold keyedStore, withinLookup, distinctIds, stored in *;
    simpl in *; subst r.
  - pose proof (NoDup_uniqueContent m Hk Hnd) as Hu.
    pose proof (keyed_lookup m existing Hk (proj1 (elem_of_values m existing) Hin)) as He.
    rewrite addClipboardItem_db, (find_loaded m existing (content item)) by done.
    simpl. fold updated.
    assert (Hchar : ∀ x, x ∈ (map_to_list (<[id existing := updated]> m)).*2
                         ↔ x = updated ∨ (x ∈ (map_to_list m).*2 ∧ x ≠ existing)).
    { intros x. rewrite !elem_of_values. split.
      - intros [k [[_ <-]|[Hne Hx]]%lookup_insert_Some]; [by left|right].
        split; [eauto|]. intros ->. by rewrite (Hk k existing Hx) in Hne.
      - intros [->|[[k Hx] Hne]].
        + exists (id existing). by rewrite lookup_insert_eq.
        + exists k. rewrite lookup_insert_ne; [done|].
          intros <-. rewrite He in Hx. by simplify_eq. }
    repeat split; try done.
    + by apply Hchar.
    + by apply Hchar.
    + apply Hchar_unique. exact Hchar.
    + by apply uniqueContent_NoDup, uniqueContent_update.
    + rewrite !length_values. apply map_size_insert_Some. eauto.
  - rewrite addClipboardItem_fallback, (find_unique (content item) l existing) by done.
    destruct (findIndex (id existing) l) as [index|] eqn:Hidx.
    2:{ apply findIndex_None in Hidx. destruct Hidx. by apply list_elem_of_fmap_2. }
    apply findIndex_Some in Hidx as (y & Hy & Hid).
    assert (y = existing) as ->.
    { apply (NoDup_fmap_eq id l); eauto using list_elem_of_lookup_2. }
    rewrite delete_insert_same. simpl. fold updated.
    assert (Hchar : ∀ x, x ∈ updated :: delete index l
                         ↔ x = updated ∨ (x ∈ l ∧ x ≠ existing)).
    { intros x. rewrite elem_of_cons.
      by rewrite (list_elem_of_delete_NoDup l index existing x)
        by eauto using NoDup_fmap_1. }
    pose proof (delete_Permutation l index existing Hy) as Hp.
    repeat split; try done.
    + by apply Hchar.
    + by apply Hchar.
    + apply Hchar_unique. exact Hchar.
    + rewrite Hp in Hnd. by rewrite !fmap_cons in *.
    + simpl. rewrite length_delete by eauto.
      apply lookup_lt_Some in Hy. lia.
Qed.

End DatabaseFacts.

Lemma cleanupOldItems_keeps_protected_witness :
  let pinned := Database.mkItem (JS.lit "1") (JS.lit "old") (JS.lit "text") 5 None None
                  None (Some true) None in
  let plain := Database.mkItem (JS.lit "2") (JS.lit "new") (JS.lit "text") 9 None None
                 None None None in
  let s := Database.mkService
             (Some (Database.mkIdb (<[JS.lit "1" := pinned]> (<[JS.lit "2" := plain]> ∅))
                      (Some (Database.mkSettings 0 0)))) [] in
  pinned ∈ Database.stored (Database.cleanupOldItems 100 s).2
  ∧ Database.stored (Database.cleanupOldItems 100 s).2 = [pinned].
Proof.
  intros pinned plain s. split; [|by vm_compute].
  apply cleanupOldItems_keeps_protected.
  - intros k x. unfold s. simpl.
    intros [[<- <-]|[_ [[<- <-]|[_ ?]]%lookup_insert_Some]]%lookup_insert_Some;
      [done..|by simplify_map_eq].
  - apply list_elem_of_In. vm_compute. auto.
  - reflexivity.
Defined.


Import Database.

(** ** Scenarios of the store *)

Lemma keyed_inserts (xs : list ClipboardItem) (m : gmap (list N) ClipboardItem) :
  keyed m → keyed (foldl (λ m x, <[id x := x]> m) m xs).
Proof.
  revert m. induction xs as [|x xs IH]; intros m Hk; [done|].
  simpl. by apply IH, keyed_insert.
Qed.

Lemma keyed_storeOf (xs : list ClipboardItem) : keyed (Scenario.storeOf xs).
Proof. apply keyed_inserts, keyed_empty. Qed.

Lemma lookup_inserts (xs : list ClipboardItem) (m : gmap (list N) ClipboardItem)
    (k : list N) (x : ClipboardItem) :
  foldl (λ m x, <[id x := x]> m) m xs !! k = Some x → x ∈ xs ∨ m !! k = Some x.
Proof.
  revert m. induction xs as [|y xs IH]; intros m; simpl; [auto|].
  intros [H|H]%IH; [left; by apply list_elem_of_further|].
  apply lookup_insert_Some in H as [[_ <-]|[_ H]]; [left; apply list_elem_of_here|auto].
Qed.

Lemma lookup_storeOf (xs : list ClipboardItem) (k : list N) (x : ClipboardItem) :
  Scenario.storeOf xs !! k = Some x → x ∈ xs.
Proof. intros [?|H]%lookup_inserts; [done|]. by rewrite lookup_empty in H. Qed.

(** A pinned item of a new content and a new identifier is inserted, and
    in a store of protected records the eviction deletes nothing. *)
Lemma ingest_pinned (now : Z) (x : ClipboardItem) (m : gmap (list N) ClipboardItem)
    (o : option Settings) (l : list ClipboardItem) :
  (∀ k y, m !! k = Some y → isProtectedItem y = true) →
  (∀ k y, m !! k = Some y → content y ≠ content x) →
  isProtectedItem x = true → m !! id x = None →
  ingest (mkService (Some (mkIdb m o)) l) (now, x)
  = mkService (Some (mkIdb (<[id x := x]> m) (Some (default defaultSettings o)))) l.
Proof.
  intros Hprot Hnew Hx Hid. rewrite ingest_call, addClipboardItem_db.
  destruct (List.find _ _) as [y|] eqn:Hfind.
  { apply find_hasContent_Some in Hfind as [[k Hy]%elem_of_loaded Hc].
    by destruct (Hnew k y Hy). }
  rewrite Hid, cleanupOldItems_db. simpl.
  set (m1 := <[id x := x]> m).
  assert (Hprot1 : ∀ y, y ∈ loaded m1 → isProtectedItem y = true).
  { intros y [k [[_ <-]|[_ Hy]]%lookup_insert_Some]%elem_of_loaded; [done|by eapply Hprot]. }
  assert (countPass (default defaultSettings o) (loaded m1) = []) as ->.
  { unfold countPass. destruct (_ <? _); [|done].
    rewrite List_filter_none; [|by intros y ->%Hprot1].
    unfold sliceFrom. destruct (_ <? _); by rewrite drop_nil. }
  assert (agePass now (default defaultSettings o) (loaded m1) = []) as ->; [|done].
  apply List_filter_none. intros y ->%Hprot1. apply andb_false_r.
Qed.

Lemma ingestAll_pinned (now : Z) (xs : list ClipboardItem)
    (m : gmap (list N) ClipboardItem) (o : option Settings) (l : list ClipboardItem) :
  (∀ k y, m !! k = Some y → isProtectedItem y = true) →
  (∀ k y x, m !! k = Some y → x ∈ xs → content y ≠ content x) →
  (∀ x, x ∈ xs → m !! id x = None) →
  Forall (λ x, isProtectedItem x = true) xs →
  NoDup (id <$> xs) → NoDup (content <$> xs) →
  ∃ o', ingestAll (mkService (Some (mkIdb m o)) l) ((λ x, (now, x)) <$> xs)
        = mkService (Some (mkIdb (foldl (λ m x, <[id x := x]> m) m xs) o')) l
        ∧ default defaultSettings o' = default defaultSettings o.
Proof.
  revert m o. induction xs as [|x xs IH]; intros m o Hprot Hnew Hfresh Hxs Hids Hcs.
  { by exists o. }
  rewrite fmap_cons in Hids, Hcs.
  apply NoDup_cons in Hids as [Hid Hids]. apply NoDup_cons in Hcs as [Hc Hcs].
  apply Forall_cons in Hxs as [Hx Hxs].
  rewrite fmap_cons. simpl.
  rewrite ingest_pinned; [|done| |done|].
  - destruct (IH (<[id x := x]> m) (Some (default defaultSettings o)))
      as (o' & E & Ho'); [| | |done..|by exists o'].
    + intros k y [[_ <-]|[_ Hy]]%lookup_insert_Some; [done|by eapply Hprot].
    + intros k y z [[_ <-]|[_ Hy]]%lookup_insert_Some Hz.
      * intros E. apply Hc. rewrite E. by apply list_elem_of_fmap_2.
      * eapply Hnew; [done|]. by apply list_elem_of_further.
    + intros z Hz. rewrite lookup_insert_ne.
      * by apply Hfresh, list_elem_of_further.
      * intros E. apply Hid. rewrite E. by apply list_elem_of_fmap_2.
  - intros k y Hy. eapply Hnew; [done|]. apply list_elem_of_here.
  - apply Hfresh, list_elem_of_here.
Qed.

(** The store reached by the ingestion of the pinned items 1 to [k]. *)
Lemma ingestAll_pinned_items (k : nat) (now : Z) :
  ∃ o, ingestAll emptyDb (Scenario.ingestions (Some true) k now)
       = mkService (Some (mkIdb (Scenario.storeOf (Scenario.items (Some true) k)) o)) []
       ∧ default defaultSettings o = defaultSettings.
Proof.
  apply (ingestAll_pinned now (Scenario.items (Some true) k) ∅ None []).
  - intros i y H. by rewrite lookup_empty in H.
  - intros i y x H. by rewrite lookup_empty in H.
  - intros x _. apply lookup_empty.
  - apply Forall_forall. by intros x (n & -> & _)%list_elem_of_fmap.
  - unfold Scenario.items. rewrite <- list_fmap_compose.
    apply NoDup_fmap_2_strong; [|apply NoDup_seq].
    intros a b _ _ [= E]. by apply Nat2N.inj.
  - unfold Scenario.items. rewrite <- list_fmap_compose.
    apply NoDup_fmap_2_strong; [|apply NoDup_seq].
    intros a b _ _ [= E]. by apply Nat2N.inj.
Qed.

(** C3. The count pass where a record is protected.  The store holds one
    pinned record and 99 plain ones, the maximum is 100 and no record is
    older than the retention age.  A record of a new content is added:
    the insert succeeds and the eviction that follows it finds 101 records,
    more than the maximum, and deletes none of the 100 that are neither
    pinned nor categorised; the oldest of them is still stored, and running
    the eviction again changes nothing. *)
Theorem cleanupOldItems_over_limit :
  let items := Scenario.item (Some true) 1 :: map (Scenario.item None) (seq 2 99) in
  let s := mkService (Some (mkIdb (Scenario.storeOf items) (Some (mkSettings 100 30)))) [] in
  let r := addClipboardItem 5000 (Scenario.item None 101) s in
  let evictable := List.filter (λ x, negb (isProtectedItem x)) (stored r.2) in
  (List.length (stored s), r.1, List.length (stored r.2), List.length evictable,
   List.find (λ x, JS.eqb (id x) (id (Scenario.item None 2))) evictable)
  = (100%nat, Ok (), 101%nat, 100%nat, Some (Scenario.item None 2))
  ∧ Forall (λ x, timestamp (Scenario.item None 2) ≤ timestamp x) evictable
  ∧ cleanupOldItems 5000 r.2 = (Ok (), r.2).
Proof.
  cbv zeta. split; [vm_compute; reflexivity|]. split.
  - apply (bool_decide_unpack _). vm_compute. exact I.
  - vm_compute. reflexivity.
Qed.

Lemma cleanupOldItems_count_pass_witness :
  let m := Scenario.storeOf [Scenario.item None 1; Scenario.item None 2] in
  ∃ m', (cleanupOldItems 5000 (mkService (Some (mkIdb m (Some (mkSettings 1 30)))) [])).2
        = mkService (Some (mkIdb m' (Some (mkSettings 1 30)))) []
        ∧ Z.of_nat (size m') ≤ 1.
Proof.
  intros m.
  destruct (cleanupOldItems_count_pass 5000 m (Some (mkSettings 1 30)) [])
    as (m' & E & _ & Hsize & _).
  - apply keyed_storeOf.
  - vm_compute. lia.
  - simpl. lia.
  - intros k x Hx%lookup_storeOf.
    apply elem_of_cons in Hx as [->|Hx%list_elem_of_singleton]; [done|by subst].
  - exists m'. split; [exact E|]. apply Hsize. vm_compute. reflexivity.
Defined.

(** The step after the 1001 pinned items: the lookup loads 1000 records,
    item 1 is not among them, and the copy of its content is inserted. *)
Lemma recopy_after_1001 (o : option Settings) :
  default defaultSettings o = defaultSettings →
  let s := mkService
             (Some (mkIdb (Scenario.storeOf (Scenario.items (Some true) 1001)) o)) [] in
  let r := addClipboardItem 5000 Scenario.recopy s in
  List.length (stored r.2) = 1002%nat
  ∧ List.filter (hasContent (JS.lit "c" ++ [1%N])) (stored r.2)
    = [Scenario.recopy; Scenario.item (Some true) 1].
Proof.
  intros Ho s r. subst s r. rewrite addClipboardItem_db.
  assert (List.find (hasContent (content Scenario.recopy))
            (loaded (Scenario.storeOf (Scenario.items (Some true) 1001))) = None) as ->
    by (vm_compute; reflexivity).
  assert (Scenario.storeOf (Scenario.items (Some true) 1001) !! id Scenario.recopy = None)
    as -> by (vm_compute; reflexivity).
  rewrite cleanupOldItems_db, Ho. unfold stored. cbn [snd db clipboardItems].
  split; vm_compute; reflexivity.
Qed.

(** 1001 pinned items, then a copy of the content of the oldest: the
    lookup loads 1000 records and misses it, and the copy is inserted as a
    second record of that content. *)
Lemma ingest_deduplicates_counterexample :
  let calls := Scenario.ingestions (Some true) 1001 5000 ++ [(5000, Scenario.recopy)] in
  let s := ingestAll emptyDb calls in
  List.length (stored s) = 1002%nat
  ∧ List.filter (hasContent (JS.lit "c" ++ [1%N])) (stored s)
    = [Scenario.recopy; Scenario.item (Some true) 1].
Proof.
  intros calls s. subst s calls. rewrite ingestAll_snoc, ingest_call.
  destruct (ingestAll_pinned_items 1001 5000) as (o & -> & Ho).
  exact (recopy_after_1001 o Ho).
Qed.

Lemma ingest_deduplicates_witness :
  let calls := [(100, Scenario.item None 1); (200, Scenario.item None 2);
                (300, Scenario.recopy)] in
  NoDup (content <$> stored (ingestAll emptyDb calls))
  ∧ (List.length (stored (ingestAll emptyDb calls)) ≤ 500)%nat
  ∧ NoDup (content <$> stored (ingestAll emptyFallback calls)).
Proof.
  intros calls. destruct (ingest_deduplicates calls) as (Hdb & Hplain & Hfb).
  split; [|split].
  - apply Hdb. intros [|[|[|[|n]]]]; vm_compute; lia.
  - apply Hplain. intros call Hcall.
    repeat (apply elem_of_cons in Hcall as [->|Hcall]; [reflexivity|]).
    by apply elem_of_nil in Hcall.
  - apply Hfb. apply (bool_decide_unpack _). vm_compute. exact I.
Defined.

(** The store reached by ingesting 1001 pinned items holds item 1;
    ingesting a copy of its content adds a record instead of updating
    item 1. *)
Lemma addClipboardItem_recency_bump_counterexample :
  let s := ingestAll emptyDb (Scenario.ingestions (Some true) 1001 5000) in
  let existing := Scenario.item (Some true) 1 in
  let r := addClipboardItem 5000 Scenario.recopy s in
  List.filter (λ x, JS.eqb (id x) (id existing)) (stored s) = [existing]
  ∧ content Scenario.recopy = content existing
  ∧ List.length (stored s) = 1001%nat
  ∧ List.length (stored r.2) = 1002%nat
  ∧ List.filter (hasContent (JS.lit "c" ++ [1%N])) (stored r.2) = [Scenario.recopy; existing].
Proof.
  intros s existing r. subst s existing r.
  destruct (ingestAll_pinned_items 1001 5000) as (o & -> & Ho).
  split; [unfold stored; cbn [db clipboardItems]; vm_compute; reflexivity|].
  split; [reflexivity|].
  split; [unfold stored; cbn [db clipboardItems]; vm_compute; reflexivity|].
  exact (recopy_after_1001 o Ho).
Qed.

Lemma addClipboardItem_recency_bump_witness :
  let existing := Scenario.item (Some true) 1 in
  let s := mkService
             (Some (mkIdb (Scenario.storeOf [existing; Scenario.item None 2]) None)) [] in
  let r := addClipboardItem 5000 Scenario.recopy s in
  r.1 = Ok ()
  ∧ merged existing Scenario.recopy ∈ stored r.2
  ∧ List.length (stored r.2) = 2%nat.
Proof.
  intros existing s r.
  destruct (addClipboardItem_recency_bump 5000 s existing Scenario.recopy)
    as (Hok & _ & Hchar & _ & _ & Hlen & _).
  - apply keyed_storeOf.
  - vm_compute. lia.
  - exact I.
  - apply (bool_decide_unpack _). vm_compute. exact I.
  - apply list_elem_of_In. vm_compute. auto.
  - reflexivity.
  - split; [exact Hok|]. split; [apply Hchar; by left|]. exact Hlen.
Defined.


(** * Further properties *)

(** ** What a match tells about the input *)

Section RegexFacts.
Import Regex.

(** The code unit before the position reached after reading [u]. *)
Local Abbreviation prevAfter prev u := (from_option Some prev (last u)).

Lemma prevAfter_app (prev : option N) (u v : list N) :
  prevAfter (prevAfter prev u) v = prevAfter prev (u ++ v).
Proof.
  destruct v as [|c v] using rev_ind.
  - rewrite app_nil_r. reflexivity.
  - rewrite app_assoc, !last_snoc. reflexivity.
Qed.

Lemma prevAfter_cons (prev : option N) (c : N) (u : list N) :
  prevAfter (Some c) u = prevAfter prev (c :: u).
Proof. apply (prevAfter_app prev [c] u). Qed.

(** A match calls its continuation on a suffix of the input. *)
Lemma rmatch_sound (r : regex) :
  ∀ prev s k, rmatch r prev s k = true →
  ∃ u s', s = u ++ s' ∧ k (prevAfter prev u) s' = true.
Proof.
  induction r as [|p|r1 IH1 r2 IH2|r1 IH1 r2 IH2|r1 IH1| | |]; intros prev s k H.
  - exists [], s. split; [reflexivity | exact H].
  - destruct s as [|c s']; [discriminate|]. cbn [rmatch] in H.
    apply andb_true_iff in H as [_ H]. exists [c], s'. split; [reflexivity | exact H].
  - cbn [rmatch] in H. apply IH1 in H as (u1 & s1 & -> & H).
    apply IH2 in H as (u2 & s2 & -> & H).
    exists (u1 ++ u2), s2. split; [by rewrite app_assoc|].
    by rewrite <- prevAfter_app.
  - cbn [rmatch] in H. apply orb_true_iff in H as [H | H]; [by apply IH1 | by apply IH2].
  - cbn [rmatch] in H. remember (List.length s) as fuel eqn:E in H. clear E.
    revert prev s H. induction fuel as [|fuel IHf]; intros prev s H.
    + exists [], s. split; [reflexivity | exact H].
    + apply orb_true_iff in H as [H | H].
      * apply IH1 in H as (u1 & s1 & -> & H).
        apply andb_true_iff in H as [_ H].
        apply IHf in H as (u2 & s2 & -> & H).
        exists (u1 ++ u2), s2. split; [by rewrite app_assoc|].
        by rewrite <- prevAfter_app.
      * exists [], s. split; [reflexivity | exact H].
  - cbn [rmatch] in H. destruct prev; [discriminate|].
    exists [], s. split; [reflexivity | exact H].
  - cbn [rmatch] in H. destruct s; [|discriminate].
    exists [], []. split; [reflexivity | exact H].
  - cbn [rmatch] in H. apply andb_true_iff in H as [_ H].
    exists [], s. split; [reflexivity | exact H].
Qed.

Lemma rmatch_Seq_sound (r1 r2 : regex) prev s k :
  rmatch (Seq r1 r2) prev s k = true →
  ∃ u s', s = u ++ s' ∧ rmatch r2 (prevAfter prev u) s' k = true.
Proof. cbn [rmatch]. apply rmatch_sound. Qed.

Lemma rmatch_str (w : string) prev s k :
  rmatch (str w) prev s k = true → JS.startsWith s (JS.lit w) = true.
Proof.
  revert prev s. induction w as [|a w IH]; intros prev s H; [reflexivity|].
  cbn [str rmatch] in H. destruct s as [|c s]; [discriminate|].
  apply andb_true_iff in H as [Hc H]. cbn [JS.lit JS.startsWith].
  apply andb_true_iff. split; [exact Hc | by eapply IH].
Qed.

Lemma rmatch_alts (rs : list regex) prev s k :
  rmatch (alts rs) prev s k = true → ∃ r, r ∈ rs ∧ rmatch r prev s k = true.
Proof.
  induction rs as [|r rs IH]; [by destruct s|].
  destruct rs as [|r' rs].
  - intros H. exists r. split; [apply list_elem_of_here | exact H].
  - cbn [alts rmatch]. intros H. apply orb_true_iff in H as [H | H].
    + exists r. split; [apply list_elem_of_here | exact H].
    + destruct (IH H) as (x & Hx & Hm). exists x.
      split; [by apply list_elem_of_further | exact Hm].
Qed.

Lemma alts_rmatch (rs : list regex) (r : regex) prev s k :
  r ∈ rs → rmatch r prev s k = true → rmatch (alts rs) prev s k = true.
Proof.
  induction rs as [|r0 rs IH]; [by intros ?%elem_of_nil|].
  intros Hin Hm. destruct rs as [|r' rs].
  - apply list_elem_of_singleton in Hin as <-. exact Hm.
  - cbn [alts rmatch]. apply orb_true_iff.
    apply elem_of_cons in Hin as [<- | Hin]; [by left | right; by apply IH].
Qed.

(** A match found at a later position is found by [search]. *)
Lemma search_at (r : regex) (u : list N) :
  ∀ prev s, rmatch r (prevAfter prev u) s (λ _ _, true) = true →
  search r prev (u ++ s) = true.
Proof.
  induction u as [|c u IH]; intros prev s H.
  - destruct s; cbn [app search]; apply orb_true_iff; by left.
  - cbn [app search]. apply orb_true_iff. right. apply IH.
    by rewrite (prevAfter_cons prev).
Qed.

Lemma includes_at (u s p : list N) :
  JS.startsWith s p = true → JS.includes (u ++ s) p = true.
Proof.
  intros H. induction u as [|c u IH].
  - destruct s; cbn [app JS.includes]; apply orb_true_iff; by left.
  - cbn [app JS.includes]. apply orb_true_iff. by right.
Qed.

End RegexFacts.

(** ** The source-platform heuristics *)

Section PlatformFacts.
Import Regex Analyzer.

Lemma startsWith_includes (s p : list N) :
  JS.startsWith s p = true → JS.includes s p = true.
Proof. intros H. destruct s; cbn [JS.includes]; apply orb_true_iff; by left. Qed.

Lemma includes_app_l (u s p : list N) :
  JS.includes s p = true → JS.includes (u ++ s) p = true.
Proof.
  intros H. induction u as [|c u IH]; [exact H|].
  cbn [app JS.includes]. apply orb_true_iff. by right.
Qed.

Lemma rmatch_Seq_str (w : string) (r : regex) prev s k :
  rmatch (Seq (str w) r) prev s k = true → JS.startsWith s (JS.lit w) = true.
Proof. intros H. eapply rmatch_str. exact H. Qed.

Lemma rmatch_Seq_Class (p : N → bool) (r : regex) prev s k :
  rmatch (Seq (Class p) r) prev s k
  = match s with c :: s' => p c && rmatch r (Some c) s' k | [] => false end.
Proof. by destruct s. Qed.

Lemma source_ext_weaken prev s :
  rmatch (Seq (Class (chr ".")) (words "ts|js|py|java")) prev s (λ _ _, true) = true →
  rmatch re_source_ext prev s (λ _ _, true) = true.
Proof.
  unfold re_source_ext. cbn [seqs]. rewrite !rmatch_Seq_Class.
  destruct s as [|c s']; [done|]. intros [Hc H]%andb_true_iff.
  apply andb_true_iff. split; [exact Hc|].
  unfold words in H |- *. apply rmatch_alts in H as (r & Hr & Hm).
  eapply alts_rmatch; [|exact Hm].
  apply list_elem_of_In, in_map_iff in Hr as (w & <- & Hw').
  apply list_elem_of_In, in_map.
  vm_compute in Hw'. destruct Hw' as [<-|[<-|[<-|[<-|[]]]]];
    vm_compute; repeat first [left; reflexivity | right].
Qed.

(** Whatever [/^\s*⏺\s*Write\(.*\.(ts|js|py|java)/] matches contains
    [Write(] and matches [/\.(ts|js|py|java|cpp|cs|php|rb|go|rs|tsx|jsx)/]. *)
Lemma file_operation_shadowed (t : list N) :
  test re_file_operation t = true →
  has t "Write(" = true ∧ test re_source_ext t = true.
Proof.
  unfold re_file_operation. cbn [seqs]. rewrite test_anchored. intros H.
  apply rmatch_Seq_sound in H as (u1 & s1 & -> & H).
  apply rmatch_Seq_sound in H as (u2 & s2 & -> & H).
  apply rmatch_Seq_sound in H as (u3 & s3 & -> & H).
  pose proof (rmatch_Seq_str _ _ _ _ _ H) as Hw.
  apply rmatch_Seq_sound in H as (u4 & s4 & -> & H).
  apply rmatch_Seq_sound in H as (u5 & s5 & -> & H).
  split.
  - unfold has. do 3 apply includes_app_l. by apply startsWith_includes.
  - rewrite !prevAfter_app in H. unfold test. rewrite !app_assoc.
    apply search_at. by apply source_ext_weaken.
Qed.

Ltac in_table :=
  cbn [SourcePlatformResult.platform SourcePlatformResult.confidence
       ContentTypeResult.type ContentTypeResult.confidence];
  repeat first [apply list_elem_of_here | apply list_elem_of_further].

Lemma detectSourcePlatform_cases (content : list N) :
  let r := detectSourcePlatform content in
  (SourcePlatformResult.platform r, SourcePlatformResult.confidence r)
  ∈ [(JS.lit "VS Code", 85); (JS.lit "Terminal", 80); (JS.lit "Terminal", 85);
     (JS.lit "Browser", 75); (JS.lit "File Explorer", 70);
     (JS.lit "Notes App", 75); (JS.lit "VS Code", 70); (JS.lit "Unknown", 20)].
Proof.
  unfold detectSourcePlatform. cbv zeta. set (t := JS.trim content).
  destruct (has t "Write(" && test re_source_ext t) eqn:E1; [in_table|].
  destruct (test re_file_operation t) eqn:E2.
  { apply file_operation_shadowed in E2 as [E2 E3].
    rewrite E2, E3 in E1. discriminate. }
  repeat match goal with
         | |- context [if ?b then _ else _] => destruct b
         end; in_table.
Qed.

(** X1: source detection reads its argument only through [content.trim()]:
    [detectSourcePlatform] and [enhancedDetection] give the same result on a
    content and on the content with leading and trailing whitespace
    removed. *)
Theorem detection_trim (entropyHigh : list N → bool) (content detectedApp : list N) :
  detectSourcePlatform (JS.trim content) = detectSourcePlatform content
  ∧ enhancedDetection entropyHigh (JS.trim content) detectedApp
    = enhancedDetection entropyHigh content detectedApp.
Proof.
  assert (Hp : detectSourcePlatform (JS.trim content) = detectSourcePlatform content).
  { unfold detectSourcePlatform. by rewrite trim_idemp. }
  split; [exact Hp|].
  unfold enhancedDetection. rewrite Hp.
  assert (Ha : analyzeContentType entropyHigh (JS.trim content)
               = analyzeContentType entropyHigh content).
  { unfold analyzeContentType. by rewrite trim_idemp. }
  by rewrite Ha.
Qed.

(** X2: [detectSourcePlatform] returns one of eight pairs of a label and a
    confidence.  The pair (VS Code, 90) of the rule "VS Code file operation"
    is not among them: every content matched by its pattern is taken by the
    rule "VS Code Write command pattern" before it. *)
Theorem detectSourcePlatform_outcomes (content : list N) :
  let r := detectSourcePlatform content in
  (SourcePlatformResult.platform r, SourcePlatformResult.confidence r)
  ∈ [(JS.lit "VS Code", 85); (JS.lit "Terminal", 80); (JS.lit "Terminal", 85);
     (JS.lit "Browser", 75); (JS.lit "File Explorer", 70);
     (JS.lit "Notes App", 75); (JS.lit "VS Code", 70); (JS.lit "Unknown", 20)]
  ∧ SourcePlatformResult.confidence r ≠ 90
  ∧ (test re_file_operation (JS.trim content) = true →
     r = SourcePlatformResult.mk (JS.lit "VS Code") 85
           [JS.lit "VS Code Write command pattern"]).
Proof.
  intros r. pose proof (detectSourcePlatform_cases content) as H.
  split; [exact H|]. split.
  - fold r in H. cbv zeta in H. intros E. rewrite E in H.
    repeat (apply elem_of_cons in H as [H | H]; [discriminate|]).
    by apply elem_of_nil in H.
  - intros E. apply file_operation_shadowed in E as [E1 E2].
    subst r. unfold detectSourcePlatform. cbv zeta. by rewrite E1, E2.
Qed.

Lemma enhancedDetection_cases (entropyHigh : list N → bool)
    (content detectedApp : list N) :
  let r := enhancedDetection entropyHigh content detectedApp in
  (DetectionResult.sourceApp r = detectedApp
   ∨ DetectionResult.sourceApp r
     ∈ [JS.lit "VS Code"; JS.lit "Terminal"; JS.lit "Browser";
        JS.lit "File Explorer"; JS.lit "Notes App"; JS.lit "Unknown"])
  ∧ DetectionResult.sourceApp r ≠ []
  ∧ DetectionResult.sourceApp r ≠ JS.lit "System"
  ∧ DetectionResult.sourceApp r ≠ JS.lit "Finder"
  ∧ DetectionResult.confidence r ∈ [30; 60; 70; 75; 80; 85].
Proof.
  intros r. subst r. unfold enhancedDetection.
  pose proof (detectSourcePlatform_cases content) as H. cbv zeta in H |- *.
  destruct (detectSourcePlatform content) as [p c ind].
  cbn [SourcePlatformResult.platform SourcePlatformResult.confidence
       SourcePlatformResult.indicators] in H |- *.
  unfold JS.eqb.
  repeat (apply elem_of_cons in H as [H | H];
          [injection H as -> ->;
           repeat case_bool_decide; cbn [negb andb Z.ltb Z.compare Pos.compare
             Pos.compare_cont Z.max DetectionResult.sourceApp
             DetectionResult.confidence];
           (split; [first [left; reflexivity | right; in_table]|]);
           (split; [first [assumption | discriminate]|]);
           (split; [first [assumption | discriminate]|]);
           (split; [first [assumption | discriminate]|]);
           in_table|]).
  by apply elem_of_nil in H.
Qed.


(** X3: [enhancedDetection] never reports the empty string, [System] or
    [Finder] as the source application: it reports the detected application
    or one of the six labels of the heuristics, with a confidence of 30, 60,
    70, 75, 80 or 85. *)
Theorem enhancedDetection_source (entropyHigh : list N → bool)
    (content detectedApp : list N) :
  let r := enhancedDetection entropyHigh content detectedApp in
  (DetectionResult.sourceApp r = detectedApp
   ∨ DetectionResult.sourceApp r
     ∈ [JS.lit "VS Code"; JS.lit "Terminal"; JS.lit "Browser";
        JS.lit "File Explorer"; JS.lit "Notes App"; JS.lit "Unknown"])
  ∧ DetectionResult.sourceApp r ≠ []
  ∧ DetectionResult.sourceApp r ≠ JS.lit "System"
  ∧ DetectionResult.sourceApp r ≠ JS.lit "Finder"
  ∧ DetectionResult.confidence r ∈ [30; 60; 70; 75; 80; 85].
Proof. apply enhancedDetection_cases. Qed.

End PlatformFacts.

(** ** The classifier *)

Section ClassifierFacts.
Import Regex Analyzer.

Lemma scan_multiple (t : list N) (inds : list (regex * list N)) :
  ∀ st, ∃ k : nat, (k ≤ List.length inds)%nat
                   ∧ (foldl (scan t) st inds).1 = st.1 + 15 * Z.of_nat k.
Proof.
  induction inds as [|i inds IH]; intros st.
  - exists 0%nat. cbn [foldl List.length]. split; lia.
  - cbn [foldl List.length]. destruct (IH (scan t st i)) as (k & Hk & E).
    assert (Hs : (scan t st i).1 = st.1 + 15 ∨ (scan t st i).1 = st.1).
    { unfold scan. destruct (test i.1 t); auto. }
    destruct Hs as [Hs | Hs]; [exists (S k) | exists k];
      (split; [lia|]); rewrite E, Hs; lia.
Qed.

Lemma code_confidence (score : Z) (k : nat) :
  30 ≤ score → score = 15 * Z.of_nat k → (k ≤ 8)%nat →
  Z.min 95 score ∈ [30; 45; 60; 75; 90; 95].
Proof.
  intros H30 -> Hk.
  assert (k = 2 ∨ k = 3 ∨ k = 4 ∨ k = 5 ∨ k = 6 ∨ k = 7 ∨ k = 8)%nat
    as [->|[->|[->|[->|[->|[->| ->]]]]]] by lia;
    vm_compute (Z.min _ _);
    repeat first [apply list_elem_of_here | apply list_elem_of_further].
Qed.

Ltac in_types :=
  cbn [ContentTypeResult.type ContentTypeResult.confidence];
  repeat first [apply list_elem_of_here | apply list_elem_of_further].

Lemma afterJson_outcomes (entropyHigh : list N → bool) (t : list N) :
  let r := afterJson entropyHigh t in
  (ContentTypeResult.type r, ContentTypeResult.confidence r)
  ∈ [(JS.lit "url", 95); (JS.lit "email", 95); (JS.lit "image", 95);
     (JS.lit "image", 90); (JS.lit "color", 95); (JS.lit "password", 70);
     (JS.lit "text", 60)].
Proof.
  unfold afterJson. cbv zeta.
  repeat match goal with
         | |- context [if ?b then _ else _] => destruct b
         end; in_types.
Qed.

Lemma analyzeContentType_cases (entropyHigh : list N → bool) (content : list N) :
  let r := analyzeContentType entropyHigh content in
  (ContentTypeResult.type r, ContentTypeResult.confidence r)
  ∈ [(JS.lit "api-key", 95);
     (JS.lit "code", 30); (JS.lit "code", 45); (JS.lit "code", 60);
     (JS.lit "code", 75); (JS.lit "code", 90); (JS.lit "code", 95);
     (JS.lit "json", 90); (JS.lit "url", 95); (JS.lit "email", 95);
     (JS.lit "image", 95); (JS.lit "image", 90); (JS.lit "color", 95);
     (JS.lit "password", 70); (JS.lit "text", 60)].
Proof.
  unfold analyzeContentType. cbv zeta. set (t := JS.trim content).
  destruct (test re_openai t); [in_types|].
  destruct (test re_stripe_pk t || test re_stripe_sk t); [in_types|].
  destruct (test re_github t); [in_types|].
  set (pats := if test re_base64 t && (40 <? JS.length t) then _ else _).
  destruct (scan_multiple t codeIndicators (0, pats)) as (k & Hk & E).
  fold (codeScan t pats) in E. destruct (codeScan t pats) as [score ps].
  cbn [fst] in E. destruct (30 <=? score) eqn:H30.
  - apply Z.leb_le in H30.
    pose proof (code_confidence score k H30 E Hk) as Hc.
    cbn [ContentTypeResult.type ContentTypeResult.confidence].
    repeat (apply elem_of_cons in Hc as [-> | Hc];
            [repeat first [apply list_elem_of_here | apply list_elem_of_further]|]).
    by apply elem_of_nil in Hc.
  - destruct (bracketBounded t && Json.parses t); [in_types|].
    pose proof (afterJson_outcomes entropyHigh t) as Ha. cbv zeta in Ha.
    repeat (apply elem_of_cons in Ha as [-> | Ha]; [in_types|]).
    by apply elem_of_nil in Ha.
Qed.

(** X4: the confidence of [analyzeContentType] is fixed by the type it
    returns, except for [code], whose confidence is [min(95, 15 k)] for the
    number [k >= 2] of code indicators found, and for [image] (95 for a data
    URI, 90 for a known base64 signature). *)
Theorem analyzeContentType_outcomes (entropyHigh : list N → bool) (content : list N) :
  let r := analyzeContentType entropyHigh content in
  (ContentTypeResult.type r, ContentTypeResult.confidence r)
  ∈ [(JS.lit "api-key", 95);
     (JS.lit "code", 30); (JS.lit "code", 45); (JS.lit "code", 60);
     (JS.lit "code", 75); (JS.lit "code", 90); (JS.lit "code", 95);
     (JS.lit "json", 90); (JS.lit "url", 95); (JS.lit "email", 95);
     (JS.lit "image", 95); (JS.lit "image", 90); (JS.lit "color", 95);
     (JS.lit "password", 70); (JS.lit "text", 60)].
Proof. apply analyzeContentType_cases. Qed.

(** *** The entropy rule *)

Lemma bump_sum (ch : list N) (f : list (list N * Z)) :
  foldr Z.add 0 (map snd (bump ch f)) = foldr Z.add 0 (map snd f) + 1.
Proof.
  induction f as [|[c n] f IH]; cbn [bump map foldr snd]; [lia|].
  destruct (JS.eqb c ch); cbn [map foldr snd]; lia.
Qed.

Lemma bump_pos (ch : list N) (f : list (list N * Z)) :
  Forall (λ p, 1 ≤ p.2) f → Forall (λ p, 1 ≤ p.2) (bump ch f).
Proof.
  induction f as [|[c n] f IH]; cbn [bump]; intros H.
  - constructor; [cbn; lia | constructor].
  - apply Forall_cons in H as [Hn H]. cbn [snd] in Hn.
    destruct (JS.eqb c ch); constructor; cbn [snd]; try lia; auto.
Qed.

Lemma frequencies_spec (s : list N) :
  foldr Z.add 0 (map snd (frequencies s)) = Z.of_nat (List.length (JS.codePoints s))
  ∧ Forall (λ p, 1 ≤ p.2) (frequencies s).
Proof.
  unfold frequencies.
  assert (G : ∀ l f, Forall (λ p : list N * Z, 1 ≤ p.2) f →
            foldr Z.add 0 (map snd (foldl (λ freq ch, bump ch freq) f l))
            = foldr Z.add 0 (map snd f) + Z.of_nat (List.length l)
            ∧ Forall (λ p, 1 ≤ p.2) (foldl (λ freq ch, bump ch freq) f l)).
  { induction l as [|ch l IH]; intros f Hf; cbn [foldl List.length].
    - split; [lia | exact Hf].
    - destruct (IH (bump ch f) (bump_pos ch f Hf)) as [E H].
      split; [|exact H]. rewrite E, bump_sum. lia. }
  destruct (G (JS.codePoints s) [] (Forall_nil_2 _)) as [E H].
  split; [|exact H]. rewrite E. cbn [map foldr]. lia.
Qed.

Lemma codePoints_cons (c d : N) (s : list N) :
  JS.codePoints (c :: d :: s)
  = if ((55296 <=? c) && (c <=? 56319) && (56320 <=? d) && (d <=? 57343))%N
    then [c; d] :: JS.codePoints s else [c] :: JS.codePoints (d :: s).
Proof. reflexivity. Qed.

Lemma length_codePoints (s : list N) :
  (List.length (JS.codePoints s) ≤ List.length s)%nat.
Proof.
  assert (G : ∀ n s, (List.length s ≤ n)%nat →
                     (List.length (JS.codePoints s) ≤ List.length s)%nat).
  { clear s. induction n as [|n IH]; intros s Hs.
    - destruct s; [cbn; lia | cbn in Hs; lia].
    - destruct s as [|c [|d s]]; [cbn; lia | cbn; lia |].
      rewrite codePoints_cons. cbn [List.length] in Hs.
      destruct (_ && _); cbn [List.length].
      + pose proof (IH s ltac:(lia)). lia.
      + pose proof (IH (d :: s) ltac:(cbn [List.length]; lia)) as H.
        cbn [List.length] in H. lia. }
  by apply (G (List.length s)).
Qed.

Lemma product_pos (b : Z) (counts : list Z) :
  0 ≤ b → Forall (λ c, 1 ≤ c) counts →
  1 ≤ foldr (λ c acc, c ^ (b * c) * acc) 1 counts.
Proof.
  intros Hb. induction 1 as [|c counts Hc _ IH]; cbn [foldr]; [lia|].
  assert (1 ≤ c ^ (b * c)).
  { change 1 with (Z.succ 0). apply Z.le_succ_l, Z.pow_pos_nonneg; nia. }
  nia.
Qed.

Lemma counts_pos (s : list N) : Forall (λ c, 1 ≤ c) (map snd (frequencies s)).
Proof.
  destruct (frequencies_spec s) as [_ Hpos].
  apply Forall_forall. intros c Hc.
  apply list_elem_of_In, in_map_iff in Hc as ([ch c'] & <- & Hin).
  rewrite Forall_forall in Hpos. apply (Hpos (ch, c')), list_elem_of_In, Hin.
Qed.

Lemma pow_bound (n C P : Z) :
  0 ≤ C ≤ n → 1 ≤ n ≤ 11 → 1 ≤ P → n ^ (32 * C) ≤ 2 ^ (111 * n) * P.
Proof.
  intros HC Hn HP.
  assert (H1 : n ^ (32 * C) ≤ n ^ (32 * n)) by (apply Z.pow_le_mono_r; lia).
  assert (H2 : n ^ 32 ≤ 2 ^ 111).
  { transitivity (11 ^ 32); [apply Z.pow_le_mono_l; lia|].
    apply Z.leb_le. vm_compute. reflexivity. }
  assert (H3 : 0 ≤ n ^ 32) by (apply Z.pow_nonneg; lia).
  assert (E1 : n ^ (32 * n) = (n ^ 32) ^ n) by (apply Z.pow_mul_r; lia).
  assert (E2 : 2 ^ (111 * n) = (2 ^ 111) ^ n) by (apply Z.pow_mul_r; lia).
  rewrite E1 in H1. rewrite E2. clear E1 E2.
  remember (n ^ 32) as x eqn:Ex. remember (2 ^ 111) as y eqn:Ey. clear Ex Ey.
  assert (H4 : x ^ n ≤ y ^ n) by (apply Z.pow_le_mono_l; lia).
  assert (H5 : 0 ≤ y ^ n) by (apply Z.pow_nonneg; lia).
  remember (x ^ n) as u eqn:Eu. remember (y ^ n) as v eqn:Ev.
  remember (n ^ (32 * C)) as w eqn:Ew. clear Eu Ev Ew. nia.
Qed.

(** An entropy above 111/32 bits takes twelve code units: the entropy of
    a string of length [n] is at most [log2 n], and [11^32 < 2^111]. *)
Lemma above_length (s : list N) :
  Entropy.above 111 32 s = true → 12 ≤ JS.length s.
Proof.
  unfold Entropy.above. cbv zeta. intros H%Z.ltb_lt.
  destruct (frequencies_spec s) as [EC _]. rewrite EC in H.
  pose proof (length_codePoints s) as HC.
  pose proof (product_pos 32 _ ltac:(lia) (counts_pos s)) as HP.
  unfold JS.length in *.
  set (n := Z.of_nat (List.length s)) in *.
  set (C := Z.of_nat (List.length (JS.codePoints s))) in *.
  set (P := foldr _ 1 _) in *.
  assert (HCn : 0 ≤ C ≤ n) by (subst C n; lia).
  destruct (Z.le_gt_cases 12 n) as [|Hn]; [assumption | exfalso].
  destruct (Z.eq_dec n 0) as [E0 | Hn0].
  - assert (C = 0) as -> by lia. rewrite E0 in H.
    change (2 ^ (111 * 0)) with 1 in H. change (0 ^ (32 * 0)) with 1 in H. lia.
  - assert (Hn1 : 1 ≤ n ≤ 11) by (subst n; lia).
    pose proof (pow_bound n C P HCn Hn1 HP) as Hb.
    clearbody n C P. lia.
Qed.

(** The comparison on the lower of the two bounds is one of the rounded
    comparisons. *)
Lemma rounded_above : Entropy.rounded (Entropy.above 111 32).
Proof.
  intros s _. split; [|done]. unfold Entropy.above. cbv zeta.
  intros H%Z.ltb_lt. apply Z.ltb_lt.
  pose proof (product_pos 32 _ ltac:(lia) (counts_pos s)) as HP.
  set (P := foldr _ 1 _) in *. set (R := _ ^ (32 * _)) in *.
  assert (2 ^ (111 * JS.length s) ≤ 2 ^ (113 * JS.length s)).
  { apply Z.pow_le_mono_r; unfold JS.length; lia. }
  assert (0 < 2 ^ (111 * JS.length s))
    by (apply Z.pow_pos_nonneg; unfold JS.length; lia).
  nia.
Qed.

(** X5: whatever the rounding of the entropy, as long as the double is
    within 1/32 of the real value, a content is classified [password] only
    if its trimmed form has between 12 and 128 code units; the bound [8]
    written in the source is never the one that decides. *)
Theorem password_min_length (entropyHigh : list N → bool) (content : list N) :
  Entropy.rounded entropyHigh →
  let r := analyzeContentType entropyHigh content in
  ContentTypeResult.type r = JS.lit "password" →
  12 ≤ JS.length (JS.trim content) ≤ 128
  ∧ ContentTypeResult.confidence r = 70
  ∧ passwordShape (JS.trim content) = true.
Proof.
  intros Hround. unfold analyzeContentType. cbv zeta. set (t := JS.trim content).
  destruct (test re_openai t); [discriminate|].
  destruct (test re_stripe_pk t || test re_stripe_sk t); [discriminate|].
  destruct (test re_github t); [discriminate|].
  destruct (codeScan t _) as [score ps].
  destruct (30 <=? score); [discriminate|].
  destruct (bracketBounded t && Json.parses t); [discriminate|].
  unfold afterJson.
  destruct (test re_url t); [discriminate|].
  destruct (test re_email t); [discriminate|].
  destruct (test re_data_uri t); [discriminate|].
  destruct (test re_png t || test re_jpeg t || test re_gif t); [discriminate|].
  destruct (test re_color t); [discriminate|].
  destruct (_ && _) eqn:E; [|discriminate].
  intros _. apply andb_true_iff in E as [E Hshape].
  apply andb_true_iff in E as [E H128]. apply andb_true_iff in E as [E _].
  apply Z.leb_le in H128.
  apply (Hround t H128), above_length in E.
  repeat split; try assumption; reflexivity.
Qed.

End ClassifierFacts.

Lemma detectSourcePlatform_outcomes_witness :
  Analyzer.detectSourcePlatform ([9210%N] ++ JS.lit " Write(a.ts")
  = SourcePlatformResult.mk (JS.lit "VS Code") 85
      [JS.lit "VS Code Write command pattern"].
Proof.
  destruct (detectSourcePlatform_outcomes ([9210%N] ++ JS.lit " Write(a.ts"))
    as (_ & _ & H).
  apply H. vm_compute. reflexivity.
Defined.

Lemma password_min_length_witness :
  let r := Analyzer.analyzeContentType (Entropy.above 111 32)
             (JS.lit "{Abcdefgh1jklmnop}") in
  ContentTypeResult.type r = JS.lit "password"
  ∧ 12 ≤ JS.length (JS.trim (JS.lit "{Abcdefgh1jklmnop}")) ≤ 128.
Proof.
  intros r. split; [vm_compute; reflexivity|].
  destruct (password_min_length (Entropy.above 111 32) (JS.lit "{Abcdefgh1jklmnop}")
              rounded_above) as (H & _).
  - vm_compute. reflexivity.
  - exact H.
Defined.


(** ** The main process *)

Section MainFacts.
Import Poller Main.
Variable entropyHigh : list N → bool.

(** The three ways a run of the poller ends. *)
Lemma tick_cases (st : Poller.State) (i : Tick) :
  tick entropyHigh st i = (st, None)
  ∨ (∃ c, currentContent i = Some c ∧ passesGuard st i c = true
          ∧ isInternalCopy st = true
          ∧ tick entropyHigh st i
            = (mkState c (lastClipboardHash st) (lastProcessedTime st) true
                 (lastActiveApp st), None))
  ∨ (∃ c, currentContent i = Some c ∧ passesGuard st i c = true
          ∧ isInternalCopy st = false
          ∧ tick entropyHigh st i
            = (mkState c (contentHash c) (now i) false (lastActiveApp st),
               if overlayOpen i then
                 let analysis :=
                   Analyzer.enhancedDetection entropyHigh c (detectedApp st i) in
                 Some (ClipboardData.mk c (sendTime i)
                         (DetectionResult.contentType analysis)
                         (DetectionResult.sourceApp analysis)
                         (DetectionResult.confidence analysis)
                         (DetectionResult.reasoning analysis))
               else None)).
Proof.
  destruct (currentContent i) as [c|] eqn:Hc.
  2: { left. unfold tick. by rewrite Hc. }
  destruct (decide (c = lastClipboardContent st)) as [-> | Hne].
  { left. unfold tick. rewrite Hc. unfold JS.eqb.
    by rewrite bool_decide_eq_true_2. }
  rewrite (tick_changed entropyHigh st i c Hc Hne).
  destruct (passesGuard st i c) eqn:Hg; [|by left].
  destruct (isInternalCopy st) eqn:Hf; right; [left | right]; exists c; by repeat split.
Qed.

Lemma run_cons (st : Main.State) (e : Event) (es : list Event) :
  run entropyHigh st (e :: es)
  = ((run entropyHigh (step entropyHigh st e).1 es).1,
     match (step entropyHigh st e).2 with
     | Some d => d :: (run entropyHigh (step entropyHigh st e).1 es).2
     | None => (run entropyHigh (step entropyHigh st e).1 es).2
     end).
Proof. reflexivity. Qed.

(** The invariant of the main process. *)
Lemma step_invariant (st : Main.State) (e : Event) :
  isOwnProcess (lastActiveApp (monitor st)) = false →
  (List.length (appHistory st) ≤ 10)%nat →
  Forall (λ h, isOwnProcess h.1 = false) (appHistory st) →
  (isInternalCopy (monitor st) = true → (0 < internalCopyTimers st)%nat) →
  let st' := (step entropyHigh st e).1 in
  isOwnProcess (lastActiveApp (monitor st')) = false
  ∧ (List.length (appHistory st') ≤ 10)%nat
  ∧ Forall (λ h, isOwnProcess h.1 = false) (appHistory st')
  ∧ (isInternalCopy (monitor st') = true → (0 < internalCopyTimers st')%nat).
Proof.
  intros Hown Hlen Hall Hflag.
  destruct e as [i|app t|v app| |]; cbn [step fst snd]; cbv zeta.
  - destruct (tick_cases (monitor st) i)
      as [E | [(c & _ & _ & Hf & E) | (c & _ & _ & Hf & E)]];
      rewrite E; cbn [fst monitor appHistory internalCopyTimers lastActiveApp
                      isInternalCopy]; repeat split; auto; discriminate.
  - unfold trackActiveApp. destruct app as [app|]; [|by repeat split].
    destruct (negb (isOwnProcess app)) eqn:Happ; [|by repeat split].
    apply negb_true_iff in Happ.
    cbn [monitor appHistory internalCopyTimers]. repeat split.
    + destruct (negb _); [exact Happ | exact Hown].
    + destruct (10 <? _)%nat eqn:H10.
      * rewrite length_drop, length_app. cbn [List.length]. lia.
      * apply Nat.ltb_ge in H10. exact H10.
    + assert (Forall (λ h : list N * Z, isOwnProcess h.1 = false)
                (appHistory st ++ [(app, t)])) as HF.
      { apply Forall_app. split; [exact Hall|]. by constructor. }
      destruct (10 <? _)%nat; [by apply Forall_drop | exact HF].
    + destruct (negb _); exact Hflag.
  - unfold globalShortcut. destruct v; [by repeat split|].
    destruct app as [app|]; [|by repeat split].
    destruct (_ && _) eqn:Happ; [|by repeat split].
    apply andb_true_iff in Happ as [_ Happ%negb_true_iff].
    by repeat split.
  - cbn. repeat split; auto. lia.
  - unfold internalCopyTimeout.
    destruct (internalCopyTimers st) as [|n] eqn:Hn.
    + repeat split; auto. intros Hf. specialize (Hflag Hf). lia.
    + cbn. repeat split; auto. discriminate.
Qed.

Lemma run_snoc (es : list Event) (e : Event) :
  ∀ st, (run entropyHigh st (es ++ [e])).1
        = (step entropyHigh (run entropyHigh st es).1 e).1.
Proof.
  induction es as [|e' es IH]; intros st; [reflexivity|].
  cbn [app]. rewrite !run_cons. cbn [fst]. apply IH.
Qed.

Lemma run_invariant (es : list Event) :
  let st := (run entropyHigh Main.initial es).1 in
  isOwnProcess (lastActiveApp (monitor st)) = false
  ∧ (List.length (appHistory st) ≤ 10)%nat
  ∧ Forall (λ h, isOwnProcess h.1 = false) (appHistory st)
  ∧ (isInternalCopy (monitor st) = true → (0 < internalCopyTimers st)%nat).
Proof.
  induction es as [|e es IH] using rev_ind.
  - cbn. repeat split; [lia | constructor | discriminate].
  - cbv zeta. rewrite run_snoc. destruct IH as (H1 & H2 & H3 & H4).
    by apply step_invariant.
Qed.

(** X8: in every state the main process reaches from its start, the
    tracked application [lastActiveApp] is not [Electron] or [ClipFlow],
    [appHistory] holds at most ten entries, none of them for [Electron] or
    [ClipFlow], and while [isInternalCopy] is set a timer that clears it is
    pending. *)
Theorem main_invariant (es : list Event) :
  let st := (run entropyHigh Main.initial es).1 in
  (lastActiveApp (monitor st) ∉ Analyzer.ownProcessLabels)
  ∧ (List.length (appHistory st) ≤ 10)%nat
  ∧ Forall (λ h, h.1 ∉ Analyzer.ownProcessLabels) (appHistory st)
  ∧ (isInternalCopy (monitor st) = true → (0 < internalCopyTimers st)%nat).
Proof.
  assert (Hown : ∀ app, isOwnProcess app = false → app ∉ Analyzer.ownProcessLabels).
  { intros app H. unfold isOwnProcess, JS.eqb in H.
    apply orb_false_iff in H as [H1%bool_decide_eq_false H2%bool_decide_eq_false].
    unfold Analyzer.ownProcessLabels. intros Hin.
    apply elem_of_cons in Hin as [-> | Hin]; [done|].
    apply list_elem_of_singleton in Hin as ->. done. }
  destruct (run_invariant es) as (H1 & H2 & H3 & H4). cbv zeta.
  repeat split; auto.
  eapply Forall_impl; [exact H3|]. intros h. apply Hown.
Qed.

(** The application handed to the detection is never the manager itself. *)
Lemma detectedApp_foreign (st : Poller.State) (i : Tick) :
  isOwnProcess (lastActiveApp st) = false → isOwnProcess (detectedApp st i) = false.
Proof.
  intros H. unfold detectedApp.
  assert (Hor : isOwnProcess (JS.or (lastActiveApp st) (JS.lit "System")) = false).
  { unfold JS.or. destruct (lastActiveApp st); [reflexivity | exact H]. }
  destruct (activeApplication i) as [app|]; [|exact Hor].
  destruct (_ && _) eqn:E; [|exact Hor].
  by apply andb_true_iff in E as [_ E%negb_true_iff].
Qed.

Lemma run_sources (es : list Event) :
  ∀ st, isOwnProcess (lastActiveApp (monitor st)) = false →
        Forall (λ a, isOwnProcess (ClipboardData.source a.2) = false
                     ∧ ClipboardData.source a.2 ≠ []
                     ∧ ClipboardData.source a.2 ≠ JS.lit "System"
                     ∧ ClipboardData.source a.2 ≠ JS.lit "Finder"
                     ∧ ClipboardData.confidence a.2 ∈ [30; 60; 70; 75; 80; 85])
          (run entropyHigh st es).2.
Proof.
  induction es as [|e es IH]; intros st Hown; [constructor|].
  rewrite run_cons. cbn [snd].
  assert (Hown' : isOwnProcess (lastActiveApp (monitor (step entropyHigh st e).1)) = false).
  { destruct e as [i|app t|v app| |]; cbn [step fst].
    - destruct (tick_cases (monitor st) i)
        as [E | [(c & _ & _ & _ & E) | (c & _ & _ & _ & E)]];
        rewrite E; exact Hown.
    - unfold trackActiveApp. destruct app as [app|]; [|exact Hown].
      destruct (negb (isOwnProcess app)) eqn:Happ; [|exact Hown].
      apply negb_true_iff in Happ. cbn [monitor].
      destruct (negb _); [exact Happ | exact Hown].
    - unfold globalShortcut. destruct v; [exact Hown|].
      destruct app as [app|]; [|exact Hown].
      destruct (_ && _) eqn:Happ; [|exact Hown].
      by apply andb_true_iff in Happ as [_ Happ%negb_true_iff].
    - exact Hown.
    - unfold internalCopyTimeout. destruct (internalCopyTimers st); exact Hown. }
  specialize (IH _ Hown').
  destruct ((step entropyHigh st e).2) as [a|] eqn:Ha; [|exact IH].
  constructor; [|exact IH].
  destruct e as [i|app t|v app| |]; cbn [step snd] in Ha; try discriminate.
  destruct (tick_cases (monitor st) i)
    as [E | [(c & _ & _ & _ & E) | (c & _ & _ & _ & E)]];
    rewrite E in Ha; cbn [snd fmap option_fmap option_map] in Ha; try discriminate.
  destruct (overlayOpen i); [|discriminate]. cbv zeta in Ha.
  injection Ha as <-. cbn [snd ClipboardData.source ClipboardData.confidence].
  pose proof (detectedApp_foreign (monitor st) i Hown) as Hd.
  destruct (enhancedDetection_cases entropyHigh c (detectedApp (monitor st) i))
    as (Hs & H1 & H2 & H3 & H4).
  cbv zeta in Hs, H1, H2, H3, H4. repeat split; try assumption.
  destruct Hs as [-> | Hs]; [exact Hd|].
  repeat (apply elem_of_cons in Hs as [-> | Hs]; [reflexivity|]).
  by apply elem_of_nil in Hs.
Qed.

(** X9: no [clipboard-changed] message names the manager itself as the
    source: in every run of the main process from its start the source of a
    message is not [Electron], [ClipFlow], [System], [Finder] or the empty
    string, and its confidence is 30, 60, 70, 75, 80 or 85. *)
Theorem captures_foreign (es : list Event) :
  Forall (λ a, (ClipboardData.source a.2
                ∉ [JS.lit "Electron"; JS.lit "ClipFlow"; JS.lit "System";
                   JS.lit "Finder"; []])
               ∧ ClipboardData.confidence a.2 ∈ [30; 60; 70; 75; 80; 85])
    (run entropyHigh Main.initial es).2.
Proof.
  eapply Forall_impl; [apply (run_sources es Main.initial); reflexivity|].
  intros a (Hown & H1 & H2 & H3 & H4). split; [|exact H4].
  unfold isOwnProcess, JS.eqb in Hown.
  apply orb_false_iff in Hown as [Ha%bool_decide_eq_false Hb%bool_decide_eq_false].
  intros Hin.
  repeat (apply elem_of_cons in Hin as [Hin | Hin]; [done|]).
  by apply elem_of_nil in Hin.
Qed.

End MainFacts.


(** ** Runs of the poller that overlap *)

Section InterleavedFacts.
Import Poller Interleaved.
Variable entropyHigh : list N → bool.

Local Abbreviation monitorOf st := (Main.monitor (process st)).
Local Abbreviation lastSeen st := (lastClipboardContent (Main.monitor (process st))).
Local Abbreviation lastTime st := (lastProcessedTime (Main.monitor (process st))).
Local Abbreviation armed st := (isInternalCopy (Main.monitor (process st))).

(** The three ways the callback reaches its [await] or returns before. *)
Lemma begin_cases (st : Interleaved.State) (i : Tick) :
  begin st i = st
  ∨ (∃ c, currentContent i = Some c ∧ c ≠ lastSeen st
          ∧ passesGuard (monitorOf st) i c = true ∧ armed st = true
          ∧ begin st i = mk (setLastClipboardContent c (process st)) (awaiting st))
  ∨ (∃ c, currentContent i = Some c ∧ c ≠ lastSeen st
          ∧ passesGuard (monitorOf st) i c = true ∧ armed st = false
          ∧ begin st i = mk (process st) (awaiting st ++ [(i, c)])).
Proof.
  unfold begin. cbv zeta. destruct (currentContent i) as [c|] eqn:Hi; [|by left].
  unfold JS.eqb. case_bool_decide as Hc; [by left|].
  destruct (passesGuard _ i c) eqn:Hg; [|by left].
  destruct (isInternalCopy _) eqn:Hf; right; [left | right]; exists c; by repeat split.
Qed.

Lemma irun_cons (st : Interleaved.State) (e : Interleaved.Event)
    (es : list Interleaved.Event) :
  run entropyHigh st (e :: es)
  = ((run entropyHigh (step entropyHigh st e).1 es).1,
     match (step entropyHigh st e).2 with
     | Some d => d :: (run entropyHigh (step entropyHigh st e).1 es).2
     | None => (run entropyHigh (step entropyHigh st e).1 es).2
     end).
Proof. reflexivity. Qed.

(** A run whose query returns before any other callback is a step of
    [Main.step]. *)
Lemma begin_resume (st : Interleaved.State) (i : Tick) :
  awaiting st = [] →
  let r := Main.step entropyHigh (process st) (Main.ClipboardInterval i) in
  run entropyHigh st [Begin i; Resume 0]
  = (mk r.1 [], match r.2 with Some d => [d] | None => [] end).
Proof.
  intros Ha. cbv zeta. rewrite !irun_cons. cbn [run step fst snd Main.step].
  destruct st as [[m h t] aw]. cbn [awaiting] in Ha. subst aw.
  unfold begin, resume, tick, setLastClipboardContent.
  cbn [process awaiting Main.monitor]. cbv zeta.
  destruct (currentContent i) as [c|]; [|reflexivity].
  destruct (JS.eqb c _); [reflexivity|].
  destruct (passesGuard _ i c); [|reflexivity].
  destruct (isInternalCopy m) eqn:Hf.
  - cbn [awaiting lookup list_lookup fst snd process setLastClipboardContent
         fmap option_fmap option_map Main.monitor Main.appHistory
         Main.internalCopyTimers]. rewrite ?Hf. reflexivity.
  - cbn [awaiting app lookup list_lookup fst snd process delete list_delete
         Main.monitor isInternalCopy lastActiveApp Main.appHistory
         Main.internalCopyTimers]. rewrite ?Hf.
    destruct (overlayOpen i); reflexivity.
Qed.

(** *** Spacing *)

Local Abbreviation spaced st :=
  (awaiting st = []
   ∨ ∃ i c, awaiting st = [(i, c)] ∧ lastTime st + 500 < now i).

Lemma istep_time (st : Interleaved.State) (e : Interleaved.Event) :
  spaced st → (∀ i, e = Begin i → awaiting st = []) →
  let st' := (step entropyHigh st e).1 in
  lastTime st ≤ lastTime st' ∧ spaced st'
  ∧ ∀ a, (step entropyHigh st e).2 = Some a →
         lastTime st + 500 < now a.1 ∧ lastTime st' = now a.1.
Proof.
  intros Hs Hb.
  assert (Hsame : ∀ p : Main.State,
            lastProcessedTime (Main.monitor p) = lastTime st →
            lastTime st ≤ lastTime (mk p (awaiting st))
            ∧ spaced (mk p (awaiting st))
            ∧ ∀ a : Tick * ClipboardData.t, @None (Tick * ClipboardData.t) = Some a →
                   lastTime st + 500 < now a.1
                   ∧ lastTime (mk p (awaiting st)) = now a.1).
  { intros p Hp. cbn [process awaiting]. rewrite Hp.
    split; [lia|]. split; [exact Hs | discriminate]. }
  destruct e as [i|k|app t|v app| |]; cbn [step fst snd]; cbv zeta.
  - specialize (Hb i eq_refl).
    destruct (begin_cases st i)
      as [E | [(c & _ & _ & _ & _ & E) | (c & _ & _ & Hg & _ & E)]]; rewrite E.
    + split; [lia|]. split; [exact Hs | discriminate].
    + apply Hsame. reflexivity.
    + cbn [process awaiting]. rewrite Hb. cbn [app].
      apply (passesGuard_true entropyHigh) in Hg as (_ & _ & Hg).
      split; [lia|]. split; [|discriminate].
      right. exists i, c. split; [reflexivity | lia].
  - unfold resume. destruct Hs as [Ha | (i & c & Ha & Ht)]; rewrite Ha.
    + rewrite lookup_nil. cbn [fst snd].
      split; [lia|]. split; [by left | discriminate].
    + destruct k as [|k];
        [change ([(i, c)] !! 0%nat) with (Some (i, c))
        |change ([(i, c)] !! S k) with (@nil (Tick * list N) !! k);
         rewrite lookup_nil].
      * cbv zeta. cbn [fst snd process awaiting Main.monitor lastProcessedTime
                       delete list_delete].
        split; [lia|]. split; [by left|].
        intros a Hsend. destruct (overlayOpen i); [|discriminate].
        injection Hsend as <-. cbn [fst]. lia.
      * cbn [fst snd]. rewrite Ha.
        split; [lia|]. split; [|discriminate].
        right. exists i, c. split; [reflexivity | lia].
  - apply Hsame. unfold Main.trackActiveApp.
    destruct app as [app|]; [|reflexivity].
    destruct (negb (isOwnProcess app)); [|reflexivity].
    cbn [Main.monitor]. by destruct (negb _).
  - apply Hsame. unfold Main.globalShortcut.
    destruct v; [reflexivity|]. destruct app as [app|]; [|reflexivity].
    by destruct (_ && _).
  - apply Hsame. reflexivity.
  - apply Hsame. unfold Main.internalCopyTimeout.
    by destruct (Main.internalCopyTimers (process st)).
Qed.

Lemma irun_spaced (es : list Interleaved.Event) :
  ∀ st, spaced st → serial entropyHigh st es →
        Forall (λ a, lastTime st + 500 < now a.1) (run entropyHigh st es).2
        ∧ StronglySorted (λ a b, now a.1 + 500 < now b.1) (run entropyHigh st es).2.
Proof.
  induction es as [|e es IH]; intros st Hs Hser.
  - cbn [run snd]. split; constructor.
  - rewrite irun_cons. cbn [snd]. cbn [serial] in Hser. destruct Hser as [Hb Hser].
    destruct (istep_time st e Hs) as (Hle & Hs' & Hsome).
    { intros i ->. exact Hb. }
    destruct (IH (step entropyHigh st e).1 Hs' Hser) as [HF HS].
    assert (HF' : Forall (λ a, lastTime st + 500 < now a.1)
                    (run entropyHigh (step entropyHigh st e).1 es).2).
    { eapply Forall_impl; [exact HF|]. cbn beta. intros. lia. }
    destruct ((step entropyHigh st e).2) as [a|].
    + destruct (Hsome a eq_refl) as [H1 H2]. split.
      * constructor; assumption.
      * constructor; [exact HS|]. rewrite <- H2. exact HF.
    + split; assumption.
Qed.

(** X6: as long as no run of the poller begins while another awaits its
    query, whatever the other callbacks do in between, every
    [clipboard-changed] message is sent by a run whose clock is more than
    500 ms after the clock of each run that sent an earlier message, and
    after the last capture before the sequence. *)
Theorem captures_spaced (st : Interleaved.State) (es : list Interleaved.Event) :
  awaiting st = [] → serial entropyHigh st es →
  let sent := (run entropyHigh st es).2 in
  StronglySorted (λ a b, now a.1 + 500 < now b.1) sent
  ∧ Forall (λ a, lastTime st + 500 < now a.1) sent.
Proof.
  intros Ha Hser. destruct (irun_spaced es st) as [H1 H2]; [by left | exact Hser|].
  by split.
Qed.

(** *** Distinct contents *)

Local Abbreviation quiet st :=
  (armed st = false
   ∧ (awaiting st = []
      ∨ ∃ i c, awaiting st = [(i, c)] ∧ currentContent i = Some c
               ∧ overlayOpen i = true ∧ JS.trim c ≠ JS.trim (lastSeen st))).

Local Abbreviation expected st a :=
  (match awaiting st with
   | [] => JS.trim (ClipboardData.content a.2) ≠ JS.trim (lastSeen st)
   | p :: _ => ClipboardData.content a.2 = p.2
   end).

Lemma istep_quiet (st : Interleaved.State) (e : Interleaved.Event) :
  quiet st → e ≠ SetClipboardText →
  (∀ i, e = Begin i → overlayOpen i = true ∧ awaiting st = []) →
  let st' := (step entropyHigh st e).1 in
  quiet st'
  ∧ match (step entropyHigh st e).2 with
    | None =>
        lastSeen st' = lastSeen st
        ∧ (awaiting st' = awaiting st
           ∨ (awaiting st = []
              ∧ ∃ i c, awaiting st' = [(i, c)] ∧ JS.trim c ≠ JS.trim (lastSeen st)))
    | Some a =>
        awaiting st' = [] ∧ lastSeen st' = ClipboardData.content a.2
        ∧ currentContent a.1 = Some (ClipboardData.content a.2)
        ∧ expected st a
    end.
Proof.
  intros [Hf Hq] Hne Hb.
  destruct e as [i|k|app t|v app| |]; cbn [step fst snd]; cbv zeta.
  - destruct (Hb i eq_refl) as [Hopen Ha].
    destruct (begin_cases st i) as [E | [(c & _ & _ & _ & Hf' & _) | (c & Hc & _ & Hg & _ & E)]].
    + rewrite E. split; [by split|]. split; [reflexivity | by left].
    + congruence.
    + rewrite E. cbn [process awaiting]. rewrite Ha. cbn [app].
      apply (passesGuard_true entropyHigh) in Hg as (_ & Hg & _).
      split; [split; [exact Hf|]; right; by exists i, c|].
      split; [reflexivity|]. right. split; [reflexivity|]. by exists i, c.
  - unfold resume. destruct Hq as [Ha | (i & c & Ha & Hc & Hopen & Ht)]; rewrite Ha.
    + rewrite lookup_nil. cbn [fst snd]. rewrite Ha.
      split; [split; [exact Hf | by left]|]. split; [reflexivity | by left].
    + destruct k as [|k];
        [change ([(i, c)] !! 0%nat) with (Some (i, c))
        |change ([(i, c)] !! S k) with (@nil (Tick * list N) !! k);
         rewrite lookup_nil].
      * cbv beta iota zeta. rewrite Hopen.
        cbn [fst snd process awaiting Main.monitor lastClipboardContent
             isInternalCopy delete list_delete ClipboardData.content].
        split; [split; [exact Hf | by left]|]. by repeat split.
      * cbn [fst snd]. rewrite Ha.
        split; [split; [exact Hf|]; right; by exists i, c|].
        split; [reflexivity | by left].
  - cbn [process awaiting]. unfold Main.trackActiveApp.
    destruct app as [app|]; [|by repeat split; auto].
    destruct (negb (isOwnProcess app)); [|by repeat split; auto].
    cbn [Main.monitor]. destruct (negb _);
      cbn [Main.setLastActiveApp lastClipboardContent isInternalCopy];
      by repeat split; auto.
  - cbn [process awaiting]. unfold Main.globalShortcut.
    destruct v; [by repeat split; auto|].
    destruct app as [app|]; [|by repeat split; auto].
    destruct (_ && _);
      cbn [Main.monitor Main.setLastActiveApp lastClipboardContent isInternalCopy];
      by repeat split; auto.
  - done.
  - cbn [process awaiting]. unfold Main.internalCopyTimeout.
    destruct (Main.internalCopyTimers (process st));
      cbn [Main.monitor internalCopyTimeout lastClipboardContent isInternalCopy];
      by repeat split; auto.
Qed.

Lemma irun_distinct (es : list Interleaved.Event) :
  ∀ st, quiet st → SetClipboardText ∉ es →
        (∀ i, Begin i ∈ es → overlayOpen i = true) →
        serial entropyHigh st es →
        let sent := (run entropyHigh st es).2 in
        (∀ a, head sent = Some a → expected st a)
        ∧ (∀ n a b, sent !! n = Some a → sent !! S n = Some b →
                    JS.trim (ClipboardData.content a.2)
                    ≠ JS.trim (ClipboardData.content b.2))
        ∧ Forall (λ a, currentContent a.1 = Some (ClipboardData.content a.2)) sent.
Proof.
  induction es as [|e es IH]; intros st Hq Hno Hopen Hser sent; subst sent.
  - cbn [run snd]. repeat split; [done | done | constructor].
  - rewrite irun_cons. cbn [snd]. cbn [serial] in Hser. destruct Hser as [Hb Hser].
    destruct (istep_quiet st e Hq) as [Hq' Hstep].
    { intros ->. apply Hno, list_elem_of_here. }
    { intros i ->. split; [apply Hopen, list_elem_of_here | exact Hb]. }
    destruct (IH (step entropyHigh st e).1 Hq') as (Hh & Ha & HF); [| |exact Hser|].
    { intros H. by apply Hno, list_elem_of_further. }
    { intros i H. by apply Hopen, list_elem_of_further. }
    destruct ((step entropyHigh st e).2) as [d|].
    + destruct Hstep as (Haw & Hl & Hc & Hex). rewrite Haw, Hl in Hh.
      repeat split.
      * intros a [= <-]. exact Hex.
      * intros [|n] a b.
        -- intros [= <-] Hb' Heq.
           apply (Hh b); [rewrite head_lookup; exact Hb' | by symmetry].
        -- apply Ha.
      * by constructor.
    + destruct Hstep as [Hl [Haw | (Haw & i & c & Haw' & Ht)]].
      * rewrite Haw, Hl in Hh. by repeat split.
      * rewrite Haw' in Hh. rewrite Haw. repeat split; [|exact Ha | exact HF].
        intros a Hhead. specialize (Hh a Hhead). cbn [snd] in Hh. by rewrite Hh.
Qed.

(** X7: as long as no run of the poller begins while another awaits its
    query, no copy is made from the panel and the overlay is open, two
    messages sent one after the other never carry contents that are equal
    after trimming, the first message differs after trimming from the
    content last seen before, and every message carries the content read
    by the run that sent it. *)
Theorem captures_distinct (st : Interleaved.State) (es : list Interleaved.Event) :
  awaiting st = [] → armed st = false → SetClipboardText ∉ es →
  (∀ i, Begin i ∈ es → overlayOpen i = true) →
  serial entropyHigh st es →
  let sent := (run entropyHigh st es).2 in
  (∀ a, head sent = Some a →
        JS.trim (ClipboardData.content a.2) ≠ JS.trim (lastSeen st))
  ∧ (∀ n a b, sent !! n = Some a → sent !! S n = Some b →
              JS.trim (ClipboardData.content a.2)
              ≠ JS.trim (ClipboardData.content b.2))
  ∧ Forall (λ a, currentContent a.1 = Some (ClipboardData.content a.2)) sent.
Proof.
  intros Ha Hf Hno Hopen Hser.
  destruct (irun_distinct es st) as (H1 & H2 & H3); try assumption.
  { split; [exact Hf | by left]. }
  cbv zeta. split; [|by split]. intros a Hhead. specialize (H1 a Hhead).
  by rewrite Ha in H1.
Qed.

(** X29: runs that overlap.  When a run begins while another awaits its
    query and both have read the same changed content, the guard passes
    for both, on the variables the first has not written yet: both send
    the content, in the order in which their queries return, and the last
    to return leaves its clock as the time of the last capture. *)
Theorem overlapping_runs (st : Interleaved.State) (i1 i2 : Tick) (c : list N) :
  awaiting st = [] → armed st = false →
  currentContent i1 = Some c → currentContent i2 = Some c →
  c ≠ lastSeen st →
  passesGuard (monitorOf st) i1 c = true → passesGuard (monitorOf st) i2 c = true →
  overlayOpen i1 = true → overlayOpen i2 = true →
  let first := run entropyHigh st [Begin i1; Begin i2; Resume 0; Resume 0] in
  let second := run entropyHigh st [Begin i1; Begin i2; Resume 1; Resume 0] in
  (∃ d1 d2, first.2 = [(i1, d1); (i2, d2)]
            ∧ ClipboardData.content d1 = c ∧ ClipboardData.content d2 = c)
  ∧ lastTime first.1 = now i2
  ∧ (∃ d1 d2, second.2 = [(i2, d2); (i1, d1)]
              ∧ ClipboardData.content d1 = c ∧ ClipboardData.content d2 = c)
  ∧ lastTime second.1 = now i1.
Proof.
  intros Ha Hf Hc1 Hc2 Hne Hg1 Hg2 Ho1 Ho2.
  destruct st as [p aw]. cbn [awaiting process] in *. subst aw.
  assert (Hb1 : begin (mk p []) i1 = mk p [(i1, c)]).
  { unfold begin. cbn [process awaiting]. cbv zeta. rewrite Hc1.
    unfold JS.eqb at 1. rewrite bool_decide_eq_false_2 by exact Hne.
    by rewrite Hg1, Hf. }
  assert (Hb2 : begin (mk p [(i1, c)]) i2 = mk p [(i1, c); (i2, c)]).
  { unfold begin. cbn [process awaiting]. cbv zeta. rewrite Hc2.
    unfold JS.eqb at 1. rewrite bool_decide_eq_false_2 by exact Hne.
    by rewrite Hg2, Hf. }
  cbv zeta. rewrite !irun_cons. cbn [run step fst snd].
  rewrite Hb1, Hb2. unfold resume.
  cbn [awaiting lookup list_lookup delete list_delete fst snd process].
  cbv zeta. rewrite Ho1, Ho2.
  cbn [awaiting lookup list_lookup delete list_delete fst snd process
       Main.monitor lastProcessedTime].
  repeat split; eexists _, _; by repeat split.
Qed.

End InterleavedFacts.


(** ** The fingerprint of the poller *)

Section FingerprintFacts.
Import Poller.

(** The number written by a list of decimal digits. *)
Local Abbreviation valueOf ds := (foldl (λ a d, 10 * a + (d - 48))%N 0%N ds).

Lemma digits_spec (fuel : nat) :
  ∀ n acc, (n < 2 ^ N.of_nat (S fuel))%N →
  ∃ ds, JS.digits (S fuel) n acc = ds ++ acc
        ∧ valueOf ds = n
        ∧ (n < 10 ^ N.of_nat (List.length ds))%N
        ∧ (List.length ds = 1%nat ∨ (10 ^ N.of_nat (List.length ds - 1) ≤ n)%N).
Proof.
  assert (Hsmall : ∀ n acc, (n < 10)%N →
            ∃ ds, (48 + n mod 10)%N :: acc = ds ++ acc
                  ∧ valueOf ds = n
                  ∧ (n < 10 ^ N.of_nat (List.length ds))%N
                  ∧ (List.length ds = 1%nat
                     ∨ (10 ^ N.of_nat (List.length ds - 1) ≤ n)%N)).
  { intros n acc Hn. exists [(48 + n mod 10)%N]. cbn [foldl List.length app].
    rewrite N.mod_small by exact Hn. repeat split; [lia | exact Hn | by left]. }
  induction fuel as [|fuel IH]; intros n acc Hn.
  - cbn [JS.digits]. change (2 ^ N.of_nat 1)%N with 2%N in Hn.
    assert (n < 10)%N as H10 by lia. apply N.ltb_lt in H10 as H10'. rewrite H10'.
    by apply Hsmall.
  - change (JS.digits (S (S fuel)) n acc)
      with (if (n <? 10)%N then (48 + n mod 10)%N :: acc
            else JS.digits (S fuel) (n / 10)%N ((48 + n mod 10)%N :: acc)).
    destruct (n <? 10)%N eqn:H10.
    { apply N.ltb_lt in H10. by apply Hsmall. }
    apply N.ltb_ge in H10.
    assert (n / 10 < 2 ^ N.of_nat (S fuel))%N as Hq.
    { rewrite Nat2N.inj_succ, N.pow_succ_r' in Hn.
      apply N.Div0.div_lt_upper_bound.
      remember (2 ^ N.of_nat (S fuel))%N as X eqn:EX in Hn |- *. clear EX. lia. }
    destruct (IH (n / 10)%N ((48 + n mod 10)%N :: acc) Hq) as (ds & E & Hv & Hu & Hl).
    exists (ds ++ [(48 + n mod 10)%N]). rewrite E, <- app_assoc. cbn [app].
    pose proof (N.Div0.div_mod n 10) as Hdm.
    pose proof (N.mod_lt n 10 ltac:(lia)) as Hm.
    repeat split.
    + rewrite foldl_app. cbn [foldl]. rewrite Hv. clear -Hdm Hm.
      set (q := (n / 10)%N) in *. set (r := (n mod 10)%N) in *. lia.
    + rewrite length_app. cbn [List.length].
      replace (N.of_nat (List.length ds + 1)) with (N.succ (N.of_nat (List.length ds)))
        by lia.
      rewrite N.pow_succ_r'. clear -Hdm Hm Hu.
      set (q := (n / 10)%N) in *. set (r := (n mod 10)%N) in *.
      set (X := (10 ^ _)%N) in *. lia.
    + right. rewrite length_app. cbn [List.length].
      replace (List.length ds + 1 - 1)%nat with (List.length ds) by lia.
      destruct Hl as [-> | Hl]; [change (10 ^ N.of_nat 1)%N with 10%N; lia|].
      destruct (List.length ds) as [|k]; [cbn in Hu; lia|].
      replace (S k - 1)%nat with k in Hl by lia.
      rewrite Nat2N.inj_succ, N.pow_succ_r'. clear -Hdm Hm Hl.
      set (q := (n / 10)%N) in *. set (r := (n mod 10)%N) in *.
      set (X := (10 ^ _)%N) in *. lia.
Qed.

Lemma ofN_spec (n : N) :
  valueOf (JS.ofN n) = n
  ∧ (n < 10 ^ N.of_nat (List.length (JS.ofN n)))%N
  ∧ (List.length (JS.ofN n) = 1%nat
     ∨ (10 ^ N.of_nat (List.length (JS.ofN n) - 1) ≤ n)%N).
Proof.
  unfold JS.ofN.
  destruct (digits_spec (N.to_nat (N.log2 n)) n []) as (ds & E & H).
  - rewrite Nat2N.inj_succ, N2Nat.id.
    destruct (N.eq_dec n 0%N) as [-> | Hn]; [reflexivity|].
    apply N.log2_spec. lia.
  - rewrite E, app_nil_r. exact H.
Qed.

Lemma ofN_inj (n m : N) : JS.ofN n = JS.ofN m → n = m.
Proof.
  intros E. destruct (ofN_spec n) as [Hn _], (ofN_spec m) as [Hm _].
  rewrite <- Hn, <- Hm. by rewrite E.
Qed.

Lemma length_ofN_mono (n m : N) :
  (n ≤ m)%N → (List.length (JS.ofN n) ≤ List.length (JS.ofN m))%nat.
Proof.
  intros Hle. destruct (ofN_spec n) as (_ & _ & Hl), (ofN_spec m) as (_ & Hu & Hlm).
  destruct Hl as [-> | Hl].
  - destruct (List.length (JS.ofN m)); [cbn in Hu, Hlm; lia | lia].
  - destruct (Nat.le_gt_cases (List.length (JS.ofN n)) (List.length (JS.ofN m)))
      as [|Hgt]; [assumption | exfalso].
    assert (10 ^ N.of_nat (List.length (JS.ofN m))
            ≤ 10 ^ N.of_nat (List.length (JS.ofN n) - 1))%N.
    { apply N.pow_le_mono_r; lia. }
    lia.
Qed.

Lemma substring_prefix (c : list N) : JS.substring c 0 50 = take 50 c.
Proof.
  unfold JS.substring, JS.length. cbv zeta.
  set (n := Z.of_nat (List.length c)).
  set (lo := Z.min (Z.min (Z.max 0 0) n) (Z.min (Z.max 50 0) n)).
  set (hi := Z.max (Z.min (Z.max 0 0) n) (Z.min (Z.max 50 0) n)).
  assert (Z.to_nat lo = 0%nat) as -> by (subst lo n; lia).
  assert (Z.to_nat (hi - lo) = Nat.min 50 (List.length c)) as ->
    by (subst hi lo n; lia).
  rewrite drop_0. destruct (Nat.le_gt_cases 50 (List.length c)).
  - by rewrite Nat.min_l.
  - rewrite Nat.min_r by lia. rewrite !take_ge by lia. reflexivity.
Qed.

Lemma substringFrom_suffix (c : list N) :
  JS.substringFrom c (JS.length c - 50) = drop (List.length c - 50) c.
Proof.
  unfold JS.substringFrom, JS.substring, JS.length. cbv zeta.
  set (n := Z.of_nat (List.length c)).
  set (lo := Z.min (Z.min (Z.max (n - 50) 0) n) (Z.min (Z.max n 0) n)).
  set (hi := Z.max (Z.min (Z.max (n - 50) 0) n) (Z.min (Z.max n 0) n)).
  assert (Z.to_nat lo = (List.length c - 50)%nat) as -> by (subst lo n; lia).
  assert (Z.to_nat (hi - lo) = (List.length c - (List.length c - 50))%nat) as ->
    by (subst hi lo n; lia).
  apply take_ge. rewrite length_drop. lia.
Qed.

Lemma contentHash_eq (c : list N) :
  contentHash c
  = JS.ofN (N.of_nat (List.length c)) ++ take 50 c ++ drop (List.length c - 50) c.
Proof.
  unfold contentHash. rewrite substring_prefix, substringFrom_suffix.
  f_equal. unfold JS.ofZ, JS.length.
  destruct (Z.ltb_spec (Z.of_nat (List.length c)) 0); [lia|].
  f_equal. lia.
Qed.

Lemma contentHash_length (c d : list N) :
  contentHash c = contentHash d → List.length c = List.length d.
Proof.
  rewrite !contentHash_eq. intros E.
  pose proof (f_equal List.length E) as El.
  rewrite !length_app, !length_take, !length_drop in El.
  assert (List.length (JS.ofN (N.of_nat (List.length c)))
          = List.length (JS.ofN (N.of_nat (List.length d)))) as Hd.
  { destruct (Nat.le_ge_cases (List.length c) (List.length d)) as [Hle | Hle].
    - pose proof (length_ofN_mono (N.of_nat (List.length c))
                    (N.of_nat (List.length d)) ltac:(lia)). lia.
    - pose proof (length_ofN_mono (N.of_nat (List.length d))
                    (N.of_nat (List.length c)) ltac:(lia)). lia. }
  apply app_inj_1 in E as [E _]; [|exact Hd].
  apply ofN_inj in E. lia.
Qed.

(** X10: the fingerprint [length + first 50 + last 50] of the poller is the
    same for two contents exactly when they have the same length, the same
    first fifty and the same last fifty code units; a content of at most 100
    code units is determined by its fingerprint. *)
Theorem contentHash_collisions (c d : list N) :
  (contentHash c = contentHash d ↔
   List.length c = List.length d ∧ take 50 c = take 50 d
   ∧ drop (List.length c - 50) c = drop (List.length d - 50) d)
  ∧ ((List.length c ≤ 100)%nat → contentHash c = contentHash d → c = d).
Proof.
  assert (Hiff : contentHash c = contentHash d →
                 List.length c = List.length d ∧ take 50 c = take 50 d
                 ∧ drop (List.length c - 50) c = drop (List.length d - 50) d).
  { intros E. pose proof (contentHash_length c d E) as Hl.
    rewrite !contentHash_eq, Hl in E. apply app_inv_head in E.
    apply app_inj_1 in E as [E1 E2]; [|rewrite !length_take; lia].
    rewrite Hl. by repeat split. }
  split; [split; [exact Hiff|] |].
  - intros (Hl & Ht & Hd). rewrite !contentHash_eq, Hl, Ht.
    rewrite Hl in Hd. by rewrite Hd.
  - intros H100 E. destruct (Hiff E) as (Hl & Ht & Hd).
    rewrite <- (take_drop 50 c), <- (take_drop 50 d). f_equal; [exact Ht|].
    assert (Hc : drop 50 c
                 = drop (50 - (List.length c - 50)) (drop (List.length c - 50) c)).
    { rewrite drop_drop. f_equal. lia. }
    assert (Hd' : drop 50 d
                  = drop (50 - (List.length d - 50)) (drop (List.length d - 50) d)).
    { rewrite drop_drop. f_equal. lia. }
    rewrite Hc, Hd', Hd, Hl. reflexivity.
Qed.

End FingerprintFacts.


(** ** More on the store *)

Section StoreFacts.
Import Database.
Implicit Types (m : gmap (list N) ClipboardItem) (s : DatabaseService).
Implicit Types (x y item : ClipboardItem) (xs items : list ClipboardItem).

Lemma StronglySorted_newerFirst_timestamp items :
  StronglySorted newerFirst items →
  StronglySorted (λ a b, timestamp b ≤ timestamp a) items.
Proof.
  induction 1 as [|x l _ IH HF]; constructor; [exact IH|].
  eapply Forall_impl; [exact HF|]. intros y. apply newerFirst_timestamp.
Qed.

(** X11: [getClipboardItems(limit)] leaves the store as it is and returns
    [min(limit, count)] of its records.  On IndexedDB the records come by
    descending timestamp without repetition, and no record left out is
    newer than a record returned; on the localStorage fallback they are the
    first [limit] entries of the saved list, in its order. *)
Theorem getClipboardItems_spec (limit : nat) s :
  keyedStore s →
  ∃ items, getClipboardItems limit s = (Ok items, s)
    ∧ List.length items = Nat.min limit (List.length (stored s))
    ∧ (∀ x, x ∈ items → x ∈ stored s)
    ∧ (is_Some (db s) →
       StronglySorted (λ a b, timestamp b ≤ timestamp a) items
       ∧ NoDup (id <$> items)
       ∧ ∀ x y, x ∈ items → y ∈ stored s → y ∉ items →
                timestamp y ≤ timestamp x)
    ∧ (db s = None → items = take limit (localItems s)).
Proof.
  destruct s as [[[m o]|] l]; unfold keyedStore, stored; cbn [db clipboardItems localItems].
  - intros Hk. exists (take limit (byRecency m)).
    rewrite getClipboardItems_db. cbn [clipboardItems].
    split; [reflexivity|]. split.
    { rewrite length_take, length_byRecency, length_values. reflexivity. }
    split.
    { intros x Hx%subseteq_take. apply elem_of_values. by apply elem_of_byRecency. }
    split; [|discriminate]. intros _.
    pose proof (byRecency_sorted m) as Hs.
    rewrite <- (take_drop limit (byRecency m)) in Hs.
    apply StronglySorted_app in Hs as (Hs2 & Hs1 & _).
    split; [by apply StronglySorted_newerFirst_timestamp|]. split.
    { eapply sublist_NoDup; [apply (NoDup_ids_byRecency m Hk)|].
      apply fmap_sublist, sublist_take. }
    intros x y Hx Hy Hny. apply newerFirst_timestamp, Hs2; [exact Hx|].
    apply elem_of_values, elem_of_byRecency in Hy.
    rewrite <- (take_drop limit (byRecency m)) in Hy.
    apply elem_of_app in Hy as [Hy | Hy]; [contradiction | exact Hy].
  - intros _. exists (take limit l). split; [reflexivity|]. split.
    { by rewrite length_take. }
    split; [intros x; apply subseteq_take|]. split; [by intros [? ?]|done].
Qed.

(** X12: the age pass.  After [cleanupOldItems] on a store of at most 1000
    records, every record left that is neither pinned nor categorised has a
    timestamp within the last [autoDeleteDays] days of the clock read by
    the method. *)
Theorem cleanupOldItems_age_pass (now : Z) m (o : option Settings)
    (l : list ClipboardItem) :
  let st := default defaultSettings o in
  let s' := (cleanupOldItems now (mkService (Some (mkIdb m o)) l)).2 in
  keyed m → (size m ≤ 1000)%nat →
  ∀ x, x ∈ stored s' → isProtectedItem x = false →
       now - autoDeleteDays st * 24 * 60 * 60 * 1000 ≤ timestamp x.
Proof.
  intros st s' Hk Hsize x Hx Hprot. subst s'.
  rewrite cleanupOldItems_db in Hx. fold st in Hx. cbn [snd stored db clipboardItems] in Hx.
  apply elem_of_values in Hx as [k Hx].
  apply lookup_deleteAll_Some in Hx as [Hx Hage].
  apply lookup_deleteAll_Some in Hx as [Hx _].
  pose proof (Hk k x Hx) as <-.
  destruct (Z.le_gt_cases (now - autoDeleteDays st * 24 * 60 * 60 * 1000)
              (timestamp x)) as [|Hold]; [assumption|].
  exfalso. apply Hage. apply list_elem_of_fmap. exists x. split; [reflexivity|].
  apply elem_of_agePass. split; [|split; [lia | exact Hprot]].
  rewrite loaded_all by exact Hsize. apply elem_of_byRecency. by exists (id x).
Qed.

(** What an ingestion does to a record it finds in the object store. *)
Lemma ingest_preserves (call : Z * ClipboardItem) m (o : option Settings)
    (l : list ClipboardItem) :
  keyed m →
  ∃ m' o', ingest (mkService (Some (mkIdb m o)) l) call
           = mkService (Some (mkIdb m' o')) l
    ∧ keyed m'
    ∧ ∀ k x, m !! k = Some x → isProtectedItem x = true →
             ∃ y, m' !! k = Some y ∧ id y = id x ∧ content y = content x
                  ∧ isPinned y = isPinned x ∧ categories y = categories x.
Proof.
  intros Hk. destruct call as [now item]. rewrite ingest_call, addClipboardItem_db.
  destruct (List.find (hasContent (content item)) (loaded m)) as [e|] eqn:Hfind.
  - apply find_hasContent_Some in Hfind as [He Hc].
    apply elem_of_loaded in He. pose proof (keyed_lookup m e Hk He) as Hem.
    exists (<[id e := merged e item]> m), o. split; [reflexivity|]. split.
    { change (id e) with (id (merged e item)). by apply keyed_insert. }
    intros k x Hx Hprot. destruct (decide (k = id e)) as [-> | Hne].
    + rewrite Hem in Hx. injection Hx as <-.
      exists (merged e item). rewrite lookup_insert_eq. by repeat split.
    + exists x. rewrite lookup_insert_ne by done. by repeat split.
  - destruct (m !! id item) as [z|] eqn:Hid.
    { exists m, o. split; [reflexivity|]. split; [exact Hk|].
      intros k x Hx _. exists x. by repeat split. }
    rewrite cleanupOldItems_db. cbn [snd].
    set (m1 := <[id item := item]> m). set (st := default defaultSettings o).
    assert (Hk1 : keyed m1) by by apply keyed_insert.
    eexists _, _. split; [reflexivity|]. split.
    { by do 2 apply keyed_deleteAll. }
    intros k x Hx Hprot. exists x.
    assert (Hx1 : m1 !! k = Some x).
    { subst m1. rewrite lookup_insert_ne; [exact Hx|]. intros <-. congruence. }
    pose proof (Hk1 k x Hx1) as Hidx. subst k.
    split; [|by repeat split].
    apply lookup_deleteAll_Some; split; [apply lookup_deleteAll_Some; split; [done|]|].
    + intros H.
      assert (x ∈ countPass st (loaded m1)) as Hc.
      { eapply loaded_id; eauto. intros z Hz. by apply elem_of_countPass in Hz as [? _]. }
      apply elem_of_countPass in Hc as [_ Hc]. congruence.
    + intros H.
      assert (x ∈ agePass now st (loaded m1)) as Hc.
      { eapply loaded_id; eauto. intros z Hz. by apply elem_of_agePass in Hz as [? _]. }
      apply elem_of_agePass in Hc as (_ & _ & Hc). congruence.
Qed.

Lemma isProtectedItem_fields x y :
  isPinned y = isPinned x → categories y = categories x →
  isProtectedItem y = isProtectedItem x.
Proof. unfold isProtectedItem. by intros -> ->. Qed.

Lemma ingestAll_preserves (calls : list (Z * ClipboardItem)) :
  ∀ m (o : option Settings) (l : list ClipboardItem),
  keyed m →
  ∃ m' o', ingestAll (mkService (Some (mkIdb m o)) l) calls
           = mkService (Some (mkIdb m' o')) l
    ∧ keyed m'
    ∧ ∀ k x, m !! k = Some x → isProtectedItem x = true →
             ∃ y, m' !! k = Some y ∧ id y = id x ∧ content y = content x
                  ∧ isPinned y = isPinned x ∧ categories y = categories x.
Proof.
  induction calls as [|call calls IH]; intros m o l Hk.
  - exists m, o. split; [reflexivity|]. split; [exact Hk|].
    intros k x Hx _. exists x. by repeat split.
  - cbn [ingestAll foldl].
    destruct (ingest_preserves call m o l Hk) as (m1 & o1 & E1 & Hk1 & H1).
    rewrite E1. destruct (IH m1 o1 l Hk1) as (m2 & o2 & E2 & Hk2 & H2).
    exists m2, o2. split; [exact E2|]. split; [exact Hk2|].
    intros k x Hx Hprot. destruct (H1 k x Hx Hprot) as (y & Hy & Hi & Hc & Hp & Hg).
    destruct (H2 k y Hy) as (z & Hz & Hi' & Hc' & Hp' & Hg').
    { rewrite <- Hprot. by apply isProtectedItem_fields. }
    exists z. repeat split; [exact Hz | congruence..].
Qed.

(** X13: on IndexedDB no sequence of ingestions loses a protected record:
    a record that is pinned or categorised is still stored afterwards under
    the same identifier, with its content, its pin and its categories (an
    ingestion of the same content changes its timestamp, source and type
    only). *)
Theorem ingestAll_keeps_protected (calls : list (Z * ClipboardItem)) s x :
  is_Some (db s) → keyedStore s → x ∈ stored s → isProtectedItem x = true →
  ∃ y, y ∈ stored (ingestAll s calls)
       ∧ id y = id x ∧ content y = content x
       ∧ isPinned y = isPinned x ∧ categories y = categories x
       ∧ isProtectedItem y = true.
Proof.
  destruct s as [[[m o]|] l]; [|by intros [? ?]].
  unfold keyedStore, stored. cbn [db clipboardItems]. intros _ Hk Hx Hprot.
  apply elem_of_values in Hx as [k Hx].
  destruct (ingestAll_preserves calls m o l Hk) as (m' & o' & E & _ & H).
  destruct (H k x Hx Hprot) as (y & Hy & Hi & Hc & Hp & Hg).
  exists y. rewrite E. cbn [db clipboardItems]. repeat split; try assumption.
  - apply elem_of_values. by exists k.
  - rewrite <- Hprot. by apply isProtectedItem_fields.
Qed.

(** The localStorage fallback. *)
Lemma ingest_fallback_head (call : Z * ClipboardItem) (l : list ClipboardItem) :
  (List.length l ≤ 100)%nat →
  ∃ y rest, ingest (mkService None l) call = mkService None (y :: rest)
            ∧ (List.length (y :: rest) ≤ 100)%nat
            ∧ content y = content call.2 ∧ timestamp y = timestamp call.2.
Proof.
  intros Hlen. destruct call as [now item]. rewrite ingest_call, addClipboardItem_fallback.
  cbn [snd]. destruct (List.find (hasContent (content item)) l) as [e|] eqn:Hfind.
  - apply find_hasContent_Some in Hfind as [He Hc].
    destruct (findIndex (id e) l) as [index|] eqn:Hidx.
    + apply findIndex_Some in Hidx as (z & Hz & _).
      apply lookup_lt_Some in Hz.
      exists (merged e item), (delete index (<[index := merged e item]> l)).
      split; [reflexivity|]. split; [|by split].
      cbn [List.length].
      rewrite length_delete
        by (apply lookup_lt_is_Some_2; rewrite length_insert; exact Hz).
      rewrite length_insert. lia.
    + apply findIndex_None in Hidx. exfalso. apply Hidx.
      apply list_elem_of_fmap. by exists e.
  - exists item, (take 99 l). split; [reflexivity|]. split; [|by split].
    cbn [List.length]. rewrite length_take. lia.
Qed.

(** X14: on the localStorage fallback the saved list never grows beyond
    100 entries, and after an ingestion its first entry carries the
    ingested content and timestamp, whether the content was new or already
    saved. *)
Theorem fallback_bounded (calls : list (Z * ClipboardItem)) (l : list ClipboardItem) :
  (List.length l ≤ 100)%nat →
  let s' := ingestAll (mkService None l) calls in
  db s' = None
  ∧ (List.length (localItems s') ≤ 100)%nat
  ∧ ∀ call, last calls = Some call →
            ∃ y rest, localItems s' = y :: rest
                      ∧ content y = content call.2
                      ∧ timestamp y = timestamp call.2.
Proof.
  revert l. induction calls as [|call calls IH] using rev_ind; intros l Hlen s'.
  - subst s'. cbn. repeat split; [exact Hlen | discriminate].
  - subst s'. rewrite ingestAll_snoc. destruct (IH l Hlen) as (Hdb & Hl & _).
    destruct (ingestAll (mkService None l) calls) as [d l']. cbn in Hdb, Hl. subst d.
    destruct (ingest_fallback_head call l' Hl) as (y & rest & E & Hlen' & Hc & Ht).
    rewrite E. cbn [db localItems]. repeat split; [exact Hlen'|].
    intros call' Hlast. rewrite last_snoc in Hlast. injection Hlast as <-.
    by exists y, rest.
Qed.

(** X15: [addClipboardItem] fails in one case only: on IndexedDB, when the
    content is not among the 1000 newest records and the identifier of the
    new item is already a key of the store.  The error is the
    [ConstraintError] of [add] and the store is left as it was.  On the
    fallback the method never fails. *)
Theorem addClipboardItem_errors (now : Z) item s :
  let r := addClipboardItem now item s in
  (∀ msg, r.1 = Throw msg ↔
          msg = "ConstraintError"%string
          ∧ ∃ d, db s = Some d
                 ∧ List.find (hasContent (content item)) (loaded (clipboardItems d)) = None
                 ∧ is_Some (clipboardItems d !! id item))
  ∧ (∀ msg, r.1 = Throw msg → r.2 = s)
  ∧ (db s = None → r.1 = Ok ()).
Proof.
  destruct s as [[[m o]|] l]; cbv zeta.
  - rewrite addClipboardItem_db. cbn [db clipboardItems].
    destruct (List.find (hasContent (content item)) (loaded m)) as [e|] eqn:Hfind.
    { cbn [fst snd]. split; [|split; [discriminate | discriminate]].
      intros msg. split; [discriminate|].
      intros (_ & d & [= <-] & Hd & _). cbn [clipboardItems] in Hd. congruence. }
    destruct (m !! id item) as [z|] eqn:Hid.
    { cbn [fst snd]. split; [|split; [reflexivity | discriminate]].
      intros msg. split.
      - intros [= <-]. split; [reflexivity|]. exists (mkIdb m o).
        cbn [clipboardItems]. rewrite Hid. by repeat split.
      - by intros (-> & _). }
    rewrite cleanupOldItems_db. cbn [fst snd].
    split; [|split; [discriminate | discriminate]].
    intros msg. split; [discriminate|].
    intros (_ & d & [= <-] & _ & Hd). cbn [clipboardItems] in Hd.
    rewrite Hid in Hd. by destruct Hd.
  - rewrite addClipboardItem_fallback. cbn [db].
    assert (Hno : ∀ msg : string,
              ¬ (msg = "ConstraintError"%string
                 ∧ ∃ d : Idb, None = Some d
                     ∧ List.find (hasContent (content item)) (loaded (clipboardItems d))
                       = None
                     ∧ is_Some (clipboardItems d !! id item))).
    { by intros msg (_ & d & [=] & _). }
    destruct (List.find _ l) as [e|]; [destruct (findIndex _ l)|];
      cbn [fst snd]; (split; [|split; [discriminate | reflexivity]]);
      intros msg; (split; [discriminate | intros H; by destruct (Hno msg)]).
Qed.

End StoreFacts.


(** ** From an ingestion to the list of the panel *)

Section LookupFacts.
Import Database.
Implicit Types (m : gmap (list N) ClipboardItem) (s : DatabaseService).
Implicit Types (x y item : ClipboardItem) (xs items : list ClipboardItem).

(** A record newer than all others comes first. *)
Lemma byRecency_head m x :
  keyed m → m !! id x = Some x →
  (∀ k y, m !! k = Some y → k ≠ id x → timestamp y < timestamp x) →
  ∃ rest, byRecency m = x :: rest.
Proof.
  intros Hk Hx Hnew. pose proof (byRecency_sorted m) as Hs.
  assert (Hin : x ∈ byRecency m) by (apply elem_of_byRecency; by exists (id x)).
  destruct (byRecency m) as [|h rest] eqn:E; [by apply elem_of_nil in Hin|].
  assert (Hh : h ∈ byRecency m) by (rewrite E; apply list_elem_of_here).
  apply elem_of_byRecency in Hh. pose proof (keyed_lookup m h Hk Hh) as Hhm.
  destruct (decide (id h = id x)) as [Heq | Hid].
  { rewrite Heq, Hx in Hhm. injection Hhm as ->. by exists rest. }
  exfalso. apply elem_of_cons in Hin as [-> | Hin]; [done|].
  apply StronglySorted_cons in Hs as [HF _].
  rewrite Forall_forall in HF. pose proof (newerFirst_timestamp _ _ (HF x Hin)) as Hle.
  pose proof (Hnew (id h) h Hhm Hid). lia.
Qed.

Lemma find_head (c : list N) x rest :
  content x = c → List.find (hasContent c) (x :: rest) = Some x.
Proof.
  intros <-. cbn [List.find]. unfold hasContent, JS.eqb.
  by rewrite bool_decide_eq_true_2.
Qed.

Lemma NoDup_loaded m : keyed m → NoDup (loaded m).
Proof.
  intros Hk. unfold loaded. eapply sublist_NoDup; [|apply sublist_take].
  eapply NoDup_fmap_1. apply (NoDup_ids_byRecency m Hk).
Qed.

(** The state and the newest record after a successful [addClipboardItem]
    of an item newer than every stored record. *)
Lemma addClipboardItem_head (now : Z) item m (o : option Settings)
    (l : list ClipboardItem) :
  let st := default defaultSettings o in
  let r := addClipboardItem now item (mkService (Some (mkIdb m o)) l) in
  keyed m → (∀ k y, m !! k = Some y → timestamp y < timestamp item) →
  1 ≤ maxItems st → now - autoDeleteDays st * 24 * 60 * 60 * 1000 ≤ timestamp item →
  r.1 = Ok () →
  ∃ m' o' y rest, r.2 = mkService (Some (mkIdb m' o')) l ∧ keyed m'
    ∧ byRecency m' = y :: rest
    ∧ (y = item ∨ ∃ e, m !! id e = Some e ∧ content e = content item
                       ∧ y = merged e item).
Proof.
  intros st r Hk Hnew Hmax Hage. subst r. rewrite addClipboardItem_db.
  destruct (List.find (hasContent (content item)) (loaded m)) as [e|] eqn:Hfind.
  - intros _. apply find_hasContent_Some in Hfind as [He Hc].
    apply elem_of_loaded in He. pose proof (keyed_lookup m e Hk He) as Hem.
    set (m' := <[id e := merged e item]> m).
    assert (Hk' : keyed m').
    { subst m'. change (id e) with (id (merged e item)). by apply keyed_insert. }
    destruct (byRecency_head m' (merged e item) Hk') as [rest Hrest].
    { subst m'. cbn [id merged]. by rewrite lookup_insert_eq. }
    { subst m'. intros k y Hy Hne. cbn [id merged] in Hne.
      rewrite lookup_insert_ne in Hy by done. cbn [timestamp merged]. eauto. }
    exists m', o, (merged e item), rest. cbn [snd]. repeat split; try assumption.
    right. by exists e.
  - destruct (m !! id item) as [z|] eqn:Hid; [discriminate|]. intros _.
    rewrite cleanupOldItems_db. cbn [snd]. fold st.
    set (m1 := <[id item := item]> m).
    assert (Hk1 : keyed m1) by by apply keyed_insert.
    assert (Hi1 : m1 !! id item = Some item) by (subst m1; by rewrite lookup_insert_eq).
    assert (Hnew1 : ∀ k y, m1 !! k = Some y → k ≠ id item → timestamp y < timestamp item).
    { subst m1. intros k y Hy Hne. rewrite lookup_insert_ne in Hy by done. eauto. }
    destruct (byRecency_head m1 item Hk1 Hi1 Hnew1) as [rest1 Hrest1].
    set (m' := deleteAll (agePass now st (loaded m1)) (deleteAll (countPass st (loaded m1)) m1)).
    assert (Hsub : m' ⊆ m1).
    { subst m'. etrans; apply deleteAll_subseteq. }
    assert (Hk' : keyed m') by (subst m'; by do 2 apply keyed_deleteAll).
    assert (Hi' : m' !! id item = Some item).
    { subst m'.
      apply lookup_deleteAll_Some; split; [apply lookup_deleteAll_Some; split; [done|]|].
      - intros H.
        assert (item ∈ countPass st (loaded m1)) as Hc.
        { apply (loaded_id m1 _ item Hk1); [|exact Hi1 | exact H].
          intros z Hz. by apply elem_of_countPass in Hz as [? _]. }
        pose proof (NoDup_loaded m1 Hk1) as Hnd.
        unfold countPass in Hc. destruct (maxItems st <? _); [|by apply elem_of_nil in Hc].
        unfold loaded in Hc, Hnd. rewrite Hrest1 in Hc, Hnd.
        change (take 1000 (item :: rest1)) with (item :: take 999 rest1) in Hc, Hnd.
        apply NoDup_cons in Hnd as [Hnotin _]. apply Hnotin.
        unfold sliceFrom in Hc. destruct (Z.ltb_spec (maxItems st) 0); [lia|].
        cbn [List.filter] in Hc. destruct (negb (isProtectedItem item)).
        + replace (Z.to_nat (maxItems st)) with (S (Z.to_nat (maxItems st - 1))) in Hc
            by lia.
          cbn [drop] in Hc. apply subseteq_drop in Hc.
          by apply elem_of_List_filter in Hc as [Hc _].
        + apply subseteq_drop in Hc. by apply elem_of_List_filter in Hc as [Hc _].
      - intros H.
        assert (item ∈ agePass now st (loaded m1)) as Hc.
        { apply (loaded_id m1 _ item Hk1); [|exact Hi1 | exact H].
          intros z Hz. by apply elem_of_agePass in Hz as [? _]. }
        apply elem_of_agePass in Hc as (_ & Hc & _). lia. }
    destruct (byRecency_head m' item Hk' Hi') as [rest Hrest].
    { intros k y Hy Hne. apply (Hnew1 k); [|exact Hne].
      eapply lookup_weaken; [exact Hy | exact Hsub]. }
    exists m', (Some st), item, rest. repeat split; try assumption. by left.
Qed.

Lemma addClipboardItem_lookup (now : Z) item s :
  keyedStore s → (∀ x, x ∈ stored s → timestamp x < timestamp item) →
  (∀ d, db s = Some d →
        1 ≤ maxItems (default defaultSettings (settings d))
        ∧ now - autoDeleteDays (default defaultSettings (settings d))
                * 24 * 60 * 60 * 1000 ≤ timestamp item) →
  let r := addClipboardItem now item s in
  r.1 = Ok () →
  ∃ y rest, findClipboardItemByContent (content item) r.2 = (Ok (Some y), r.2)
            ∧ getClipboardItems 1000 r.2 = (Ok (y :: rest), r.2)
            ∧ (y = item ∨ ∃ e, e ∈ stored s ∧ content e = content item
                               ∧ y = merged e item).
Proof.
  destruct s as [[[m o]|] l]; unfold keyedStore, stored;
    cbn [db clipboardItems localItems]; cbv zeta.
  - intros Hk Hnew Hset Hok. destruct (Hset _ eq_refl) as [Hmax Hage].
    cbn [settings] in Hmax, Hage.
    destruct (addClipboardItem_head now item m o l Hk) as (m' & o' & y & rest & E & Hk' & Hh & Hy);
      try assumption.
    { intros k y Hy. apply Hnew, elem_of_values. by exists k. }
    cbv zeta in E. rewrite E.
    assert (content y = content item) as Hc.
    { by destruct Hy as [-> | (e & _ & Hc & ->)]. }
    exists y, (take 999 rest).
    rewrite findClipboardItemByContent_db, getClipboardItems_db.
    cbn [clipboardItems]. unfold loaded. rewrite Hh.
    change (take 1000 (y :: rest)) with (y :: take 999 rest).
    rewrite (find_head (content item) y _ Hc).
    split; [reflexivity|]. split; [reflexivity|].
    destruct Hy as [-> | (e & He & Hce & ->)]; [by left | right].
    exists e. split; [|by split]. apply elem_of_values. by exists (id e).
  - intros _ _ _ Hok. rewrite addClipboardItem_fallback.
    destruct (List.find (hasContent (content item)) l) as [e|] eqn:Hfind.
    + apply find_hasContent_Some in Hfind as [He Hce].
      destruct (findIndex (id e) l) as [index|] eqn:Hidx.
      * cbn [snd]. eexists (merged e item), _. unfold findClipboardItemByContent,
          getClipboardItems, bind, getDb, getFromLocalStorage, ret.
        cbn [db localItems]. rewrite (find_head (content item) (merged e item) _ Hce).
        split; [reflexivity|]. split; [reflexivity|]. right. by exists e.
      * apply findIndex_None in Hidx. exfalso. apply Hidx.
        apply list_elem_of_fmap. by exists e.
    + cbn [snd]. eexists item, _. unfold findClipboardItemByContent,
        getClipboardItems, bind, getDb, getFromLocalStorage, ret.
      cbn [db localItems].
      change (take 100 (item :: l)) with (item :: take 99 l).
      rewrite (find_head (content item) item _ eq_refl).
      split; [reflexivity|]. split; [reflexivity|]. by left.
Qed.

(** X17: an ingestion that succeeds can be looked up.  If the item is newer
    than every stored record and, on IndexedDB, within the retention period
    and under a limit of at least one item, then afterwards
    [findClipboardItemByContent] on its content returns a record with that
    content and the timestamp of the item, and this record is the first of
    [getClipboardItems]. *)
Theorem ingest_then_lookup (now : Z) item s :
  keyedStore s → (∀ x, x ∈ stored s → timestamp x < timestamp item) →
  (∀ d, db s = Some d →
        1 ≤ maxItems (default defaultSettings (settings d))
        ∧ now - autoDeleteDays (default defaultSettings (settings d))
                * 24 * 60 * 60 * 1000 ≤ timestamp item) →
  let r := addClipboardItem now item s in
  r.1 = Ok () →
  ∃ y rest, findClipboardItemByContent (content item) r.2 = (Ok (Some y), r.2)
            ∧ getClipboardItems 1000 r.2 = (Ok (y :: rest), r.2)
            ∧ content y = content item ∧ timestamp y = timestamp item.
Proof.
  intros Hk Hnew Hset r Hok.
  destruct (addClipboardItem_lookup now item s Hk Hnew Hset Hok)
    as (y & rest & Hf & Hg & Hy).
  exists y, rest. split; [exact Hf|]. split; [exact Hg|].
  destruct Hy as [-> | (e & _ & Hc & ->)]; by split.
Qed.

End LookupFacts.


(** ** Sorting an array *)

Section SortFacts.
Context {A : Type} (key : A → Z).

Lemma insertBy_perm (x : A) (l : list A) :
  JSArray.insertBy (λ a b, key a <=? key b) x l ≡ₚ x :: l.
Proof.
  induction l as [|y l IH]; cbn [JSArray.insertBy]; [reflexivity|].
  destruct (key x <=? key y); [reflexivity|].
  rewrite IH. apply Permutation_swap.
Qed.

Lemma sort_perm (l : list A) : JSArray.sort (λ a b, key a <=? key b) l ≡ₚ l.
Proof.
  induction l as [|x l IH]; [reflexivity|].
  unfold JSArray.sort in *. cbn [foldr]. by rewrite insertBy_perm, IH.
Qed.

Lemma insertBy_sorted (x : A) (l : list A) :
  StronglySorted (λ a b, key a ≤ key b) l →
  StronglySorted (λ a b, key a ≤ key b)
    (JSArray.insertBy (λ a b, key a <=? key b) x l).
Proof.
  induction 1 as [|y l Hs IH HF]; cbn [JSArray.insertBy].
  - constructor; constructor.
  - destruct (Z.leb_spec (key x) (key y)).
    + constructor; [by constructor|]. constructor; [assumption|].
      eapply Forall_impl; [exact HF|]. cbn beta. intros. lia.
    + constructor; [exact IH|]. rewrite insertBy_perm.
      constructor; [lia | exact HF].
Qed.

Lemma sort_sorted (l : list A) :
  StronglySorted (λ a b, key a ≤ key b) (JSArray.sort (λ a b, key a <=? key b) l).
Proof.
  induction l as [|x l IH]; [constructor|].
  unfold JSArray.sort in *. cbn [foldr]. by apply insertBy_sorted.
Qed.

End SortFacts.

(** ** The overlay panel *)

Section PanelFacts.
Import Database OverlayPanel.
Implicit Types (m : gmap (list N) ClipboardItem) (s : DatabaseService).
Implicit Types (x y item : ClipboardItem) (xs items : list ClipboardItem).

Lemma deletable_spec x : deletable x = negb (isProtectedItem x).
Proof.
  unfold deletable, isProtectedItem.
  destruct (isPinned x) as [[]|], (categories x) as [[]|]; reflexivity.
Qed.

Lemma elem_of_itemsToDelete items (maxItems : Z) x :
  x ∈ itemsToDelete items maxItems → x ∈ items ∧ isProtectedItem x = false.
Proof.
  unfold itemsToDelete. cbv zeta. intros Hx%subseteq_take.
  rewrite (sort_perm timestamp) in Hx.
  apply elem_of_List_filter in Hx as [Hx Hd]. split; [exact Hx|].
  rewrite deletable_spec in Hd. by apply negb_true_iff.
Qed.

Lemma forEach_delete_fallback xs (l : list ClipboardItem) :
  ∃ l', forEach xs (λ item, deleteClipboardItem (id item)) (mkService None l)
        = (Ok (), mkService None l')
        ∧ ∀ y, y ∈ l' ↔ y ∈ l ∧ id y ∉ id <$> xs.
Proof.
  revert l. induction xs as [|x xs IH]; intros l.
  - exists l. split; [reflexivity|]. intros y. rewrite fmap_nil.
    split; [intros H; split; [exact H | apply not_elem_of_nil] | by intros [H _]].
  - destruct (IH (filter (λ i, id i ≠ id x) l)) as (l' & E & H).
    exists l'. split.
    + cbn [forEach]. unfold bind at 1. unfold deleteClipboardItem at 1.
      unfold bind, getDb, getFromLocalStorage, saveToLocalStorage.
      cbn [db localItems]. exact E.
    + intros y. rewrite H, list_elem_of_filter, fmap_cons, not_elem_of_cons. tauto.
Qed.

(** The store after [handleSmartCleanup]. *)
Lemma handleSmartCleanup_db items (maxItems : Z) m (o : option Settings)
    (l : list ClipboardItem) :
  handleSmartCleanup items maxItems (mkService (Some (mkIdb m o)) l)
  = (Ok (loaded (deleteAll (itemsToDelete items maxItems) m)),
     mkService (Some (mkIdb (deleteAll (itemsToDelete items maxItems) m) o)) l).
Proof.
  unfold handleSmartCleanup, bind. rewrite forEach_delete_db.
  by rewrite getClipboardItems_db.
Qed.

(** X18: [handleSmartCleanup] removes a record only if the list shown by
    the panel holds an item with the identifier of the record that is
    neither pinned nor categorised.  When that list is the one loaded from
    the store, no protected record is removed. *)
Theorem handleSmartCleanup_keeps_protected items (maxItems : Z) s x :
  keyedStore s → x ∈ stored s →
  ((∀ z, z ∈ items → id z = id x → isProtectedItem z = true) →
   x ∈ stored (handleSmartCleanup items maxItems s).2)
  ∧ (distinctIds s → (getClipboardItems 1000 s).1 = Ok items →
     isProtectedItem x = true →
     x ∈ stored (handleSmartCleanup items maxItems s).2).
Proof.
  intros Hk Hx.
  assert (Hgen : (∀ z, z ∈ items → id z = id x → isProtectedItem z = true) →
                 x ∈ stored (handleSmartCleanup items maxItems s).2).
  { intros Hz.
    assert (Hnot : id x ∉ id <$> itemsToDelete items maxItems).
    { intros (z & Hid & Hin)%list_elem_of_fmap.
      apply elem_of_itemsToDelete in Hin as [Hin Hp].
      rewrite (Hz z Hin (eq_sym Hid)) in Hp. discriminate. }
    destruct s as [[[m o]|] l]; unfold keyedStore, stored in *;
      cbn [db clipboardItems localItems] in *.
    - rewrite handleSmartCleanup_db. cbn [snd db clipboardItems].
      apply elem_of_values in Hx. pose proof (keyed_lookup m x Hk Hx) as Hxm.
      apply elem_of_values. exists (id x). by apply lookup_deleteAll_Some.
    - unfold handleSmartCleanup, bind.
      destruct (forEach_delete_fallback (itemsToDelete items maxItems) l)
        as (l' & -> & H).
      cbn [snd localItems db]. unfold getClipboardItems, bind, getDb,
        getFromLocalStorage, ret. cbn [db localItems snd]. by apply H. }
  split; [exact Hgen|]. intros Hd Hload Hp. apply Hgen. intros z Hz Hid.
  destruct s as [[[m o]|] l]; unfold keyedStore, stored, distinctIds in *;
    cbn [db clipboardItems localItems] in *.
  - rewrite getClipboardItems_db in Hload. cbn [fst] in Hload.
    injection Hload as <-. apply subseteq_take, elem_of_byRecency in Hz.
    apply elem_of_values in Hx.
    pose proof (keyed_lookup m x Hk Hx) as Hxm.
    pose proof (keyed_lookup m z Hk Hz) as Hzm.
    rewrite Hid, Hxm in Hzm. by injection Hzm as <-.
  - unfold getClipboardItems, bind, getDb, getFromLocalStorage, ret in Hload.
    cbn [db localItems fst] in Hload. injection Hload as <-.
    apply subseteq_take in Hz.
    by rewrite (NoDup_fmap_eq id l z x Hd Hz Hx Hid).
Qed.

(** X19: the count reached by [handleSmartCleanup].  On a store of at most
    1000 records, none of them protected, whose list the panel has loaded,
    the cleanup deletes the oldest records and leaves the smallest number of
    records that is at least [max(maxItems - 20, 0.8 maxItems)], or all
    records when there are fewer; no record deleted is newer than a record
    kept. *)
Theorem handleSmartCleanup_count (maxItems : Z) m (o : option Settings)
    (l : list ClipboardItem) :
  keyed m → (size m ≤ 1000)%nat → 0 ≤ maxItems →
  (∀ k x, m !! k = Some x → isProtectedItem x = false) →
  let r := handleSmartCleanup (loaded m) maxItems (mkService (Some (mkIdb m o)) l) in
  ∃ m', r = (Ok (loaded m'), mkService (Some (mkIdb m' o)) l)
    ∧ m' ⊆ m
    ∧ (targetCount5 maxItems ≤ 5 * Z.of_nat (size m) →
       targetCount5 maxItems ≤ 5 * Z.of_nat (size m') < targetCount5 maxItems + 5)
    ∧ (5 * Z.of_nat (size m) < targetCount5 maxItems → m' = m)
    ∧ (∀ k k' x y, m !! k = Some x → m' !! k = None → m' !! k' = Some y →
                   timestamp x ≤ timestamp y).
Proof.
  intros Hk Hsize Hmax Hunprot r. subst r. rewrite handleSmartCleanup_db.
  set (xs := itemsToDelete (loaded m) maxItems).
  exists (deleteAll xs m). split; [reflexivity|]. split; [apply deleteAll_subseteq|].
  set (sorted := JSArray.sort (λ a b, timestamp a <=? timestamp b) (byRecency m)).
  set (count := Z.to_nat (Z.max 0 (5 * Z.of_nat (size m) - targetCount5 maxItems) / 5)).
  assert (Hxs : xs = take count sorted).
  { subst xs sorted count. unfold itemsToDelete. cbv zeta.
    rewrite loaded_all by exact Hsize. rewrite length_byRecency.
    rewrite List_filter_all; [reflexivity|].
    intros a Ha%elem_of_byRecency. destruct Ha as [k Ha].
    rewrite deletable_spec, (Hunprot k a Ha). reflexivity. }
  assert (Hperm : sorted ≡ₚ byRecency m) by apply (sort_perm timestamp).
  assert (Hlen : List.length sorted = size m).
  { by rewrite Hperm, length_byRecency. }
  assert (Hnd : NoDup (id <$> sorted)).
  { rewrite Hperm. by apply NoDup_ids_byRecency. }
  assert (Hsz : size (deleteAll xs m) = (size m - Nat.min count (size m))%nat).
  { rewrite size_deleteAll.
    - by rewrite Hxs, length_take, Hlen.
    - rewrite Hxs. eapply sublist_NoDup; [exact Hnd|].
      apply fmap_sublist, sublist_take.
    - intros a Ha. rewrite Hxs in Ha. apply subseteq_take in Ha.
      rewrite Hperm in Ha. apply elem_of_byRecency in Ha.
      rewrite (keyed_lookup m a Hk Ha). by eexists. }
  assert (Ht5 : 0 ≤ targetCount5 maxItems) by (unfold targetCount5; lia).
  split; [|split].
  - intros Hge. rewrite Hsz. subst count.
    set (d := 5 * Z.of_nat (size m) - targetCount5 maxItems) in *.
    rewrite Z.max_r by lia.
    pose proof (Z.div_mod d 5 ltac:(lia)) as Hdm.
    pose proof (Z.mod_pos_bound d 5 ltac:(lia)) as Hmod.
    assert (0 ≤ d / 5) by (apply Z.div_pos; lia).
    rewrite Nat.min_l by lia. lia.
  - intros Hlt. subst count. rewrite Z.max_l in Hxs by lia.
    change (Z.to_nat (0 / 5)) with 0%nat in Hxs. rewrite take_0 in Hxs.
    by rewrite Hxs.
  - intros k k' a b Ha Hgone Hb.
    pose proof (Hk k a Ha) as <-.
    assert (Hin : a ∈ xs).
    { destruct (decide (id a ∈ id <$> xs)) as [Hin | Hnot].
      - apply list_elem_of_fmap in Hin as (z & Hid & Hz).
        assert (z ∈ byRecency m) as Hzm.
        { rewrite Hxs in Hz. apply subseteq_take in Hz. by rewrite Hperm in Hz. }
        apply elem_of_byRecency in Hzm. pose proof (keyed_lookup m z Hk Hzm) as Hzk.
        rewrite <- Hid, Ha in Hzk. by injection Hzk as ->.
      - assert (deleteAll xs m !! id a = Some a) as E
          by by apply lookup_deleteAll_Some.
        congruence. }
    apply lookup_deleteAll_Some in Hb as [Hb Hnot].
    pose proof (Hk k' b Hb) as <-.
    assert (Hb' : b ∈ drop count sorted).
    { assert (b ∈ sorted) as Hbs.
      { rewrite Hperm. apply elem_of_byRecency. by eexists. }
      rewrite <- (take_drop count sorted) in Hbs.
      apply elem_of_app in Hbs as [Hbs | Hbs]; [|exact Hbs].
      exfalso. apply Hnot. apply list_elem_of_fmap. exists b.
      split; [reflexivity | by rewrite Hxs]. }
    pose proof (sort_sorted timestamp (byRecency m)) as Hs. fold sorted in Hs.
    rewrite <- (take_drop count sorted) in Hs.
    apply StronglySorted_app in Hs as (Hs & _ & _).
    apply Hs; [by rewrite <- Hxs | exact Hb'].
Qed.

Lemma isProtectedItem_togglePinned item :
  isPinned item ≠ Some true →
  isPinned (togglePinned item) = Some true
  ∧ isProtectedItem (togglePinned item) = true
  ∧ isProtectedItem (togglePinned (togglePinned item)) = isProtectedItem item.
Proof.
  intros H. unfold togglePinned, isProtectedItem. cbn [isPinned categories].
  destruct (isPinned item) as [[]|]; [done | by repeat split | by repeat split].
Qed.

(** X20: pinning from the panel.  On IndexedDB [handlePinItem] on an
    unpinned item writes the item back pinned under its identifier (also
    when the record was deleted in between), and from then on no sequence
    of ingestions removes it or its pin; pinning and unpinning gives the
    item its old protection status back.  On the fallback an item whose
    identifier is not in the saved list is not written. *)
Theorem handlePinItem_pins item s (calls : list (Z * ClipboardItem)) :
  isPinned item ≠ Some true →
  (is_Some (db s) → keyedStore s →
   let r := handlePinItem item s in
   togglePinned item ∈ stored r.2
   ∧ (∀ x, x ∈ stored s → id x ≠ id item → x ∈ stored r.2)
   ∧ ∃ y, y ∈ stored (ingestAll r.2 calls)
          ∧ id y = id item ∧ content y = content item
          ∧ isPinned y = Some true ∧ categories y = categories item)
  ∧ isProtectedItem (togglePinned (togglePinned item)) = isProtectedItem item
  ∧ (db s = None → id item ∉ id <$> localItems s → (handlePinItem item s).2 = s).
Proof.
  intros Hpin. destruct (isProtectedItem_togglePinned item Hpin) as (Hp & Hprot & Htwice).
  split; [|split; [exact Htwice|]].
  - destruct s as [[[m o]|] l]; [|by intros [? ?]].
    unfold keyedStore, stored. cbn [db clipboardItems]. cbv zeta. intros _ Hk.
    set (m' := <[id item := togglePinned item]> m).
    assert (E : (handlePinItem item (mkService (Some (mkIdb m o)) l)).2
                = mkService (Some (mkIdb m' o)) l) by reflexivity.
    rewrite E. cbn [db clipboardItems].
    assert (Hk' : keyed m').
    { subst m'. change (id item) with (id (togglePinned item)). by apply keyed_insert. }
    assert (Hin : m' !! id item = Some (togglePinned item))
      by (subst m'; by rewrite lookup_insert_eq).
    split; [apply elem_of_values; by exists (id item)|]. split.
    + intros x Hx Hne. apply elem_of_values in Hx.
      pose proof (keyed_lookup m x Hk Hx) as Hxm.
      apply elem_of_values. exists (id x). subst m'.
      by rewrite lookup_insert_ne.
    + destruct (ingestAll_preserves calls m' o l Hk') as (m2 & o2 & E2 & _ & H).
      destruct (H (id item) (togglePinned item) Hin Hprot)
        as (y & Hy & Hi & Hc & Hp' & Hg).
      exists y. rewrite E2. cbn [db clipboardItems]. repeat split.
      * apply elem_of_values. by eexists.
      * exact Hi.
      * exact Hc.
      * by rewrite Hp'.
      * exact Hg.
  - destruct s as [[d|] l]; [discriminate|]. intros _ Hnot.
    cbn [localItems] in Hnot.
    unfold handlePinItem, bind, updateClipboardItem, bind, getDb, getFromLocalStorage.
    cbn [db localItems].
    destruct (findIndex (id (togglePinned item)) l) as [index|] eqn:Hidx.
    + apply findIndex_Some in Hidx as (z & Hz & Hid). exfalso. apply Hnot.
      apply list_elem_of_fmap. exists z. split; [by rewrite Hid|].
      by eapply list_elem_of_lookup_2.
    + reflexivity.
Qed.

End PanelFacts.


(** ** From the clipboard to the panel *)

Section PipelineFacts.
Import Database.
Variable entropyHigh : list N → bool.

Lemma enhancedDetection_contentType (content detectedApp : list N) :
  DetectionResult.contentType (Analyzer.enhancedDetection entropyHigh content detectedApp)
  = ContentTypeResult.type (Analyzer.analyzeContentType entropyHigh content).
Proof.
  unfold Analyzer.enhancedDetection. cbv zeta.
  destruct (70 <? _); [reflexivity|]. destruct (_ && _); reflexivity.
Qed.

Lemma analyzeContentType_type_nonempty (content : list N) :
  ContentTypeResult.type (Analyzer.analyzeContentType entropyHigh content) ≠ [].
Proof.
  pose proof (analyzeContentType_cases entropyHigh content) as H. cbv zeta in H.
  intros E.
  destruct (Analyzer.analyzeContentType entropyHigh content) as [t c p].
  cbn [ContentTypeResult.type ContentTypeResult.confidence] in H, E. subst t.
  repeat (apply elem_of_cons in H as [H | H]; [discriminate|]).
  by apply elem_of_nil in H.
Qed.

(** X21: from a capture to the panel.  When a run of the poller sends a
    message and the listener of the panel ingests it into a store whose
    records are all older than the message (and, on IndexedDB, the message
    is within the retention period and the limit is at least one item), the
    list the panel loads afterwards starts with a record that carries the
    content read from the clipboard, the time of the message, the type
    given by [analyzeContentType] and the source given by
    [enhancedDetection], whether the content was new or already stored. *)
Theorem capture_reaches_panel (st : Poller.State) (i : Poller.Tick)
    (e : ClipboardData.t) (now : Z) (random : list N) (later : Z)
    (s : DatabaseService) (items : list ClipboardItem) :
  (Poller.tick entropyHigh st i).2 = Some e →
  keyedStore s → (∀ x, x ∈ stored s → timestamp x < Poller.sendTime i) →
  (∀ d, db s = Some d →
        1 ≤ maxItems (default defaultSettings (settings d))
        ∧ later - autoDeleteDays (default defaultSettings (settings d))
                  * 24 * 60 * 60 * 1000 ≤ Poller.sendTime i) →
  (ClipboardStore.handleClipboardChanged now random later e s).1 = Ok items →
  ∃ y rest, items = y :: rest
    ∧ Poller.currentContent i = Some (content y)
    ∧ timestamp y = Poller.sendTime i
    ∧ type y = ContentTypeResult.type
                 (Analyzer.analyzeContentType entropyHigh (content y))
    ∧ source y = Some (DetectionResult.sourceApp
                         (Analyzer.enhancedDetection entropyHigh (content y)
                            (Poller.detectedApp st i))).
Proof.
  intros Htick Hk Hnew Hset Hok.
  destruct (tick_cases entropyHigh st i)
    as [E | [(c & _ & _ & _ & E) | (c & Hc & _ & _ & E)]];
    rewrite E in Htick; cbn [snd] in Htick; try discriminate.
  destruct (Poller.overlayOpen i); [|discriminate]. cbv zeta in Htick.
  injection Htick as <-.
  set (analysis := Analyzer.enhancedDetection entropyHigh c (Poller.detectedApp st i)) in *.
  set (data := ClipboardData.mk c (Poller.sendTime i) _ _ _ _) in *.
  set (item := ClipboardStore.newItem now random data).
  assert (Hsrc : DetectionResult.sourceApp analysis ≠ []).
  { subst analysis.
    by destruct (enhancedDetection_cases entropyHigh c (Poller.detectedApp st i))
      as (_ & H & _). }
  assert (Htype : type item
                  = ContentTypeResult.type (Analyzer.analyzeContentType entropyHigh c)).
  { subst item data analysis. cbn [type ClipboardStore.newItem ClipboardData.type].
    apply enhancedDetection_contentType. }
  assert (Hsource : source item = Some (DetectionResult.sourceApp analysis)).
  { subst item data. cbn [source ClipboardStore.newItem ClipboardData.source].
    unfold JS.or. by destruct (DetectionResult.sourceApp analysis). }
  unfold ClipboardStore.handleClipboardChanged, bind in Hok. fold data item in Hok.
  destruct (addClipboardItem later item s) as [[[]|msg] s'] eqn:Eadd;
    [|discriminate].
  destruct (addClipboardItem_lookup later item s Hk) as (y & rest & _ & Hget & Hy).
  { exact Hnew. }
  { exact Hset. }
  { by rewrite Eadd. }
  rewrite Eadd in Hget. cbn [snd] in Hget. rewrite Hget in Hok. cbn [fst] in Hok.
  injection Hok as <-. exists y, rest.
  assert (Hfields : content y = c ∧ timestamp y = Poller.sendTime i
                    ∧ type y = type item ∧ source y = source item).
  { destruct Hy as [-> | (e0 & _ & Hce & ->)]; [by repeat split|].
    cbn [content timestamp type source merged]. repeat split.
    - exact Hce.
    - unfold JS.or. destruct (type item) eqn:Et; [|reflexivity].
      exfalso. rewrite Htype in Et.
      by apply (analyzeContentType_type_nonempty c).
    - rewrite Hsource. unfold orElse.
      by destruct (DetectionResult.sourceApp analysis). }
  destruct Hfields as (Hcy & Hty & Hyt & Hys).
  rewrite Hcy, Hyt, Hys. by repeat split.
Qed.

End PipelineFacts.


(** ** Licensing *)

Section LicensingFacts.
Import Licensing.
Variables (thisDeviceId appVersion : list N).

Lemma days_lt (d : Z) : d / day < 7 ↔ d < 7 * day.
Proof.
  unfold day. change (1000 * 60 * 60 * 24) with 86400000.
  pose proof (Z.div_mod d 86400000 ltac:(lia)) as Hdm.
  pose proof (Z.mod_pos_bound d 86400000 ltac:(lia)) as Hmod.
  set (q := d / 86400000) in *. set (r := d mod 86400000) in *. lia.
Qed.

(** X22: the trial.  For a licence file without a licence key,
    [getLicenseInfo] leaves the file as it is; when the file names this
    device and holds a valid first-launch date, the trial is valid exactly
    while fewer than seven days have passed since that date on the clock
    read, with [max(0, 7 - floor(elapsed days))] days remaining (more than
    seven when the clock is behind the first launch); with another device
    identifier or an unreadable date the result is invalid. *)
Theorem trial_validity (now later : Z) (validation : Validation) (config : Config) :
  truthy (licenseKey config) = false →
  let r := getLicenseInfo thisDeviceId appVersion now later validation (Some config) in
  r.2 = Some config
  ∧ isTrialActive r.1 = isValid r.1
  ∧ (∀ t0, deviceId config = Some thisDeviceId →
           firstLaunchDate config = Some (Some t0) →
           (isValid r.1 = true ↔ now - t0 < 7 * day)
           ∧ trialDaysRemaining r.1 = Some (Z.max 0 (7 - (now - t0) / day))
           ∧ (t0 ≤ now → trialDaysRemaining r.1 = Some 0 ∨ isValid r.1 = true))
  ∧ (deviceId config ≠ Some thisDeviceId →
     isValid r.1 = false ∧ trialDaysRemaining r.1 = Some 0)
  ∧ (getTime (firstLaunchDate config) = None → isValid r.1 = false).
Proof.
  intros Hkey. unfold getLicenseInfo. rewrite Hkey. cbv zeta.
  destruct (bool_decide (deviceId config = Some thisDeviceId)) eqn:Hdev;
    cbn [negb fst snd isValid isTrialActive trialDaysRemaining].
  - apply bool_decide_eq_true in Hdev.
    split; [reflexivity|]. split; [reflexivity|].
    split; [|split; [intros Hne; by destruct Hne | intros ->; reflexivity]].
    intros t0 _ H0. rewrite H0.
    cbn [getTime fmap option_fmap option_map]. unfold TRIAL_DAYS.
    pose proof (days_lt (now - t0)) as Hd.
    split; [|split; [reflexivity|]].
    + rewrite Z.ltb_lt. lia.
    + intros Hle. destruct (Z.ltb_spec 0 (Z.max 0 (7 - (now - t0) / day)));
        [by right | left; f_equal; lia].
  - apply bool_decide_eq_false in Hdev.
    split; [reflexivity|]. split; [reflexivity|].
    split; [intros t0 Hd; by destruct Hdev|].
    split; [intros _; by split | reflexivity].
Qed.

(** X23: the first launch.  Without a licence file [getLicenseInfo] reports
    a valid trial of seven days and writes a file for this device dated at
    the clock of the call; every later call on that file, before a licence
    is activated, is valid exactly while fewer than seven days have passed
    since then. *)
Theorem first_launch (now later now' later' : Z) (validation validation' : Validation) :
  let r := getLicenseInfo thisDeviceId appVersion now later validation None in
  let r' := getLicenseInfo thisDeviceId appVersion now' later' validation' r.2 in
  isValid r.1 = true ∧ isTrialActive r.1 = true
  ∧ trialDaysRemaining r.1 = Some 7
  ∧ r.2 = Some (mkConfig (Some thisDeviceId) (Some (Some now)) (Some appVersion)
                  (Some true) None None None None)
  ∧ r'.2 = r.2
  ∧ (isValid r'.1 = true ↔ now' - now < 7 * day).
Proof.
  cbv zeta. unfold getLicenseInfo, initializeTrial.
  cbn [fst snd licenseKey truthy deviceId firstLaunchDate].
  rewrite bool_decide_eq_true_2 by reflexivity.
  cbn [negb fst snd isValid isTrialActive trialDaysRemaining getTime fmap
       option_fmap option_map].
  unfold TRIAL_DAYS. pose proof (days_lt (now' - now)) as Hd.
  repeat (split; [reflexivity|]). rewrite Z.ltb_lt. lia.
Qed.

Lemma readBackFrom_plain (afterPair : bool) (s : list N) :
  Forall (λ c, (c < 55296 ∨ 57343 < c)%N) s →
  readBackFrom afterPair (JS.codePoints s) = s.
Proof.
  revert afterPair. induction s as [|c s IH]; intros afterPair Hs; [reflexivity|].
  apply Forall_cons in Hs as [Hc Hs].
  assert (E : JS.codePoints (c :: s) = [c] :: JS.codePoints s).
  { destruct s as [|d s]; [reflexivity|]. rewrite codePoints_cons.
    destruct (N.leb_spec 55296 c); [|reflexivity].
    destruct (N.leb_spec c 56319); [lia | reflexivity]. }
  rewrite E. cbn [readBackFrom app]. f_equal. by apply IH.
Qed.

(** A string without surrogates is read back as it was written. *)
Lemma readBack_plain (s : list N) :
  Forall (λ c, (c < 55296 ∨ 57343 < c)%N) s → readBack s = s.
Proof. apply readBackFrom_plain. Qed.

(** X24: an activated licence.  With a key in the file, [getLicenseInfo]
    asks the server only when no validation is recorded or the recorded one
    is more than seven days old: then its answer decides and an acceptance
    is recorded at the clock read afterwards; otherwise the licence is
    valid whatever the server would say, and the device identifier in the
    file is never compared.  [activateLicense] writes the file when the
    server accepts the key and leaves it alone otherwise.  What the file
    then holds is the key as [loadConfig] reads it back: the key itself
    when it has no surrogate, while a key that is one surrogate pair comes
    back as two U+FFFD. *)
Theorem licensed_revalidation (now later : Z) (validation : Validation)
    (config : Config) :
  truthy (licenseKey config) = true →
  let r := getLicenseInfo thisDeviceId appVersion now later validation (Some config) in
  isTrialActive r.1 = false
  ∧ (∀ t, lastValidation config = Some (Some t) → now - t ≤ 7 * day →
          isValid r.1 = true ∧ r.2 = Some config)
  ∧ (lastValidation config = Some None → isValid r.1 = true ∧ r.2 = Some config)
  ∧ (lastValidation config = None
     ∨ (∃ t, lastValidation config = Some (Some t) ∧ 7 * day < now - t) →
     isValid r.1 = valid validation
     ∧ (valid validation = false → r.2 = Some config)
     ∧ (valid validation = true →
        ∃ config', r.2 = Some config'
          ∧ lastValidation config' = Some (Some later)
          ∧ licenseKey config' = readBack <$> licenseKey config
          ∧ deviceId config' = readBack <$> deviceId config))
  ∧ (∀ key v t file,
       let a := activateLicense thisDeviceId key v t file in
       a.1 = valid v
       ∧ (valid v = false → a.2 = file)
       ∧ (valid v = true →
          ∃ config', a.2 = Some config' ∧ licenseKey config' = Some (readBack key)
            ∧ (Forall (λ c, (c < 55296 ∨ 57343 < c)%N) key →
               licenseKey config' = Some key)
            ∧ deviceId config' = Some thisDeviceId
            ∧ licenseActivatedDate config' = Some (Some t)
            ∧ lastValidation config'
              = lastValidation (default emptyConfig file)))
  ∧ (∀ hi lo, (55296 ≤ hi ≤ 56319)%N → (56320 ≤ lo ≤ 57343)%N →
              readBack [hi; lo] = [replacement; replacement]).
Proof.
  intros Hkey. unfold getLicenseInfo. rewrite Hkey. cbv zeta.
  assert (Hday : 7 * 24 * 60 * 60 * 1000 = 7 * day) by reflexivity.
  split; [|split; [|split; [|split; [|split]]]].
  - destruct (lastValidation config) as [[t|]|]; [destruct (_ <? _)| |];
      try destruct (valid validation); reflexivity.
  - intros t -> Ht. rewrite Hday.
    destruct (Z.ltb_spec (7 * day) (now - t)); [lia|]. by split.
  - intros ->. by split.
  - intros [-> | (t & -> & Ht)]; [|rewrite Hday; destruct (Z.ltb_spec (7 * day) (now - t)); [|lia]];
      destruct (valid validation); cbn [fst snd isValid];
      (split; [reflexivity|]); (split; [try reflexivity; try discriminate|]);
      try discriminate; intros _; eexists; by repeat split.
  - intros key v t file. unfold activateLicense. cbv zeta.
    destruct (valid v); cbn [fst snd]; (split; [reflexivity|]);
      (split; [try reflexivity; try discriminate|]); try discriminate.
    intros _. eexists. split; [reflexivity|]. cbn [licenseKey deviceId
      licenseActivatedDate lastValidation]. split; [reflexivity|].
    split; [|by repeat split]. intros Hplain. by rewrite readBack_plain.
  - intros hi lo [H1 H2] [H3 H4]. unfold readBack.
    rewrite codePoints_cons.
    destruct (N.leb_spec 55296 hi); [|lia]. destruct (N.leb_spec hi 56319); [|lia].
    destruct (N.leb_spec 56320 lo); [|lia]. destruct (N.leb_spec lo 57343); [|lia].
    reflexivity.
Qed.

End LicensingFacts.

(** ** The age shown on a card *)

Section CardFacts.
Import ClipboardCard.

(** X25: for a clock and a timestamp that are time values,
    [formatTimestamp] shows [Just now] for an age under a minute (also for
    a timestamp ahead of the clock), between 1 and 59 minutes under an
    hour, between 1 and 23 hours under a day, and at least one day
    otherwise. *)
Theorem formatTimestamp_buckets (now timestamp : Z) :
  0 ≤ now ≤ maxTime → 0 ≤ timestamp ≤ maxTime →
  let diff := now - timestamp in
  (diff < 60000 → formatTimestamp now timestamp = JS.lit "Just now")
  ∧ (60000 ≤ diff < 3600000 →
     ∃ k, 1 ≤ k ≤ 59 ∧ k = diff / 60000
          ∧ formatTimestamp now timestamp = JS.ofZ k ++ JS.lit "m ago")
  ∧ (3600000 ≤ diff < 86400000 →
     ∃ k, 1 ≤ k ≤ 23 ∧ k = diff / 3600000
          ∧ formatTimestamp now timestamp = JS.ofZ k ++ JS.lit "h ago")
  ∧ (86400000 ≤ diff →
     ∃ k, 1 ≤ k ≤ 100000000 ∧ k = diff / 86400000
          ∧ formatTimestamp now timestamp = JS.ofZ k ++ JS.lit "d ago").
Proof.
  intros Hnow Hts diff. unfold formatTimestamp. fold diff. cbv zeta.
  assert (Hdiv : ∀ b, 0 < b →
            b * (diff / b) ≤ diff < b * (diff / b) + b).
  { intros b Hb. pose proof (Z.div_mod diff b ltac:(lia)).
    pose proof (Z.mod_pos_bound diff b Hb). lia. }
  assert (Hrange : diff ≤ 8640000000000000).
  { unfold maxTime in *. subst diff. lia. }
  repeat split.
  - intros H. by destruct (Z.ltb_spec diff 60000); [|lia].
  - intros [H1 H2]. exists (diff / 60000).
    destruct (Z.ltb_spec diff 60000); [lia|].
    destruct (Z.ltb_spec diff 3600000); [|lia].
    pose proof (Hdiv 60000 ltac:(lia)). repeat split; lia.
  - intros [H1 H2]. exists (diff / 3600000).
    destruct (Z.ltb_spec diff 60000); [lia|].
    destruct (Z.ltb_spec diff 3600000); [lia|].
    destruct (Z.ltb_spec diff 86400000); [|lia].
    pose proof (Hdiv 3600000 ltac:(lia)). repeat split; lia.
  - intros H1. exists (diff / 86400000).
    destruct (Z.ltb_spec diff 60000); [lia|].
    destruct (Z.ltb_spec diff 3600000); [lia|].
    destruct (Z.ltb_spec diff 86400000); [lia|].
    pose proof (Hdiv 86400000 ltac:(lia)). repeat split; lia.
Qed.

End CardFacts.


(** ** The licence server *)

Section ServerFacts.
Import LicenseServer.
Variable dateValue : list N → option Z.

Local Abbreviation active := (Some (JS.lit "active")).
Local Abbreviation devicesOf key := (key ++ JS.lit ":devices").

(** The licences of the initial table stay as they are, every other entry
    has no status, and no key has more than one device. *)
Local Abbreviation table_kept s :=
  (∀ k, match validLicenses initial !! k with
        | Some l => validLicenses s !! k = Some l
        | None => ∀ l, validLicenses s !! k = Some l → status l = None
        end).
Local Abbreviation one_device s :=
  (∀ k devs, licenses s !! k = Some devs → (List.length devs ≤ 1)%nat).

Lemma length_generateLicenseKey (s1 s2 s3 s4 : byte * byte) :
  List.length (generateLicenseKey s1 s2 s3 s4) = 24%nat.
Proof. reflexivity. Qed.

Lemma initial_lookup (k : list N) (l : License) :
  validLicenses initial !! k = Some l →
  List.length k = 21%nat
  ∧ (status l = active →
     deviceLimit l = 1
     ∧ (k = JS.lit "CLIP-MONTHLY-DEMO-KEY" ∨ k = JS.lit "CLIP-YEARLY-DEMO-KEY1")).
Proof.
  unfold initial. cbn [validLicenses].
  rewrite !lookup_insert_Some, lookup_empty.
  intros [[<- <-] | [_ [[<- <-] | [_ [[<- <-] | [_ [=]]]]]]];
    (split; [reflexivity|]); cbn [status deviceLimit].
  - intros _. split; [reflexivity | by left].
  - intros _. split; [reflexivity | by right].
  - intros [=].
Qed.

Lemma generated_not_initial (s1 s2 s3 s4 : byte * byte) :
  validLicenses initial !! generateLicenseKey s1 s2 s3 s4 = None.
Proof.
  destruct (validLicenses initial !! generateLicenseKey s1 s2 s3 s4) as [l|] eqn:E;
    [|reflexivity].
  apply initial_lookup in E as [E _].
  rewrite length_generateLicenseKey in E. discriminate.
Qed.

Lemma table_kept_active (s : Server) (k : list N) (l : License) :
  table_kept s → validLicenses s !! k = Some l → status l = active →
  validLicenses initial !! k = Some l.
Proof.
  intros Hk Hl Hs. specialize (Hk k).
  destruct (validLicenses initial !! k) as [l0|]; [congruence|].
  rewrite (Hk l Hl) in Hs. discriminate.
Qed.

(** What a successful validation tells. *)
Lemma validate_Valid (s s' : Server) (key dev d e : list N) (f : list (list N))
    (now : Z) :
  validate dateValue s key dev now = (Valid d e f, s') →
  ∃ l devs, validLicenses s !! key = Some l ∧ status l = active
    ∧ d = dev ∧ e = expiryDate l ∧ f = features l
    ∧ licenses s' !! devicesOf key = Some devs ∧ dev ∈ devs.
Proof.
  unfold validate, licenseData.
  destruct (validLicenses s !! key) as [l|] eqn:El;
    [|destruct (bool_decide _); intros [=]].
  destruct (bool_decide (status l = active)) eqn:Ea; cbn [negb]; [|intros [=]].
  apply bool_decide_eq_true in Ea.
  destruct (match dateValue (expiryDate l) with Some t => t <? now | None => false end);
    [intros [=]|].
  cbv zeta.
  destruct (bool_decide (dev ∈ default [] (licenses s !! devicesOf key))) eqn:Ed.
  - apply bool_decide_eq_true in Ed. intros [= <- <- <- <-].
    destruct (licenses s !! devicesOf key) as [devs|] eqn:Ek;
      [|cbn in Ed; by apply elem_of_nil in Ed].
    exists l, devs. by repeat split.
  - destruct (_ <=? _); [intros [=]|]. intros [= <- <- <- <-].
    exists l, (default [] (licenses s !! devicesOf key) ++ [dev]).
    cbn [licenses]. rewrite lookup_insert_eq.
    repeat split; try done. apply elem_of_app. right. apply list_elem_of_here.
Qed.

Lemma handle_kept (s : Server) (r : Request) :
  table_kept s → one_device s →
  table_kept (handle dateValue s r).2 ∧ one_device (handle dateValue s r).2.
Proof.
  intros Hk Ho. destruct r as [key dev now | adminKey limit s1 s2 s3 s4 expiry |];
    cbn [handle]; [| |by split].
  - unfold validate, licenseData.
    destruct (validLicenses s !! key) as [l|] eqn:El;
      [|destruct (bool_decide _); by split].
    destruct (bool_decide (status l = active)) eqn:Ea; cbn [negb]; [|by split].
    apply bool_decide_eq_true in Ea.
    destruct (match dateValue (expiryDate l) with Some t => t <? now | None => false end);
      [by split|].
    cbv zeta. set (reg := default [] (licenses s !! devicesOf key)).
    destruct (bool_decide _); [by split|].
    destruct (Z.leb_spec (deviceLimit l) (Z.of_nat (List.length reg)))
      as [|Hlim]; [by split|].
    cbn [snd validLicenses licenses]. split; [exact Hk|].
    intros k devs. destruct (decide (k = devicesOf key)) as [->|Hne].
    + rewrite lookup_insert_eq. intros [= <-]. rewrite length_app.
      change (List.length [dev]) with 1%nat.
      pose proof (table_kept_active s key l Hk El Ea) as Hi.
      apply initial_lookup in Hi as [_ Hi]. destruct (Hi Ea) as [Hone _]. lia.
    + rewrite lookup_insert_ne by done. apply Ho.
  - unfold generate. destruct (JS.eqb adminKey _); cbn [negb snd]; [|by split].
    cbv zeta. cbn [snd validLicenses licenses]. split; [|exact Ho].
    intros k. specialize (Hk k).
    destruct (decide (k = generateLicenseKey s1 s2 s3 s4)) as [->|Hne].
    + rewrite generated_not_initial. rewrite lookup_insert_eq. by intros l [= <-].
    + rewrite lookup_insert_ne by done. exact Hk.
Qed.

Lemma handle_devices (s : Server) (r : Request) (k d : list N) (devs : list (list N)) :
  licenses s !! k = Some devs → d ∈ devs →
  ∃ devs', licenses (handle dateValue s r).2 !! k = Some devs' ∧ d ∈ devs'.
Proof.
  intros Hl Hd. destruct r as [key dev now | adminKey limit s1 s2 s3 s4 expiry |];
    cbn [handle]; [| |by exists devs].
  - unfold validate, licenseData.
    destruct (validLicenses s !! key) as [l|];
      [|destruct (bool_decide _); by exists devs].
    destruct (negb _); [by exists devs|].
    destruct (match dateValue (expiryDate l) with Some t => t <? now | None => false end);
      [by exists devs|].
    cbv zeta. destruct (bool_decide _); [by exists devs|].
    destruct (_ <=? _); [by exists devs|].
    cbn [snd licenses]. destruct (decide (k = devicesOf key)) as [->|Hne].
    + rewrite lookup_insert_eq, Hl. cbn [default]. eexists. split; [reflexivity|].
      apply elem_of_app. by left.
    + rewrite lookup_insert_ne by done. by exists devs.
  - unfold generate. destruct (negb _); by exists devs.
Qed.

Lemma serve_cons (s : Server) (r : Request) (rs : list Request) :
  serve dateValue s (r :: rs) = serve dateValue (handle dateValue s r).2 rs.
Proof. reflexivity. Qed.

Lemma serve_kept (rs : list Request) (s : Server) :
  table_kept s → one_device s →
  table_kept (serve dateValue s rs) ∧ one_device (serve dateValue s rs).
Proof.
  revert s. induction rs as [|r rs IH]; intros s Hk Ho; [by split|].
  rewrite serve_cons. destruct (handle_kept s r Hk Ho) as [Hk' Ho'].
  by apply IH.
Qed.

Lemma serve_devices (rs : list Request) (s : Server) (k d : list N)
    (devs : list (list N)) :
  licenses s !! k = Some devs → d ∈ devs →
  ∃ devs', licenses (serve dateValue s rs) !! k = Some devs' ∧ d ∈ devs'.
Proof.
  revert s devs. induction rs as [|r rs IH]; intros s devs Hl Hd; [by exists devs|].
  rewrite serve_cons. destruct (handle_devices s r k d devs Hl Hd) as (devs' & Hl' & Hd').
  by apply (IH _ devs').
Qed.

Lemma initial_kept : table_kept initial ∧ one_device initial.
Proof.
  split.
  - intros k. by destruct (validLicenses initial !! k).
  - intros k devs. unfold initial. cbn [licenses]. by rewrite lookup_empty.
Qed.

Lemma handle_statusless (s : Server) (r : Request) (k : list N) (l : License) :
  validLicenses s !! k = Some l → status l = None →
  ∃ l', validLicenses (handle dateValue s r).2 !! k = Some l' ∧ status l' = None.
Proof.
  intros Hl Hs. destruct r as [key dev now | adminKey limit s1 s2 s3 s4 expiry |];
    cbn [handle]; [| |by exists l].
  - unfold validate. destruct (licenseData s key) as [[l0|]|]; [|by exists l..].
    destruct (negb _); [by exists l|].
    destruct (match dateValue (expiryDate l0) with Some t => t <? now | None => false end);
      [by exists l|].
    cbv zeta. destruct (bool_decide _); [by exists l|].
    destruct (_ <=? _); by exists l.
  - unfold generate. destruct (negb _); [by exists l|]. cbv zeta.
    cbn [snd validLicenses].
    destruct (decide (k = generateLicenseKey s1 s2 s3 s4)) as [->|Hne].
    + rewrite lookup_insert_eq. by eexists.
    + rewrite lookup_insert_ne by done. by exists l.
Qed.

Lemma serve_statusless (rs : list Request) (s : Server) (k : list N) (l : License) :
  validLicenses s !! k = Some l → status l = None →
  ∃ l', validLicenses (serve dateValue s rs) !! k = Some l' ∧ status l' = None.
Proof.
  revert s l. induction rs as [|r rs IH]; intros s l Hl Hs; [by exists l|].
  rewrite serve_cons. destruct (handle_statusless s r k l Hl Hs) as (l' & Hl' & Hs').
  by apply (IH _ l').
Qed.

(** X26: a licence issued by [/api/generate] can never be validated.  From
    any state of the server, after an authorised generation and whatever
    requests follow, [/api/validate] answers the issued key with status 400
    and the error [Subscription is undefined] for every device and at every
    time, and leaves the server unchanged: the entry it wrote has no
    [status]. *)
Theorem generated_never_valid (s : Server) (limit : Z) (s1 s2 s3 s4 : byte * byte)
    (expiry : list N) (rs : list Request) (dev : list N) (now : Z) :
  let key := generateLicenseKey s1 s2 s3 s4 in
  let issued :=
    generate s (JS.lit "your-secret-admin-key") limit s1 s2 s3 s4 expiry in
  let s' := serve dateValue issued.2 rs in
  issued.1 = Generated key expiry
  ∧ validate dateValue s' key dev now
    = (BadRequest (JS.lit "Subscription is undefined"), s').
Proof.
  cbv zeta. split; [reflexivity|].
  set (s0 := (generate s _ limit s1 s2 s3 s4 expiry).2).
  destruct (serve_statusless rs s0 (generateLicenseKey s1 s2 s3 s4)
             (mkLicense limit None expiry [JS.lit "unlimited_storage"]))
    as (l' & Hl' & Hs').
  { subst s0. unfold generate. cbn [JS.eqb negb snd validLicenses].
    change (negb (JS.eqb _ _)) with false. cbv iota zeta. cbn [snd validLicenses].
    apply lookup_insert_eq. }
  { reflexivity. }
  unfold validate, licenseData. rewrite Hl'.
  rewrite bool_decide_eq_false_2 by (rewrite Hs'; discriminate).
  cbn [negb]. rewrite Hs'. reflexivity.
Qed.

(** X27: a licence is bound to its first device.  When the server, started
    from its initial table and after any requests, validates a key for a
    device, the key is one of the two active demonstration keys; from then
    on, whatever requests follow, every other device is refused for that
    key (limit reached, or expired) and the same device is answered as
    before without any change of the server, unless the licence has
    expired. *)
Theorem device_binding (rs : list Request) (key dev d e : list N)
    (f : list (list N)) (now : Z) (s' : Server) :
  validate dateValue (serve dateValue initial rs) key dev now = (Valid d e f, s') →
  d = dev
  ∧ (key = JS.lit "CLIP-MONTHLY-DEMO-KEY" ∨ key = JS.lit "CLIP-YEARLY-DEMO-KEY1")
  ∧ ∀ rs' dev2 now2,
      let s2 := serve dateValue s' rs' in
      validate dateValue s2 key dev2 now2
        = (BadRequest (JS.lit "Subscription expired"), s2)
      ∨ (dev2 = dev ∧ validate dateValue s2 key dev2 now2 = (Valid dev e f, s2))
      ∨ (dev2 ≠ dev
         ∧ validate dateValue s2 key dev2 now2
           = (BadRequest (JS.lit "Device limit reached"), s2)).
Proof.
  intros Hv.
  destruct (serve_kept rs initial (proj1 initial_kept) (proj2 initial_kept))
    as [Hk Ho].
  set (s := serve dateValue initial rs) in *.
  destruct (handle_kept s (Validate key dev now) Hk Ho) as [Hk' Ho'].
  cbn [handle] in Hk', Ho'. rewrite Hv in Hk', Ho'. cbn [snd] in Hk', Ho'.
  destruct (validate_Valid _ _ _ _ _ _ _ _ Hv)
    as (l & devs & Hl & Ha & -> & -> & -> & Hdevs & Hdev).
  pose proof (table_kept_active s key l Hk Hl Ha) as Hi.
  destruct (initial_lookup key l Hi) as [_ Hlim]. destruct (Hlim Ha) as [Hone Hkey].
  split; [reflexivity|]. split; [exact Hkey|].
  intros rs' dev2 now2. cbv zeta.
  destruct (serve_kept rs' s' Hk' Ho') as [Hk2 Ho2].
  destruct (serve_devices rs' s' _ dev devs Hdevs Hdev) as (devs2 & Hdevs2 & Hdev2).
  set (s2 := serve dateValue s' rs') in *.
  assert (Hl2 : validLicenses s2 !! key = Some l).
  { specialize (Hk2 key). by rewrite Hi in Hk2. }
  assert (devs2 = [dev]) as ->.
  { specialize (Ho2 _ _ Hdevs2). destruct devs2 as [|x [|y devs2]];
      [by apply elem_of_nil in Hdev2 | | cbn in Ho2; lia].
    apply list_elem_of_singleton in Hdev2. by subst. }
  unfold validate, licenseData. rewrite Hl2.
  rewrite bool_decide_eq_true_2 by exact Ha. cbn [negb].
  destruct (match dateValue (expiryDate l) with Some t => t <? now2 | None => false end);
    [by left | right].
  cbv zeta. rewrite Hdevs2. cbn [default].
  destruct (decide (dev2 = dev)) as [->|Hne].
  - left. split; [reflexivity|].
    rewrite bool_decide_eq_true_2 by apply list_elem_of_here. reflexivity.
  - right. split; [exact Hne|].
    rewrite bool_decide_eq_false_2
      by (intros Hin; apply list_elem_of_singleton in Hin; contradiction).
    rewrite Hone. reflexivity.
Qed.

End ServerFacts.


(** ** Instances *)

Import Database.

Lemma captures_spaced_witness :
  let read (c : list N) (t : Z) :=
    Poller.mkTick c None t (Some (JS.lit "Chrome")) true t in
  let es := [Interleaved.Begin (read (JS.lit "a") 1000); Interleaved.Resume 0;
             Interleaved.SetClipboardText;
             Interleaved.Begin (read (JS.lit "b") 1200); Interleaved.Resume 0;
             Interleaved.InternalCopyTimeout;
             Interleaved.Begin (read (JS.lit "c") 3000); Interleaved.Resume 0] in
  let sent := (Interleaved.run Analyzer.entropyAbove3_5 Interleaved.initial es).2 in
  (Poller.now <$> sent.*1) = [1000; 3000]
  ∧ StronglySorted (λ a b, Poller.now a.1 + 500 < Poller.now b.1) sent.
Proof.
  intros read es sent. split; [vm_compute; reflexivity|].
  destruct (captures_spaced Analyzer.entropyAbove3_5 Interleaved.initial es)
    as [H _]; [reflexivity | | exact H].
  vm_compute. repeat (split; [reflexivity || exact I|]). exact I.
Defined.

Lemma captures_distinct_witness :
  let read (c : list N) (t : Z) :=
    Poller.mkTick c None t (Some (JS.lit "Chrome")) true t in
  let es := [Interleaved.Begin (read (JS.lit "a") 1000);
             Interleaved.TrackingInterval (Some (JS.lit "Safari")) 1100;
             Interleaved.Resume 0;
             Interleaved.Begin (read (JS.lit "a") 2000); Interleaved.Resume 0;
             Interleaved.Begin (read (JS.lit "b") 3000); Interleaved.Resume 0] in
  let sent := (Interleaved.run Analyzer.entropyAbove3_5 Interleaved.initial es).2 in
  List.length sent = 2%nat
  ∧ ∀ n a b, sent !! n = Some a → sent !! S n = Some b →
             JS.trim (ClipboardData.content a.2) ≠ JS.trim (ClipboardData.content b.2).
Proof.
  intros read es sent. split; [vm_compute; reflexivity|].
  destruct (captures_distinct Analyzer.entropyAbove3_5 Interleaved.initial es)
    as (_ & H & _); [reflexivity | reflexivity | | | | exact H].
  - unfold es, read. intros Hin.
    repeat (apply elem_of_cons in Hin as [Hin|Hin]; [discriminate|]).
    by apply elem_of_nil in Hin.
  - unfold es, read. intros i Hin.
    repeat (apply elem_of_cons in Hin as [Hin|Hin];
            [first [discriminate | injection Hin as ->; reflexivity]|]).
    by apply elem_of_nil in Hin.
  - vm_compute. repeat (split; [reflexivity || exact I|]). exact I.
Defined.

Lemma overlapping_runs_witness :
  let read (t : Z) :=
    Poller.mkTick (JS.lit "a") None t (Some (JS.lit "Chrome")) true (t + 1500) in
  let sent :=
    (Interleaved.run Analyzer.entropyAbove3_5 Interleaved.initial
       [Interleaved.Begin (read 1000); Interleaved.Begin (read 2000);
        Interleaved.Resume 0; Interleaved.Resume 0]).2 in
  ClipboardData.content <$> sent.*2 = [JS.lit "a"; JS.lit "a"].
Proof.
  intros read sent.
  destruct (overlapping_runs Analyzer.entropyAbove3_5 Interleaved.initial
              (read 1000) (read 2000) (JS.lit "a"))
    as ((d1 & d2 & E & H1 & H2) & _);
    [reflexivity | reflexivity | reflexivity | reflexivity | discriminate
    | reflexivity | reflexivity | reflexivity | reflexivity |].
  unfold sent. rewrite E. cbn [fmap list_fmap snd]. by rewrite H1, H2.
Defined.

Lemma formatTimestamp_buckets_witness :
  ClipboardCard.formatTimestamp 1700000090000 1700000000000 = JS.lit "1m ago".
Proof.
  destruct (formatTimestamp_buckets 1700000090000 1700000000000) as (_ & H & _);
    [unfold ClipboardCard.maxTime; lia | unfold ClipboardCard.maxTime; lia |].
  destruct H as (k & _ & -> & ->); [lia|]. reflexivity.
Defined.

Lemma getClipboardItems_spec_witness :
  let s := mkService
             (Some (mkIdb (Scenario.storeOf [Scenario.item None 1; Scenario.item None 2])
                      None)) [] in
  ∃ items, getClipboardItems 1 s = (Ok items, s) ∧ List.length items = 1%nat.
Proof.
  intros s. destruct (getClipboardItems_spec 1 s) as (items & E & Hlen & _).
  - exact (keyed_storeOf _).
  - exists items. split; [exact E|]. rewrite Hlen. vm_compute. reflexivity.
Defined.

Lemma cleanupOldItems_age_pass_witness :
  let m := Scenario.storeOf [Scenario.item None 1; Scenario.item None 2] in
  let s' := (cleanupOldItems 86400002
               (mkService (Some (mkIdb m (Some (mkSettings 500 1)))) [])).2 in
  stored s' = [Scenario.item None 2]
  ∧ ∀ x, x ∈ stored s' → isProtectedItem x = false →
         86400002 - 1 * 24 * 60 * 60 * 1000 ≤ timestamp x.
Proof.
  intros m s'. split; [vm_compute; reflexivity|].
  apply (cleanupOldItems_age_pass 86400002 m (Some (mkSettings 500 1)) []).
  - apply keyed_storeOf.
  - vm_compute. lia.
Defined.

Lemma ingestAll_keeps_protected_witness :
  let x := Scenario.item (Some true) 1 in
  let s := mkService
             (Some (mkIdb (Scenario.storeOf [x]) (Some (mkSettings 0 0)))) [] in
  let calls := [(5000, Scenario.item None 2); (6000, Scenario.item None 3)] in
  ∃ y, y ∈ stored (ingestAll s calls)
       ∧ id y = id x ∧ content y = content x
       ∧ isPinned y = isPinned x ∧ categories y = categories x
       ∧ isProtectedItem y = true.
Proof.
  intros x s calls. apply ingestAll_keeps_protected.
  - by eexists.
  - exact (keyed_storeOf _).
  - apply list_elem_of_In. vm_compute. auto.
  - reflexivity.
Defined.

Lemma fallback_bounded_witness :
  let s' := ingestAll (mkService None []) [(100, Scenario.item None 1)] in
  db s' = None ∧ (List.length (localItems s') ≤ 100)%nat.
Proof.
  intros s'.
  destruct (fallback_bounded [(100, Scenario.item None 1)] []) as (Hdb & Hlen & _).
  - cbn. lia.
  - split; [exact Hdb | exact Hlen].
Defined.

Lemma ingest_then_lookup_witness :
  let s := mkService (Some (mkIdb (Scenario.storeOf [Scenario.item None 1]) None)) [] in
  let r := addClipboardItem 5000 Scenario.recopy s in
  ∃ y rest, findClipboardItemByContent (content Scenario.recopy) r.2 = (Ok (Some y), r.2)
            ∧ getClipboardItems 1000 r.2 = (Ok (y :: rest), r.2)
            ∧ content y = content Scenario.recopy
            ∧ timestamp y = timestamp Scenario.recopy.
Proof.
  intros s r. apply (ingest_then_lookup 5000 Scenario.recopy s).
  - exact (keyed_storeOf _).
  - intros x Hx. apply list_elem_of_In in Hx. vm_compute in Hx.
    destruct Hx as [<-|[]]. vm_compute. reflexivity.
  - intros d [= <-]. split; vm_compute; discriminate.
  - vm_compute. reflexivity.
Defined.

Lemma handleSmartCleanup_keeps_protected_witness :
  let x := Scenario.item (Some true) 1 in
  let s := mkService
             (Some (mkIdb (Scenario.storeOf [x; Scenario.item None 2]) None)) [] in
  let items := [Scenario.item None 2; x] in
  x ∈ stored (OverlayPanel.handleSmartCleanup items 0 s).2.
Proof.
  intros x s items.
  destruct (handleSmartCleanup_keeps_protected items 0 s x) as [_ H].
  - exact (keyed_storeOf _).
  - apply list_elem_of_In. vm_compute. auto.
  - apply H; [exact I | vm_compute; reflexivity | reflexivity].
Defined.

Lemma handleSmartCleanup_count_witness :
  let m := Scenario.storeOf [Scenario.item None 1; Scenario.item None 2] in
  ∃ m', OverlayPanel.handleSmartCleanup (loaded m) 0 (mkService (Some (mkIdb m None)) [])
        = (Ok (loaded m'), mkService (Some (mkIdb m' None)) [])
        ∧ size m' = 0%nat.
Proof.
  intros m.
  destruct (handleSmartCleanup_count 0 m None []) as (m' & E & _ & Hcount & _).
  - apply keyed_storeOf.
  - vm_compute. lia.
  - lia.
  - intros k x Hx%lookup_storeOf.
    apply elem_of_cons in Hx as [->|Hx%list_elem_of_singleton]; [done|by subst].
  - exists m'. split; [exact E|].
    change (OverlayPanel.targetCount5 0) with 0 in Hcount.
    assert (H0 : 0 ≤ 5 * Z.of_nat (size m)) by lia.
    specialize (Hcount H0). lia.
Defined.

Lemma handlePinItem_pins_witness :
  let item := Scenario.item None 1 in
  let s := mkService (Some (mkIdb (Scenario.storeOf [item]) None)) [] in
  OverlayPanel.togglePinned item ∈ stored (OverlayPanel.handlePinItem item s).2.
Proof.
  intros item s. destruct (handlePinItem_pins item s []) as [H _]; [discriminate|].
  destruct H as [H _]; [by eexists | exact (keyed_storeOf _) | exact H].
Defined.

Lemma capture_reaches_panel_witness :
  let st := Poller.mkState (JS.lit "a") (Poller.contentHash (JS.lit "a")) 1000 false
              (JS.lit "System") in
  let i := Poller.mkTick (JS.lit "b") None 2000 (Some (JS.lit "Chrome")) true 2001 in
  ∃ e items y rest,
    (Poller.tick Analyzer.entropyAbove3_5 st i).2 = Some e
    ∧ (ClipboardStore.handleClipboardChanged 2002 (JS.lit "k3j9x0q1z") 2003 e emptyDb).1
      = Ok items
    ∧ items = y :: rest
    ∧ content y = JS.lit "b" ∧ timestamp y = 2001
    ∧ source y = Some (JS.lit "Chrome").
Proof.
  intros st i.
  assert (E : ∃ e, (Poller.tick Analyzer.entropyAbove3_5 st i).2 = Some e)
    by (eexists; vm_compute; reflexivity).
  destruct E as [e E].
  assert (Hitems : ∃ items,
            (ClipboardStore.handleClipboardChanged 2002 (JS.lit "k3j9x0q1z") 2003 e
               emptyDb).1 = Ok items).
  { vm_compute in E. injection E as <-. eexists. vm_compute. reflexivity. }
  destruct Hitems as [items Hitems].
  destruct (capture_reaches_panel Analyzer.entropyAbove3_5 st i e 2002
              (JS.lit "k3j9x0q1z") 2003 emptyDb items E)
    as (y & rest & -> & Hc & Ht & _ & Hs).
  - intros k x. cbn [emptyDb db clipboardItems]. by rewrite lookup_empty.
  - intros x Hx. apply list_elem_of_In in Hx. vm_compute in Hx. destruct Hx.
  - intros d [= <-]. split; vm_compute; discriminate.
  - exact Hitems.
  - change (Poller.currentContent i) with (Some (JS.lit "b")) in Hc.
    injection Hc as Hc. rewrite <- Hc in Hs.
    exists e, (y :: rest), y, rest. split; [exact E|]. split; [exact Hitems|].
    split; [reflexivity|]. split; [exact (eq_sym Hc)|]. split; [exact Ht|].
    rewrite Hs. vm_compute. reflexivity.
Defined.

Lemma trial_validity_witness :
  let config := Licensing.mkConfig (Some (JS.lit "d")) (Some (Some 0)) None (Some true)
                  None None None None in
  let r := Licensing.getLicenseInfo (JS.lit "d") (JS.lit "1.0") (3 * Licensing.day) 0
             (Licensing.mkValidation false None) (Some config) in
  Licensing.isValid r.1 = true ∧ Licensing.trialDaysRemaining r.1 = Some 4.
Proof.
  intros config r.
  destruct (trial_validity (JS.lit "d") (JS.lit "1.0") (3 * Licensing.day) 0
              (Licensing.mkValidation false None) config) as (_ & _ & H & _);
    [reflexivity|].
  destruct (H 0) as (Hv & Hr & _); [reflexivity | reflexivity |].
  split; [apply Hv; vm_compute; reflexivity | exact Hr].
Defined.

Lemma licensed_revalidation_witness :
  let config := Licensing.mkConfig (Some (JS.lit "d")) (Some (Some 0)) None (Some true)
                  (Some (JS.lit "K")) (Some (Some 5)) (Some (Some 5)) None in
  let r := Licensing.getLicenseInfo (JS.lit "d") (JS.lit "1.0") Licensing.day 0
             (Licensing.mkValidation false None) (Some config) in
  Licensing.isValid r.1 = true ∧ r.2 = Some config.
Proof.
  intros config r.
  destruct (licensed_revalidation (JS.lit "d") (JS.lit "1.0") Licensing.day 0
              (Licensing.mkValidation false None) config) as (_ & H & _);
    [reflexivity|].
  apply (H 5); [reflexivity | vm_compute; discriminate].
Defined.

Lemma device_binding_witness :
  let dateValue := λ _ : list N, @None Z in
  let key := JS.lit "CLIP-MONTHLY-DEMO-KEY" in
  let r := LicenseServer.validate dateValue
             (LicenseServer.serve dateValue LicenseServer.initial []) key (JS.lit "a") 0 in
  let s2 := LicenseServer.serve dateValue r.2 [LicenseServer.Health] in
  LicenseServer.validate dateValue s2 key (JS.lit "b") 7
  = (LicenseServer.BadRequest (JS.lit "Device limit reached"), s2).
Proof.
  intros dateValue key r s2.
  destruct (device_binding dateValue [] key (JS.lit "a") (JS.lit "a")
              (JS.lit "2025-01-22")
              [JS.lit "unlimited_storage"; JS.lit "smart_categorization"] 0 r.2)
    as (_ & _ & H); [vm_compute; reflexivity|].
  destruct (H [LicenseServer.Health] (JS.lit "b") 7) as [E | [[E _] | [_ E]]].
  - apply (f_equal fst) in E. vm_compute in E. discriminate E.
  - vm_compute in E. discriminate E.
  - exact E.
Defined.
